(** * namecheap-checker: a shallow embedding of [namecheap-checker.py]

    The script fetches the domain list of a registrar account, turns the
    XML answer into a list of records and prints four views of it.  This
    file embeds [get_domains], [parse_date], [display_domains] and the
    body of the script together with the pieces of the Python runtime
    they call, and proves the
    properties of the report stated in the specification.

    Conventions.
    - A Python [str] is a [string]; only ASCII text is represented, so the
      non-ASCII decimal digits and spaces that Python's [\d], [\s], [int]
      and [str.split] also accept are outside the model.
    - [None] is [option]'s [None]; a dict read with [.get] is a [gmap]
      lookup.
    - A function that prints, writes a file or raises is a computation in
      the monad [M]: it threads the [world] (console and files) and returns
      [Ok v] or [Raise e]; what was printed before an exception stays.
    - [datetime.now()] and the HTTP answer are inputs of the functions: a
      run in which the request itself raises, or in which the response
      file cannot be written, is not represented.
    - What [strftime] writes for [%Y] depends on the C library; the
      library is the parameter [DateTime.Platform] of the functions that
      print a year. *)

From Stdlib Require Import ZArith QArith Ascii Lia.
From stdpp Require Import base tactics option list gmap strings pretty sorting.

Local Open Scope Z_scope.

(** ** Python runtime: exceptions, console, files *)

Inductive exn :=
  | TypeError
  | ValueError
  | ZeroDivisionError
  | ParseError.

Inductive result (A : Type) :=
  | Ok (a : A)
  | Raise (e : exn).
Arguments Ok {A} a.
Arguments Raise {A} e.

(** One printed line.  The percentage lines of the statistics view embed
    a number rendered by Python's float formatting ([:.1f]); for these the
    model keeps the text before the number, the exact value of the
    expression and the text after it. *)
Inductive line :=
  | Text (s : string)
  | Float1 (before : string) (x : Q) (after : string).

Record world := World {
  stdout : list line;
  files : gmap string string
}.

Definition M (A : Type) : Type := world → world * result A.

Definition ret {A} (a : A) : M A := λ w, (w, Ok a).

Definition bind {A B} (m : M A) (k : A → M B) : M B :=
  λ w, match m w with
       | (w', Ok a) => k a w'
       | (w', Raise e) => (w', Raise e)
       end.

Definition raise {A} (e : exn) : M A := λ w, (w, Raise e).

Definition lift {A} (r : result A) : M A := λ w, (w, r).

Notation "x <~ m ;; k" := (bind m (λ x, k))
  (at level 100, m at next level, right associativity).
Notation "m ;;; k" := (bind m (λ _, k))
  (at level 100, right associativity).

Definition print (s : string) : M unit :=
  λ w, (World (stdout w ++ [Text s]) (files w), Ok tt).

Definition print_line (l : line) : M unit :=
  λ w, (World (stdout w ++ [l]) (files w), Ok tt).

(** [a / b] on two ints. *)
Definition truediv (a b : Z) : result Q :=
  if b =? 0 then Raise ZeroDivisionError else Ok (inject_Z a / inject_Z b)%Q.

Definition write_file (name content : string) : M unit :=
  λ w, (World (stdout w) (<[name := content]> (files w)), Ok tt).

Fixpoint for_each {A} (body : A → M unit) (l : list A) : M unit :=
  match l with
  | [] => ret tt
  | x :: l' => body x ;;; for_each body l'
  end.

(** ** Python strings *)

Module Str.

Fixpoint length (s : string) : nat :=
  match s with
  | EmptyString => 0%nat
  | String _ s' => S (length s')
  end.

Fixpoint repeat (c : ascii) (n : nat) : string :=
  match n with
  | O => EmptyString
  | S n' => String c (repeat c n')
  end.

(** [format(s, "<w")] on a str: pad on the right with spaces. *)
Definition ljust (s : string) (w : nat) : string :=
  s +:+ repeat " " (w - length s).

(** [f"{v:<w}"] where [v] may be [None]: [NoneType.__format__] rejects
    every non-empty format specification. *)
Definition format_ljust (v : option string) (w : nat) : result string :=
  match v with
  | Some s => Ok (ljust s w)
  | None => Raise TypeError
  end.

(** [f"{v}"] *)
Definition str (v : option string) : string :=
  match v with
  | Some s => s
  | None => "None"
  end.

(** Truth value of a [str]-or-[None]. *)
Definition truthy (v : option string) : bool :=
  match v with
  | Some (String _ _) => true
  | _ => false
  end.

(** [str.isspace] on one ASCII character. *)
Definition is_space (c : ascii) : bool :=
  match c with
  | "009" | "010" | "011" | "012" | "013"
  | "028" | "029" | "030" | "031" | " " => true
  | _ => false
  end%char.

(** The value of a decimal digit. *)
Definition digit_val (c : ascii) : option Z :=
  let n := Z.of_N (N_of_ascii c) in
  if (48 <=? n) && (n <=? 57) then Some (n - 48) else None.

(** [str.split()] without argument: the maximal runs of non-space
    characters.  [cur] holds the run being read, last character first. *)
Definition flush (cur : string) : list string :=
  match cur with
  | EmptyString => []
  | String _ _ => [String.rev cur]
  end.

Fixpoint split_go (cur : string) (s : string) : list string :=
  match s with
  | EmptyString => flush cur
  | String c s' =>
      if is_space c
      then flush cur ++ split_go EmptyString s'
      else split_go (String c cur) s'
  end.

Definition split (s : string) : list string := split_go EmptyString s.

Fixpoint lstrip (s : string) : string :=
  match s with
  | String c s' => if is_space c then lstrip s' else s
  | EmptyString => EmptyString
  end.

Definition strip (s : string) : string :=
  String.rev (lstrip (String.rev (lstrip s))).

(** The digits of an [int] literal: decimal digits, single underscores
    allowed between two digits. *)
Fixpoint int_digits (acc : Z) (after_digit : bool) (s : string) : option Z :=
  match s with
  | EmptyString => if after_digit then Some acc else None
  | String c s' =>
      match digit_val c with
      | Some d => int_digits (10 * acc + d) true s'
      | None =>
          if bool_decide (c = "_"%char) && after_digit
          then int_digits acc false s'
          else None
      end
  end.

(** [int(s)]; [None] stands for [ValueError].  The interpreter's limit on
    the number of digits (4300 by default) is not modelled. *)
Definition int (s : string) : option Z :=
  match strip s with
  | String "-" s' => Z.opp <$> int_digits 0 false s'
  | String "+" s' => int_digits 0 false s'
  | s' => int_digits 0 false s'
  end.

(** [str(n)] for an [int]. *)
Definition of_int (n : Z) : string := pretty n.

(** The character of a decimal digit, and the text of a row of digits. *)
Definition digit_char (d : Z) : ascii := ascii_of_N (Z.to_N (48 + d)).

Fixpoint numeral (ds : list Z) : string :=
  match ds with
  | [] => EmptyString
  | d :: ds' => String (digit_char d) (numeral ds')
  end.

End Str.

(** ** [datetime] *)

Module DateTime.

Record datetime := Datetime {
  year : Z;
  month : Z;
  day : Z;
  hour : Z;
  minute : Z;
  second : Z;
  microsecond : Z
}.

Global Instance datetime_eq_dec : EqDecision datetime.
Proof. solve_decision. Defined.

Definition MINYEAR : Z := 1.
Definition MAXYEAR : Z := 9999.

Definition is_leap (y : Z) : bool :=
  (y mod 4 =? 0) && (negb (y mod 100 =? 0) || (y mod 400 =? 0)).

Definition days_in_month (y m : Z) : Z :=
  if (m =? 2) && is_leap y then 29
  else match m with
       | 1 | 3 | 5 | 7 | 8 | 10 | 12 => 31
       | 4 | 6 | 9 | 11 => 30
       | 2 => 28
       | _ => -1
       end.

Definition days_before_year (y : Z) : Z :=
  let y' := y - 1 in
  y' * 365 + y' / 4 - y' / 100 + y' / 400.

Definition days_before_month (y m : Z) : Z :=
  match m with
  | 1 => 0 | 2 => 31 | 3 => 59 | 4 => 90 | 5 => 120 | 6 => 151
  | 7 => 181 | 8 => 212 | 9 => 243 | 10 => 273 | 11 => 304 | 12 => 334
  | _ => -1
  end + (if (2 <? m) && is_leap y then 1 else 0).

Definition ymd2ord (y m d : Z) : Z :=
  days_before_year y + days_before_month y m + d.

Definition toordinal (t : datetime) : Z :=
  ymd2ord (year t) (month t) (day t).

Definition check_date_fields (y m d : Z) : bool :=
  (MINYEAR <=? y) && (y <=? MAXYEAR) &&
  (1 <=? m) && (m <=? 12) &&
  (1 <=? d) && (d <=? days_in_month y m).

Definition check_time_fields (h mi s us : Z) : bool :=
  (0 <=? h) && (h <=? 23) && (0 <=? mi) && (mi <=? 59) &&
  (0 <=? s) && (s <=? 59) && (0 <=? us) && (us <=? 999999).

(** The constructor [datetime(y, m, d, h, mi, s, us)]. *)
Definition new (y m d h mi s us : Z) : result datetime :=
  if check_date_fields y m d && check_time_fields h mi s us
  then Ok (Datetime y m d h mi s us)
  else Raise ValueError.

Definition valid (t : datetime) : Prop :=
  check_date_fields (year t) (month t) (day t) &&
  check_time_fields (hour t) (minute t) (second t) (microsecond t) = true.

(** [timedelta(days, seconds, microseconds)], normalised as the
    constructor does: [0 <= seconds < 86400], [0 <= microseconds < 10^6]. *)
Record timedelta := Timedelta {
  days : Z;
  seconds : Z;
  microseconds : Z
}.

Definition mk_timedelta (d s us : Z) : timedelta :=
  let s' := s + us / 1000000 in
  Timedelta (d + s' / 86400) (s' mod 86400) (us mod 1000000).

(** [a - b] on two naive datetimes. *)
Definition sub (a b : datetime) : timedelta :=
  let secs1 := second a + minute a * 60 + hour a * 3600 in
  let secs2 := second b + minute b * 60 + hour b * 3600 in
  mk_timedelta (toordinal a - toordinal b) (secs1 - secs2)
               (microsecond a - microsecond b).

(** Comparison is that of the field tuples. *)
Definition fields (t : datetime) : list Z :=
  [year t; month t; day t; hour t; minute t; second t; microsecond t].

Fixpoint lex_lt (a b : list Z) : bool :=
  match a, b with
  | x :: a', y :: b' => (x <? y) || ((x =? y) && lex_lt a' b')
  | [], _ :: _ => true
  | _, [] => false
  end.

Definition lt (a b : datetime) : bool := lex_lt (fields a) (fields b).

Definition month_name (m : Z) : string :=
  match m with
  | 1 => "January" | 2 => "February" | 3 => "March" | 4 => "April"
  | 5 => "May" | 6 => "June" | 7 => "July" | 8 => "August"
  | 9 => "September" | 10 => "October" | 11 => "November"
  | 12 => "December"
  | _ => ""
  end.

(** A year written with four digits, zeros in front where needed: the
    texts [%Y] accepts when [strptime] reads a date. *)
Definition year4 (y : Z) : string :=
  Str.numeral [y / 1000; y / 100 mod 10; y / 10 mod 10; y mod 10].

(** [strftime] hands [%Y] to the C library, and the libraries differ on
    the years below 1000: the documented form has four digits
    (["0999"]), glibc writes the plain decimal number (["999"]).
    [pads_year] says which library the interpreter runs on. *)
Class Platform := { pads_year : bool }.

(** [%Y] as [strftime] writes it; the constructor keeps the year
    between 1 and 9999. *)
Definition strftime_Y {libc : Platform} (y : Z) : string :=
  if pads_year then year4 y else Str.of_int y.

(** [t.strftime("%B %Y")] in the C locale. *)
Definition strftime_B_Y {libc : Platform} (t : datetime) : string :=
  month_name (month t) +:+ " " +:+ strftime_Y (year t).

(** [%m], [%d], [%H], [%M] and [%S]: the number written with two digits. *)
Definition two_digits (v : Z) : string := Str.numeral [v / 10; v mod 10].

(** [t.strftime('%Y-%m-%d %H:%M:%S')] *)
Definition strftime_Ymd_HMS {libc : Platform} (t : datetime) : string :=
  strftime_Y (year t) +:+ "-" +:+ two_digits (month t) +:+ "-" +:+
  two_digits (day t) +:+ " " +:+ two_digits (hour t) +:+ ":" +:+
  two_digits (minute t) +:+ ":" +:+ two_digits (second t).

End DateTime.

(** ** [datetime.strptime]

    [_strptime] turns the format into a regular expression with one named
    group per directive, matches it against the start of the text
    (ignoring case), rejects text left over, converts the groups with
    [int] and builds the datetime, which validates the fields.  Every
    failure is a [ValueError]. *)

Module Strptime.
Import DateTime.

Inductive cls :=
  | Digit
  | Range (lo hi : ascii)
  | Chr (c : ascii).

Global Instance cls_eq_dec : EqDecision cls.
Proof. solve_decision. Defined.

Definition cls_match (k : cls) (c : ascii) : bool :=
  match k with
  | Digit => bool_decide (is_Some (Str.digit_val c))
  | Range lo hi =>
      (N_of_ascii lo <=? N_of_ascii c)%N && (N_of_ascii c <=? N_of_ascii hi)%N
  | Chr c' => bool_decide (c = c')
  end.

Inductive item :=
  | Lit (c : ascii)
  | Spaces
  | Group (name : ascii) (alts : list (list cls)).

(** The regular expressions of the directives the script uses, each a
    list of alternatives in the order the library writes them. *)
Definition directive (d : ascii) : option (list (list cls)) :=
  match d with
  | "d" => Some [ [Chr "3"; Range "0" "1"]; [Range "1" "2"; Digit];
                  [Chr "0"; Range "1" "9"]; [Range "1" "9"];
                  [Chr " "; Range "1" "9"] ]
  | "H" => Some [ [Chr "2"; Range "0" "3"]; [Range "0" "1"; Digit]; [Digit] ]
  | "m" => Some [ [Chr "1"; Range "0" "2"]; [Chr "0"; Range "1" "9"];
                  [Range "1" "9"] ]
  | "M" => Some [ [Range "0" "5"; Digit]; [Digit] ]
  | "S" => Some [ [Chr "6"; Range "0" "1"]; [Range "0" "5"; Digit]; [Digit] ]
  | "y" => Some [ [Digit; Digit] ]
  | "Y" => Some [ [Digit; Digit; Digit; Digit] ]
  | _ => None
  end%char.

(** [TimeRE.pattern]: a directive becomes its group, a run of white
    space becomes [\s+], any other character stands for itself.
    [None] is the [ValueError] for a bad directive or a stray [%];
    directives outside the table above are not modelled. *)
Fixpoint pattern (fmt : string) : option (list item) :=
  match fmt with
  | EmptyString => Some []
  | String "%" EmptyString => None
  | String "%" (String d rest) =>
      alts ← directive d;
      p ← pattern rest;
      Some (Group d alts :: p)
  | String c rest =>
      p ← pattern rest;
      if Str.is_space c
      then Some (match p with Spaces :: _ => p | _ => Spaces :: p end)
      else Some (Lit c :: p)
  end.

Definition lower (c : ascii) : ascii :=
  let n := N_of_ascii c in
  if (65 <=? n)%N && (n <=? 90)%N then ascii_of_N (n + 32) else c.

(** Match a sequence of character classes at the start of [s]: the
    matched text and the rest. *)
Fixpoint match_seq (ks : list cls) (s : string) : option (string * string) :=
  match ks with
  | [] => Some (EmptyString, s)
  | k :: ks' =>
      match s with
      | String c s' =>
          if cls_match k c
          then '(m, r) ← match_seq ks' s'; Some (String c m, r)
          else None
      | EmptyString => None
      end
  end.

(** What is left after [\s+], the longest run first. *)
Fixpoint space_rests (s : string) : list string :=
  match s with
  | String c s' => if Str.is_space c then space_rests s' ++ [s'] else []
  | EmptyString => []
  end.

(** All the ways the expression matches a prefix of [s], in the order a
    backtracking matcher finds them: the groups and the rest. *)
Fixpoint re_match (p : list item) (s : string)
  : list (list (ascii * string) * string) :=
  match p with
  | [] => [([], s)]
  | Lit c :: p' =>
      match s with
      | String c' s' =>
          if bool_decide (lower c = lower c') then re_match p' s' else []
      | EmptyString => []
      end
  | Spaces :: p' => space_rests s ≫= re_match p'
  | Group n alts :: p' =>
      omap (λ ks, match_seq ks s) alts ≫= λ '(m, r),
        (λ '(g, r'), ((n, m) :: g, r')) <$> re_match p' r
  end.

Record found := Found {
  f_year : option Z;
  f_month : Z;
  f_day : Z;
  f_hour : Z;
  f_minute : Z;
  f_second : Z
}.

Definition found0 : found := Found None 1 1 0 0 0.

(** One round of the loop over the groups. *)
Definition convert (f : found) (g : ascii * string) : option found :=
  v ← Str.int g.2;
  Some match g.1 with
       | "y"%char => Found (Some (if v <=? 68 then v + 2000 else v + 1900))
                      (f_month f) (f_day f) (f_hour f) (f_minute f) (f_second f)
       | "Y"%char => Found (Some v)
                      (f_month f) (f_day f) (f_hour f) (f_minute f) (f_second f)
       | "m"%char => Found (f_year f) v (f_day f) (f_hour f) (f_minute f) (f_second f)
       | "d"%char => Found (f_year f) (f_month f) v (f_hour f) (f_minute f) (f_second f)
       | "H"%char => Found (f_year f) (f_month f) (f_day f) v (f_minute f) (f_second f)
       | "M"%char => Found (f_year f) (f_month f) (f_day f) (f_hour f) v (f_second f)
       | "S"%char => Found (f_year f) (f_month f) (f_day f) (f_hour f) (f_minute f) v
       | _ => f
       end.

Fixpoint convert_all (f : found) (gs : list (ascii * string)) : option found :=
  match gs with
  | [] => Some f
  | g :: gs' => f' ← convert f g; convert_all f' gs'
  end.

(** The datetime for the converted fields.  Without a year the library
    computes the weekday with 1900, or 1904 for a 29 February, and
    builds the result with 1900. *)
Definition build (f : found) : result datetime :=
  let y := match f_year f with
           | Some y => y
           | None => if (f_month f =? 2) && (f_day f =? 29) then 1904 else 1900
           end in
  if check_date_fields y (f_month f) (f_day f)
  then DateTime.new (default 1900 (f_year f)) (f_month f) (f_day f)
                    (f_hour f) (f_minute f) (f_second f) 0
  else Raise ValueError.

Definition strptime (data_string format : string) : result datetime :=
  match pattern format with
  | None => Raise ValueError
  | Some p =>
      match re_match p data_string with
      | [] => Raise ValueError
      | (groups, String _ _) :: _ => Raise ValueError
      | (groups, EmptyString) :: _ =>
          match convert_all found0 groups with
          | Some f => build f
          | None => Raise ValueError
          end
      end
  end.

End Strptime.

(** ** [xml.etree.ElementTree]

    An element has a tag (written [{namespace}local]), its attributes, its
    text and its children.  The paths the script searches are kept as the
    steps [ElementPath] compiles them to. *)

Module ET.

#[warnings="-register-all"]
Inductive Element :=
  | Elem (tag : string) (attrib : gmap string string)
         (text : option string) (children : list Element).

Definition tag (e : Element) : string :=
  match e with Elem t _ _ _ => t end.
Definition attrib (e : Element) : gmap string string :=
  match e with Elem _ a _ _ => a end.
Definition text (e : Element) : option string :=
  match e with Elem _ _ x _ => x end.
Definition children (e : Element) : list Element :=
  match e with Elem _ _ _ cs => cs end.

(** [e.iter()]: the element, then its descendants, in document order. *)
Fixpoint iter (e : Element) : list Element :=
  match e with
  | Elem _ _ _ cs =>
      e :: (fix iter_all (l : list Element) : list Element :=
              match l with
              | [] => []
              | c :: l' => iter c ++ iter_all l'
              end) cs
  end.

Inductive step :=
  | Self
  | Descendant (t : string)
  | Child (t : string).

(** One selector applied to the current result.  [//t] yields, for
    each element, what [iter(t)] yields apart from the element
    itself. *)
Definition select (s : step) (result : list Element) : list Element :=
  match s with
  | Self => result
  | Descendant t => result ≫= λ e, filter (λ x, tag x = t) (tail (iter e))
  | Child t => result ≫= λ e, filter (λ x, tag x = t) (children e)
  end.

Definition findall (e : Element) (path : list step) : list Element :=
  foldl (λ result s, select s result) [e] path.

Definition find (e : Element) (path : list step) : option Element :=
  head (findall e path).

Definition findtext (e : Element) (path : list step) (dflt : string) : string :=
  match find e path with
  | Some x => default EmptyString (text x)
  | None => dflt
  end.

End ET.

(** ** Python's [sorted(l, key=...)]

    The sort is stable and compares keys with [<] only.  It is written
    here as an insertion sort: an element goes in front of the first
    element whose key is not smaller than its own. *)

Section Sorted.
Context {A K : Type} (lt : K → K → bool) (key : A → K).

Fixpoint insert (x : A) (l : list A) : list A :=
  match l with
  | [] => [x]
  | y :: l' => if lt (key y) (key x) then y :: insert x l' else x :: l
  end.

Fixpoint sorted (l : list A) : list A :=
  match l with
  | [] => []
  | x :: l' => insert x (sorted l')
  end.
End Sorted.

(** ** The script *)

Module Checker.
Import DateTime.

(** A domain dict.  The key ["expiry_date_obj"] is added by
    [display_domains] before anything reads it; it is [None] until
    then. *)
Record domain := Domain {
  ID : option string;
  name : option string;
  user : option string;
  created : option string;
  expires : option string;
  is_expired : bool;
  is_locked : bool;
  auto_renew : bool;
  whois_guard : option string;
  is_premium : bool;
  is_our_dns : bool;
  expiry_date_obj : option datetime
}.

Global Instance domain_eq_dec : EqDecision domain.
Proof. solve_decision. Defined.

(** [domain["expiry_date_obj"] = v] *)
Definition set_expiry_date_obj (d : domain) (v : option datetime) : domain :=
  Domain (ID d) (name d) (user d) (created d) (expires d) (is_expired d)
         (is_locked d) (auto_renew d) (whois_guard d) (is_premium d)
         (is_our_dns d) v.

Definition nl : string := String "010" EmptyString.

(** *** [get_domains] *)

(** The three environment variables; [os.getenv] gives [None] for an
    unset one. *)
Record config := Config {
  API_KEY : option string;
  API_USER : option string;
  CLIENT_IP : option string
}.

(** What [requests.get] returned. *)
Record response := Response {
  status_code : Z;
  text : string
}.

Definition params (cfg : config) : list (string * option string) :=
  [("ApiUser", API_USER cfg);
   ("ApiKey", API_KEY cfg);
   ("UserName", API_USER cfg);
   ("Command", Some "namecheap.domains.getList");
   ("ClientIp", CLIENT_IP cfg);
   ("ListType", Some "ALL");
   ("Page", Some "1");
   ("PageSize", Some "100");
   ("SortBy", Some "EXPIREDATE")].

(** [nc:local] under [ns = {"nc": "http://api.namecheap.com/xml.response"}] *)
Definition nc (local : string) : string :=
  "{http://api.namecheap.com/xml.response}" +:+ local.

(** [".//nc:Errors/nc:Error"] *)
Definition errors_path : list ET.step :=
  [ET.Self; ET.Descendant (nc "Errors"); ET.Child (nc "Error")].

(** [".//nc:CommandResponse/nc:DomainGetListResult/nc:Domain"] *)
Definition domains_path : list ET.step :=
  [ET.Self; ET.Descendant (nc "CommandResponse");
   ET.Child (nc "DomainGetListResult"); ET.Child (nc "Domain")].

(** [".//nc:CommandResponse/nc:Paging"] *)
Definition paging_path : list ET.step :=
  [ET.Self; ET.Descendant (nc "CommandResponse"); ET.Child (nc "Paging")].

(** The dict built for one [Domain] element. *)
Definition domain_info (element : ET.Element) : domain :=
  let attrib := ET.attrib element in
  {| ID := attrib !! "ID";
     name := attrib !! "Name";
     user := attrib !! "User";
     created := attrib !! "Created";
     expires := attrib !! "Expires";
     is_expired := bool_decide (attrib !! "IsExpired" = Some "true");
     is_locked := bool_decide (attrib !! "IsLocked" = Some "true");
     auto_renew := bool_decide (attrib !! "AutoRenew" = Some "true");
     whois_guard := attrib !! "WhoisGuard";
     is_premium := bool_decide (attrib !! "IsPremium" = Some "true");
     is_our_dns := bool_decide (attrib !! "IsOurDNS" = Some "true");
     expiry_date_obj := None |}.

Definition print_param (p : string * option string) : M unit :=
  if decide (p.1 = "ApiKey")
  then print (p.1 +:+ ": " +:+ Str.repeat "*" 8)
  else print (p.1 +:+ ": " +:+ Str.str p.2).

Definition print_error (error : ET.Element) : M unit :=
  let number := default "Unknown" (ET.attrib error !! "Number") in
  print ("API Error " +:+ number +:+ ": " +:+ Str.str (ET.text error)).

Definition print_paging (root : ET.Element) : M unit :=
  match ET.find root paging_path with
  | Some paging =>
      let total_items := ET.findtext paging [ET.Child (nc "TotalItems")] "Unknown" in
      let current_page := ET.findtext paging [ET.Child (nc "CurrentPage")] "Unknown" in
      let page_size := ET.findtext paging [ET.Child (nc "PageSize")] "Unknown" in
      print ("Paging: Total Items: " +:+ total_items +:+ ", Current Page: " +:+
             current_page +:+ ", Page Size: " +:+ page_size)
  | None => ret tt
  end.

Section GetDomains.
(** [ET.fromstring]: the root element, or the parser's exception on
    text that is not well-formed XML. *)
Variable fromstring : string → result ET.Element.

Definition get_domains (cfg : config) (response : response) : M (list domain) :=
  print "Making API request with parameters:" ;;;
  for_each print_param (params cfg) ;;;
  print (nl +:+ "API Response Status Code: " +:+
         Str.of_int (status_code response)) ;;;
  if decide (status_code response ≠ 200) then
    print ("Error: " +:+ Str.of_int (status_code response)) ;;;
    print (text response) ;;;
    ret []
  else
    write_file "api_response.xml" (text response) ;;;
    print "Response saved to api_response.xml for debugging" ;;;
    root <~ lift (fromstring (text response)) ;;
    let status := ET.attrib root !! "Status" in
    if decide (status ≠ Some "OK") then
      let errors := ET.findall root errors_path in
      for_each print_error errors ;;;
      ret []
    else
      let domain_elements := ET.findall root domains_path in
      print ("Found " +:+ Str.of_int (Z.of_nat (length domain_elements)) +:+
             " domains in response") ;;;
      let domains := domain_info <$> domain_elements in
      print_paging root ;;;
      ret domains.
End GetDomains.

(** *** [parse_date] *)

Definition formats : list string :=
  ["%m/%d/%Y"; "%m/%d/%y"; "%Y-%m-%dT%H:%M:%S"; "%Y-%m-%d"].

(** The [for fmt in ...] loop: return at the first format that parses,
    go on after a [ValueError], let any other exception through. *)
Fixpoint try_formats (date_str : string) (fmts : list string)
  : result (option datetime) :=
  match fmts with
  | [] => Ok None
  | fmt :: fmts' =>
      match Strptime.strptime date_str fmt with
      | Ok t => Ok (Some t)
      | Raise ValueError => try_formats date_str fmts'
      | Raise e => Raise e
      end
  end.

(** The text of the exception printed by the outer handler is not
    modelled. *)
Definition parse_date (date_str : option string) : M (option datetime) :=
  if negb (Str.truthy date_str) then ret None
  else
    let s := default EmptyString date_str in
    match try_formats s formats with
    | Ok (Some t) => ret (Some t)
    | Ok None => print ("Warning: Unable to parse date: " +:+ s) ;;; ret None
    | Raise e => print ("Error parsing date " +:+ s +:+ ": ") ;;; ret None
    end.

(** *** [display_domains] *)

Definition yes_no (b : bool) : string := if b then "Yes" else "No".

(** The first loop: attach the parsed date to every record. *)
Fixpoint attach_dates (domains : list domain) : M (list domain) :=
  match domains with
  | [] => ret []
  | d :: rest =>
      t <~ parse_date (expires d) ;;
      ds <~ attach_dates rest ;;
      ret (set_expiry_date_obj d t :: ds)
  end.

(** The keys compared by the sort are all datetimes: the list sorted
    holds the records whose date is not [None]. *)
Definition key_lt (a b : option datetime) : bool :=
  match a, b with
  | Some x, Some y => DateTime.lt x y
  | _, _ => false
  end.

Definition sort_domains (ds : list domain) : list domain :=
  let valid_dates := filter (λ d, expiry_date_obj d ≠ None) ds in
  let invalid_dates := filter (λ d, expiry_date_obj d = None) ds in
  sorted key_lt expiry_date_obj valid_dates ++ invalid_dates.

(** [(d["expiry_date_obj"] - today).days] *)
Definition days_left (today t : datetime) : Z := days (sub t today).

(** The expiry column of one row of the listing. *)
Definition expiry_text (today : datetime) (d : domain) : string :=
  let expiry_date :=
    if Str.truthy (expires d) then default EmptyString (expires d) else "N/A" in
  match expiry_date_obj d with
  | Some t =>
      let n := days_left today t in
      let days_left := "(" +:+ Str.of_int n +:+ " days left)" in
      if (0 <? n) && (n <=? 30)
      then expiry_date +:+ " " +:+ days_left +:+ " - RENEW SOON!"
      else if n <=? 0
      then expiry_date +:+ " - EXPIRED!"
      else expiry_date +:+ " " +:+ days_left
  | None => expiry_date
  end.

Definition print_row (today : datetime) (d : domain) : M unit :=
  let created_date :=
    if Str.truthy (created d) then default EmptyString (created d) else "N/A" in
  c1 <~ lift (Str.format_ljust (name d) 30) ;;
  c6 <~ lift (Str.format_ljust (whois_guard d) 15) ;;
  print (c1 +:+ " " +:+ Str.ljust (expiry_text today d) 20 +:+ " " +:+
         Str.ljust created_date 20 +:+ " " +:+
         Str.ljust (yes_no (auto_renew d)) 12 +:+ " " +:+
         Str.ljust (yes_no (is_locked d)) 10 +:+ " " +:+ c6).

Definition is_upcoming (today : datetime) (d : domain) : bool :=
  match expiry_date_obj d with
  | Some t => (0 <? days_left today t) && (days_left today t <=? 90)
  | None => false
  end.

(** [None - today] is a [TypeError]. *)
Definition print_upcoming_row (today : datetime) (d : domain) : M unit :=
  n <~ lift (match expiry_date_obj d with
             | Some t => Ok (days_left today t)
             | None => Raise TypeError
             end) ;;
  c1 <~ lift (Str.format_ljust (name d) 30) ;;
  c2 <~ lift (Str.format_ljust (expires d) 20) ;;
  print (c1 +:+ " " +:+ c2 +:+ " " +:+ Str.ljust (Str.of_int n) 10 +:+ " " +:+
         yes_no (auto_renew d)).

Definition upcoming (today : datetime) (sorted_domains : list domain)
  : list domain :=
  filter (λ d, is_upcoming today d = true) sorted_domains.

Definition upcoming_renewals (today : datetime) (sorted_domains : list domain)
  : M unit :=
  print (nl +:+ "--- Upcoming Renewals (next 90 days) ---") ;;;
  match upcoming today sorted_domains with
  | _ :: _ =>
      print (nl +:+ Str.ljust "Domain Name" 30 +:+ " " +:+
             Str.ljust "Expiry Date" 20 +:+ " " +:+
             Str.ljust "Days Left" 10 +:+ " " +:+ "Auto Renew") ;;;
      print (Str.repeat "-" 75) ;;;
      for_each (print_upcoming_row today) (upcoming today sorted_domains)
  | [] => print "No domains expiring in the next 90 days."
  end.

Definition count (p : domain → bool) (domains : list domain) : Z :=
  Z.of_nat (length (filter (λ d, p d = true) domains)).

(** One percentage line: [f"{label}: {n} ({n/total*100:.1f}% of all
    domains)"]. *)
Definition print_share (label : string) (n total : Z) : M unit :=
  q <~ lift (truediv n total) ;;
  print_line (Float1 (label +:+ ": " +:+ Str.of_int n +:+ " (")
                     (q * 100)%Q "% of all domains)").

Definition statistics (domains : list domain) : M unit :=
  print (nl +:+ "--- Domain Statistics ---") ;;;
  let total := Z.of_nat (length domains) in
  let auto_renew := count auto_renew domains in
  let locked := count is_locked domains in
  let whois_guard_enabled :=
    count (λ d, bool_decide (whois_guard d = Some "ENABLED")) domains in
  print ("Total domains: " +:+ Str.of_int total) ;;;
  print_share "Auto-renew enabled" auto_renew total ;;;
  print_share "Locked domains" locked total ;;;
  print_share "WHOIS guard enabled" whois_guard_enabled total.

Definition month_map : gmap string Z :=
  list_to_map
    [("January", 1); ("February", 2); ("March", 3); ("April", 4);
     ("May", 5); ("June", 6); ("July", 7); ("August", 8);
     ("September", 9); ("October", 10); ("November", 11); ("December", 12)].

Definition month_year_key (month_year_str : string) : Z * Z :=
  match Str.split month_year_str with
  | [month_name; year_str] =>
      match Str.int year_str with
      | Some year => (year, default 13 (month_map !! month_name))
      | None => (9999, 13)
      end
  | _ => (9999, 13)
  end.

(** Order of the key tuples. *)
Definition pair_lt (a b : Z * Z) : bool :=
  (a.1 <? b.1) || ((a.1 =? b.1) && (a.2 <? b.2)).

(** [domains_by_month[k].append(d)] on the [defaultdict(list)], kept as
    an association list in insertion order, as the dict iterates. *)
Fixpoint group_append (k : string) (d : domain)
    (groups : list (string * list domain)) : list (string * list domain) :=
  match groups with
  | [] => [(k, [d])]
  | (k', ds) :: groups' =>
      if decide (k = k')
      then (k', ds ++ [d]) :: groups'
      else (k', ds) :: group_append k d groups'
  end.

Definition group_step {libc : Platform}
    (groups : list (string * list domain)) (d : domain)
  : list (string * list domain) :=
  match expiry_date_obj d with
  | Some t => group_append (strftime_B_Y t) d groups
  | None => groups
  end.

Definition domains_by_month {libc : Platform} (sorted_domains : list domain)
  : list (string * list domain) :=
  foldl group_step [] sorted_domains.

(** The groups in the order they are printed. *)
Definition calendar_groups {libc : Platform} (sorted_domains : list domain)
  : list (string * list domain) :=
  sorted pair_lt (λ g, month_year_key g.1) (domains_by_month sorted_domains).

Definition print_group (g : string * list domain) : M unit :=
  print (nl +:+ g.1 +:+ ":") ;;;
  for_each (λ d, print ("  - " +:+ Str.str (name d) +:+ " (Expires: " +:+
                        Str.str (expires d) +:+ ")")) g.2.

Definition calendar {libc : Platform} (sorted_domains : list domain) : M unit :=
  print (nl +:+ "--- Domain Renewal Calendar ---") ;;;
  for_each print_group (calendar_groups sorted_domains).

Definition display_domains {libc : Platform} (today : datetime)
    (domains : list domain) : M unit :=
  match domains with
  | [] =>
      print "No domains found. Please check your API credentials and parameters."
  | _ :: _ =>
      print (nl +:+ "Total domains: " +:+ Str.of_int (Z.of_nat (length domains))) ;;;
      print (nl +:+ Str.ljust "Domain Name" 30 +:+ " " +:+
             Str.ljust "Expiry Date" 20 +:+ " " +:+
             Str.ljust "Created Date" 20 +:+ " " +:+
             Str.ljust "Auto Renew" 12 +:+ " " +:+
             Str.ljust "Is Locked" 10 +:+ " " +:+
             Str.ljust "WHOIS Guard" 15) ;;;
      print (Str.repeat "-" 120) ;;;
      with_dates <~ attach_dates domains ;;
      let sorted_domains := sort_domains with_dates in
      for_each (print_row today) sorted_domains ;;;
      upcoming_renewals today sorted_domains ;;;
      statistics domains ;;;
      calendar sorted_domains
  end.

(** *** The body of the script *)

(** How the process ends: through [exit(code)] or by running to the end
    of the script (code 0), or with an exception that nothing catches. *)
Inductive outcome :=
  | Exit (code : Z)
  | Uncaught (e : exn).

(** The status the interpreter hands to the operating system: an
    uncaught exception ends the process with status 1. *)
Definition exit_status (o : outcome) : Z :=
  match o with
  | Exit code => code
  | Uncaught _ => 1
  end.

(** [not API_KEY or not API_USER or not CLIENT_IP] *)
Definition config_missing (cfg : config) : bool :=
  negb (Str.truthy (API_KEY cfg)) || negb (Str.truthy (API_USER cfg)) ||
  negb (Str.truthy (CLIENT_IP cfg)).

Section Main.
Context {libc : Platform}.
Variable fromstring : string → result ET.Element.

(** The part of the body after the test of the configuration.  [now] and
    [today] are the two readings of [datetime.now()], [response] is what
    [requests.get] returns, and [time_taken] is the text of
    [end_time - start_time] under [:.2f]: the clock is an input and the
    rendering of floats is outside the model. *)
Definition report (cfg : config) (now : datetime) (response : response)
    (time_taken : string) (today : datetime) : M unit :=
  print "Namecheap Domain Checker" ;;;
  print (Str.repeat "=" 30) ;;;
  print ("Username: " +:+ Str.str (API_USER cfg)) ;;;
  print ("Client IP: " +:+ Str.str (CLIENT_IP cfg)) ;;;
  print ("Time: " +:+ strftime_Ymd_HMS now) ;;;
  print (Str.repeat "=" 30) ;;;
  print "Fetching domains from Namecheap..." ;;;
  domains <~ get_domains fromstring cfg response ;;
  print ("Time taken: " +:+ time_taken +:+ " seconds") ;;;
  display_domains today domains.

(** [if __name__ == "__main__":] *)
Definition main (cfg : config) (now : datetime) (response : response)
    (time_taken : string) (today : datetime) (w : world) : world * outcome :=
  if config_missing cfg then
    match (print "Error: Environment variables not set." ;;;
           print "Please create a .env file with NAMECHEAP_API_KEY, NAMECHEAP_USERNAME, and CLIENT_IP")
            w with
    | (w', _) => (w', Exit 1)
    end
  else
    match report cfg now response time_taken today w with
    | (w', Ok _) => (w', Exit 0)
    | (w', Raise e) => (w', Uncaught e)
    end.
End Main.

End Checker.

(** * Vocabulary of the statements *)

(** [prints m]: the computation never raises, leaves the files alone and
    only adds lines to the console. *)
Definition prints {A} (m : M A) : Prop :=
  ∀ w, ∃ out a, m w = (World (stdout w ++ out) (files w), Ok a).

(** The line printed for one [Error] element of a failed answer. *)
Definition error_line (error : ET.Element) : line :=
  Text ("API Error " +:+ default "Unknown" (ET.attrib error !! "Number") +:+
        ": " +:+ Str.str (ET.text error)).

(** [x] does not come after [y]: the key of [y] is not smaller. *)
Definition key_le {A K} (lt : K → K → bool) (key : A → K) (x y : A) : Prop :=
  lt (key y) (key x) = false.

(** The value [parse_date] returns. *)
Definition parsed (date_str : option string) : option DateTime.datetime :=
  if Str.truthy date_str
  then match Checker.try_formats (default EmptyString date_str) Checker.formats with
       | Ok v => v
       | Raise _ => None
       end
  else None.

(** The records after the first loop of [display_domains]. *)
Definition with_dates (domains : list Checker.domain) : list Checker.domain :=
  (λ d, Checker.set_expiry_date_obj d (parsed (Checker.expires d))) <$> domains.

(** The listing [display_domains] prints for [domains]. *)
Definition listing (domains : list Checker.domain) : list Checker.domain :=
  Checker.sort_domains (with_dates domains).

(** [a] may stand before [b] in the listing: a record with a date before
    one without, and two dated records when the date of [b] is not
    earlier. *)
Definition listing_order (a b : Checker.domain) : Prop :=
  match Checker.expiry_date_obj a, Checker.expiry_date_obj b with
  | Some ta, Some tb => DateTime.lt tb ta = false
  | Some _, None => True
  | None, Some _ => False
  | None, None => True
  end.

(** The label of the calendar group a record joins, if any. *)
Definition group_label {libc : DateTime.Platform} (d : Checker.domain) : option string :=
  DateTime.strftime_B_Y <$> Checker.expiry_date_obj d.

(** No character of [s] is white space. *)
Fixpoint nospace (s : string) : bool :=
  match s with
  | EmptyString => true
  | String c s' => negb (Str.is_space c) && nospace s'
  end.

(** The members of the group labelled [k] among the records [l], and
    what it means for an association list to hold exactly the non-empty
    groups of [l]. *)
Definition members {libc : DateTime.Platform} (k : string) (l : list Checker.domain) : list Checker.domain :=
  filter (λ d, group_label d = Some k) l.

Definition groups_of {libc : DateTime.Platform} (l : list Checker.domain)
    (groups : list (string * list Checker.domain)) : Prop :=
  NoDup groups.*1 ∧
  Forall (λ g, g.2 ≠ [] ∧ g.2 = members g.1 l) groups ∧
  ∀ d k, d ∈ l → group_label d = Some k → k ∈ groups.*1.

(** ** The four accepted ways of writing a date *)

(** [txt] writes the number [v] with one or with two digits. *)
Definition digits12 (v : Z) (txt : string) : Prop :=
  (0 ≤ v ≤ 9 ∧ txt = Str.numeral [v]) ∨
  (0 ≤ v ≤ 99 ∧ txt = Str.numeral [v / 10; v mod 10]).

(** A day may also be written as a space and one digit. *)
Definition day_text (v : Z) (txt : string) : Prop :=
  digits12 v txt ∨ (1 ≤ v ≤ 9 ∧ txt = String " " (Str.numeral [v])).

(** The year a two-digit year stands for. *)
Definition two_digit_year (yy : Z) : Z :=
  if yy <=? 68 then yy + 2000 else yy + 1900.

Definition midnight (t : DateTime.datetime) : Prop :=
  DateTime.hour t = 0 ∧ DateTime.minute t = 0 ∧ DateTime.second t = 0 ∧
  DateTime.microsecond t = 0.

Inductive shape :=
  | MDY4
  | MDY2
  | ISO_datetime
  | ISO_date.

(** The format of each shape; [Checker.formats] lists them in this
    order. *)
Definition shape_format (sh : shape) : string :=
  match sh with
  | MDY4 => "%m/%d/%Y"
  | MDY2 => "%m/%d/%y"
  | ISO_datetime => "%Y-%m-%dT%H:%M:%S"
  | ISO_date => "%Y-%m-%d"
  end.

Definition shapes : list shape := [MDY4; MDY2; ISO_datetime; ISO_date].

(** [written sh s t]: the text [s] writes the datetime [t] in the shape
    [sh].  The letter between date and time is matched without regard to
    case. *)
Definition written (sh : shape) (s : string) (t : DateTime.datetime) : Prop :=
  match sh with
  | MDY4 =>
      ∃ ms ds,
        digits12 (DateTime.month t) ms ∧ day_text (DateTime.day t) ds ∧
        0 ≤ DateTime.year t ≤ 9999 ∧ midnight t ∧
        s = ms +:+ "/" +:+ ds +:+ "/" +:+ DateTime.year4 (DateTime.year t)
  | MDY2 =>
      ∃ ms ds yy,
        digits12 (DateTime.month t) ms ∧ day_text (DateTime.day t) ds ∧
        0 ≤ yy ≤ 99 ∧ DateTime.year t = two_digit_year yy ∧ midnight t ∧
        s = ms +:+ "/" +:+ ds +:+ "/" +:+ Str.numeral [yy / 10; yy mod 10]
  | ISO_datetime =>
      ∃ ms ds hs mis ss sep,
        digits12 (DateTime.month t) ms ∧ day_text (DateTime.day t) ds ∧
        digits12 (DateTime.hour t) hs ∧ digits12 (DateTime.minute t) mis ∧
        digits12 (DateTime.second t) ss ∧
        0 ≤ DateTime.year t ≤ 9999 ∧ DateTime.microsecond t = 0 ∧
        (sep = "T" ∨ sep = "t")%char ∧
        s = DateTime.year4 (DateTime.year t) +:+ "-" +:+ ms +:+ "-" +:+ ds +:+
            String sep (hs +:+ ":" +:+ mis +:+ ":" +:+ ss)
  | ISO_date =>
      ∃ ms ds,
        digits12 (DateTime.month t) ms ∧ day_text (DateTime.day t) ds ∧
        0 ≤ DateTime.year t ≤ 9999 ∧ midnight t ∧
        s = DateTime.year4 (DateTime.year t) +:+ "-" +:+ ms +:+ "-" +:+ ds
  end.

(** [s] writes some calendar date in the shape [sh]. *)
Definition accepted (sh : shape) (s : string) : Prop :=
  ∃ t, written sh s t ∧ DateTime.valid t.

(** [field_text n v txt]: the text [txt] is one the directive [%n]
    matches, and it stands for the number [v]. *)
Definition field_text (n : ascii) (v : Z) (txt : string) : Prop :=
  if decide (n = "m"%char) then digits12 v txt ∧ 1 ≤ v ≤ 12
  else if decide (n = "d"%char) then day_text v txt ∧ 1 ≤ v ≤ 31
  else if decide (n = "H"%char) then digits12 v txt ∧ 0 ≤ v ≤ 23
  else if decide (n = "M"%char) then digits12 v txt ∧ 0 ≤ v ≤ 59
  else if decide (n = "S"%char) then digits12 v txt ∧ 0 ≤ v ≤ 61
  else if decide (n = "y"%char)
       then 0 ≤ v ≤ 99 ∧ txt = Str.numeral [v / 10; v mod 10]
  else if decide (n = "Y"%char) then 0 ≤ v ≤ 9999 ∧ txt = DateTime.year4 v
  else False.

(** The code of a character, and the digits a class matches when it
    matches digits only. *)
Definition code (c : ascii) : Z := Z.of_N (N_of_ascii c).

Definition digit_bounds (k : Strptime.cls) : option (Z * Z) :=
  match k with
  | Strptime.Digit => Some (0, 9)
  | Strptime.Range lo hi =>
      if (48 <=? code lo) && (code hi <=? 57)
      then Some (code lo - 48, code hi - 48) else None
  | Strptime.Chr x =>
      if (48 <=? code x) && (code x <=? 57)
      then Some (code x - 48, code x - 48) else None
  end.

(** What may follow the text of a directive in a plain pattern. *)
Definition rest_ok (rest : string) : Prop :=
  rest = EmptyString ∨
  ∃ c r, rest = String c r ∧ c ∈ ["/"; "-"; ":"; "T"; "t"]%char.

(** [spells p s groups]: the whole of [s] is the items of [p] written
    one after the other, [groups] being the texts of the directives. *)
Fixpoint spells (p : list Strptime.item) (s : string)
    (groups : list (ascii * string)) : Prop :=
  match p with
  | [] => s = EmptyString ∧ groups = []
  | Strptime.Lit c :: p' =>
      ∃ c' s', s = String c' s' ∧ Strptime.lower c = Strptime.lower c' ∧
               spells p' s' groups
  | Strptime.Spaces :: _ => False
  | Strptime.Group n _ :: p' =>
      ∃ v txt rest groups',
        s = txt +:+ rest ∧ field_text n v txt ∧
        spells p' rest groups' ∧ groups = (n, txt) :: groups'
  end.

(** The patterns this development reasons about: every group is a
    directive of the table and is followed by the end or by one of the
    separators [/], [-], [:] and [T]. *)
Definition separator (c : ascii) : bool :=
  bool_decide (c ∈ ["/"; "-"; ":"; "T"]%char).

Fixpoint plain (p : list Strptime.item) : bool :=
  match p with
  | [] => true
  | Strptime.Lit c :: p' => separator c && plain p'
  | Strptime.Spaces :: _ => false
  | Strptime.Group n alts :: p' =>
      bool_decide (Strptime.directive n = Some alts) &&
      match p' with
      | [] => true
      | Strptime.Lit _ :: _ => plain p'
      | _ => false
      end
  end.

(** [displays today domains l]: after the header and the warnings,
    [display_domains] goes on with the four views of the list [l]. *)
Definition displays {libc : DateTime.Platform} (today : DateTime.datetime) (domains l : list Checker.domain)
    : Prop :=
  ∀ w, ∃ out,
    Checker.display_domains today domains w =
    (for_each (Checker.print_row today) l ;;;
     Checker.upcoming_renewals today l ;;;
     Checker.statistics domains ;;;
     Checker.calendar l)
    (World (stdout w ++ out) (files w)).

(** [raises_only P m]: an exception that leaves [m] satisfies [P]. *)
Definition raises_only {A} (P : exn → Prop) (m : M A) : Prop :=
  ∀ w w' e, m w = (w', Raise e) → P e.

(** ** Sample inputs *)

Module Sample.
Import Checker.

Definition w0 : world := World [] ∅.

(** An interpreter on glibc: [%Y] is not padded. *)
Definition glibc : DateTime.Platform := {| DateTime.pads_year := false |}.

Definition cfg : config :=
  Config (Some "0123456789abcdef") (Some "alice") (Some "203.0.113.7").

Definition not_found : response := Response 404 "Not Found".

Definition answer : response := Response 200 "<ApiResponse/>".

(** An answer refused by the API. *)
Definition refused : ET.Element :=
  ET.Elem (nc "ApiResponse") {["Status" := "ERROR"]} None
    [ET.Elem (nc "Errors") ∅ None
       [ET.Elem (nc "Error") {["Number" := "1011102"]}
                (Some "API Key is invalid or API access has not been enabled") []];
     ET.Elem (nc "RequestedCommand") ∅ None []].

(** An answer listing two domains. *)
Definition listing : ET.Element :=
  ET.Elem (nc "ApiResponse") {["Status" := "OK"]} None
    [ET.Elem (nc "Errors") ∅ None [];
     ET.Elem (nc "CommandResponse") {["Type" := "namecheap.domains.getList"]} None
       [ET.Elem (nc "DomainGetListResult") ∅ None
          [ET.Elem (nc "Domain")
             (<["ID" := "127"]> (<["Name" := "example.com"]>
              (<["Expires" := "11/19/2026"]> (<["AutoRenew" := "true"]>
              (<["IsLocked" := "True"]> {["WhoisGuard" := "ENABLED"]})))))
             None [];
           ET.Elem (nc "Domain")
             (<["ID" := "381"]> (<["Name" := "example.org"]>
              (<["Expires" := "2027-01-05"]> {["IsExpired" := "false"]})))
             None []];
        ET.Elem (nc "Paging") ∅ None
          [ET.Elem (nc "TotalItems") ∅ (Some "2") []]]].

(** The report time used in the examples. *)
Definition today : DateTime.datetime := DateTime.Datetime 2026 11 4 10 30 0 250000.

(** The records of [listing]. *)
Definition portfolio : list domain :=
  domain_info <$> ET.findall listing domains_path.

Definition example_com : domain :=
  Domain (Some "127") (Some "example.com") None None (Some "11/19/2026")
         false false true (Some "ENABLED") false false None.

Definition example_org : domain :=
  Domain (Some "381") (Some "example.org") None None (Some "2027-01-05")
         false false false None false false None.

(** The same records with their parsed dates. *)
Definition example_com_dated : domain :=
  set_expiry_date_obj example_com (Some (DateTime.Datetime 2026 11 19 0 0 0 0)).

Definition example_org_dated : domain :=
  set_expiry_date_obj example_org (Some (DateTime.Datetime 2027 1 5 0 0 0 0)).

Definition record (name expires : string) : domain :=
  Domain None (Some name) None None (Some expires)
         false false false (Some "ENABLED") false false None.

(** Records out of order, two of them with the same date written in two
    formats, one with a date that does not parse. *)
Definition mixed : list domain :=
  [record "b.example" "01/05/2027"; record "junk.example" "soon";
   record "a.example" "11/19/2026"; record "c.example" "2027-01-05"].

(** One domain about to expire and one expired long ago. *)
Definition two_domains : list domain :=
  [record "a.example" "11/19/2026"; record "b.example" "09/30/2025"].

End Sample.


(** * Vocabulary of the further properties *)

(** [frame m]: [m] leaves the files as they are, also when it raises. *)
Definition frame {A} (m : M A) : Prop := ∀ w, files (m w).1 = files w.

(** A record that the listing can print: it has a name and a WHOIS
    guard value. *)
Definition printable (d : Checker.domain) : Prop :=
  Checker.name d ≠ None ∧ Checker.whois_guard d ≠ None.

(** The instant of a datetime, in microseconds since the start of day 0
    of the proleptic calendar, and the length of a day. *)
Definition micros (t : DateTime.datetime) : Z :=
  (DateTime.toordinal t * 86400 +
   (DateTime.second t + DateTime.minute t * 60 + DateTime.hour t * 3600))
  * 1000000 + DateTime.microsecond t.

Definition day_us : Z := 86400000000.


(** A setting that [os.getenv] did not find, or found empty. *)
Definition unset (v : option string) : Prop := v = None ∨ v = Some "".

(** The seven lines that open a run with all settings present. *)
Definition banner {libc : DateTime.Platform} (cfg : Checker.config) (now : DateTime.datetime) : list line :=
  [Text "Namecheap Domain Checker";
   Text (Str.repeat "=" 30);
   Text ("Username: " +:+ Str.str (Checker.API_USER cfg));
   Text ("Client IP: " +:+ Str.str (Checker.CLIENT_IP cfg));
   Text ("Time: " +:+ DateTime.strftime_Ymd_HMS now);
   Text (Str.repeat "=" 30);
   Text "Fetching domains from Namecheap..."].

(** The line [display_domains] prints for an empty list. *)
Definition no_domains_line : line :=
  Text "No domains found. Please check your API credentials and parameters.".

(** An element with the two attributes the listing needs. *)
Definition named_and_guarded (e : ET.Element) : Prop :=
  ET.attrib e !! "Name" ≠ None ∧ ET.attrib e !! "WhoisGuard" ≠ None.

(** The raw expiry date as the listing shows it. *)
Definition shown_date (d : Checker.domain) : string :=
  if Str.truthy (Checker.expires d)
  then default EmptyString (Checker.expires d) else "N/A".

(** The warning [parse_date] prints for a value: one line when the value
    is a non-empty text that no format parses. *)
Definition warning (date_str : option string) : list line :=
  if Str.truthy date_str && bool_decide (parsed date_str = None)
  then [Text ("Warning: Unable to parse date: " +:+ default "" date_str)]
  else [].

(** The three lines above the rows of the listing. *)
Definition table_header (domains : list Checker.domain) : list line :=
  [Text (Checker.nl +:+ "Total domains: " +:+
         Str.of_int (Z.of_nat (length domains)));
   Text (Checker.nl +:+ Str.ljust "Domain Name" 30 +:+ " " +:+
         Str.ljust "Expiry Date" 20 +:+ " " +:+
         Str.ljust "Created Date" 20 +:+ " " +:+
         Str.ljust "Auto Renew" 12 +:+ " " +:+
         Str.ljust "Is Locked" 10 +:+ " " +:+
         Str.ljust "WHOIS Guard" 15);
   Text (Str.repeat "-" 120)].

(** The percentage of the records that satisfy [p], as the statistics
    view computes it. *)
Definition share (p : Checker.domain → bool) (domains : list Checker.domain) : Q :=
  (inject_Z (Checker.count p domains) /
   inject_Z (Z.of_nat (length domains)) * 100)%Q.

(** One line of the statistics view. *)
Definition share_line (label : string) (p : Checker.domain → bool)
    (domains : list Checker.domain) : line :=
  Float1 (label +:+ ": " +:+ Str.of_int (Checker.count p domains) +:+ " (")
         (share p domains) "% of all domains)".

(** [b] does not expire before [a], in elapsed time and so in days left
    at the report time; records without a date are not compared. *)
Definition not_earlier (today : DateTime.datetime) (a b : Checker.domain) : Prop :=
  ∀ ta tb,
    Checker.expiry_date_obj a = Some ta → Checker.expiry_date_obj b = Some tb →
    micros ta ≤ micros tb ∧
    Checker.days_left today ta ≤ Checker.days_left today tb.

(** ** Telling the four shapes apart *)

(** The outline of a text: every decimal digit replaced by [d]. *)
Fixpoint skeleton (s : string) : string :=
  match s with
  | EmptyString => EmptyString
  | String c s' =>
      String (match Str.digit_val c with Some _ => "d" | None => c end)%char
             (skeleton s')
  end.

(** The number of characters after the last [/], the number of [/], and
    whether a [T] or [t] occurs. *)
Fixpoint tail_length (k : string) (n : nat) : nat :=
  match k with
  | EmptyString => n
  | String c k' => if decide (c = "/"%char) then tail_length k' 0
                   else tail_length k' (S n)
  end.

Fixpoint slashes (k : string) : nat :=
  match k with
  | EmptyString => 0
  | String c k' => (if decide (c = "/"%char) then 1 else 0) + slashes k'
  end.

Fixpoint has_T (k : string) : bool :=
  match k with
  | EmptyString => false
  | String c k' => bool_decide (c = "T"%char ∨ c = "t"%char) || has_T k'
  end.

(** The one shape an outline can belong to. *)
Definition classify (k : string) : shape :=
  if decide (slashes k = 2%nat)
  then if decide (tail_length k 0 = 4%nat) then MDY4 else MDY2
  else if has_T k then ISO_datetime else ISO_date.

(** ** Writing a date in a shape *)

(** The date [t] written in the shape [sh] with every field at its full
    width: two digits, and four for the year. *)
Definition render (sh : shape) (t : DateTime.datetime) : string :=
  let two := DateTime.two_digits in
  match sh with
  | MDY4 =>
      two (DateTime.month t) +:+ "/" +:+ two (DateTime.day t) +:+ "/" +:+
      DateTime.year4 (DateTime.year t)
  | MDY2 =>
      two (DateTime.month t) +:+ "/" +:+ two (DateTime.day t) +:+ "/" +:+
      two (DateTime.year t `mod` 100)
  | ISO_datetime =>
      DateTime.year4 (DateTime.year t) +:+ "-" +:+ two (DateTime.month t) +:+
      "-" +:+ two (DateTime.day t) +:+
      String "T" (two (DateTime.hour t) +:+ ":" +:+ two (DateTime.minute t) +:+
                  ":" +:+ two (DateTime.second t))
  | ISO_date =>
      DateTime.year4 (DateTime.year t) +:+ "-" +:+ two (DateTime.month t) +:+
      "-" +:+ two (DateTime.day t)
  end.

(** What a shape can express: no shape has microseconds, only the ISO
    datetime has a time of day, and a two-digit year stands for a year
    from 1969 to 2068. *)
Definition expressible (sh : shape) (t : DateTime.datetime) : Prop :=
  DateTime.microsecond t = 0 ∧
  (sh ≠ ISO_datetime → midnight t) ∧
  (sh = MDY2 → 1969 ≤ DateTime.year t ≤ 2068).

(** ** The lines of the report *)

(** The row of the listing for a record. *)
Definition row_line (today : DateTime.datetime) (d : Checker.domain) : line :=
  Text (Str.ljust (Str.str (Checker.name d)) 30 +:+ " " +:+
        Str.ljust (Checker.expiry_text today d) 20 +:+ " " +:+
        Str.ljust (if Str.truthy (Checker.created d)
                   then default EmptyString (Checker.created d)
                   else "N/A") 20 +:+ " " +:+
        Str.ljust (Checker.yes_no (Checker.auto_renew d)) 12 +:+ " " +:+
        Str.ljust (Checker.yes_no (Checker.is_locked d)) 10 +:+ " " +:+
        Str.ljust (Str.str (Checker.whois_guard d)) 15).

(** The row of the upcoming renewals for a record dated [t]. *)
Definition upcoming_line (today : DateTime.datetime) (d : Checker.domain) : line :=
  Text (Str.ljust (Str.str (Checker.name d)) 30 +:+ " " +:+
        Str.ljust (Str.str (Checker.expires d)) 20 +:+ " " +:+
        Str.ljust (Str.of_int (from_option (Checker.days_left today) 0
                                 (Checker.expiry_date_obj d))) 10 +:+ " " +:+
        Checker.yes_no (Checker.auto_renew d)).

Definition upcoming_lines (today : DateTime.datetime) (l : list Checker.domain)
    : list line :=
  Text (Checker.nl +:+ "--- Upcoming Renewals (next 90 days) ---") ::
  match Checker.upcoming today l with
  | [] => [Text "No domains expiring in the next 90 days."]
  | up =>
      Text (Checker.nl +:+ Str.ljust "Domain Name" 30 +:+ " " +:+
            Str.ljust "Expiry Date" 20 +:+ " " +:+
            Str.ljust "Days Left" 10 +:+ " " +:+ "Auto Renew") ::
      Text (Str.repeat "-" 75) :: (upcoming_line today <$> up)
  end.

Definition statistics_lines (domains : list Checker.domain) : list line :=
  [Text (Checker.nl +:+ "--- Domain Statistics ---");
   Text ("Total domains: " +:+ Str.of_int (Z.of_nat (length domains)));
   share_line "Auto-renew enabled" Checker.auto_renew domains;
   share_line "Locked domains" Checker.is_locked domains;
   share_line "WHOIS guard enabled"
     (λ d, bool_decide (Checker.whois_guard d = Some "ENABLED")) domains].

(** The line of the calendar for a record. *)
Definition entry_line (d : Checker.domain) : line :=
  Text ("  - " +:+ Str.str (Checker.name d) +:+ " (Expires: " +:+
        Str.str (Checker.expires d) +:+ ")").

Definition calendar_lines {libc : DateTime.Platform} (l : list Checker.domain) : list line :=
  Text (Checker.nl +:+ "--- Domain Renewal Calendar ---") ::
  (Checker.calendar_groups l ≫= λ g,
     Text (Checker.nl +:+ g.1 +:+ ":") :: (entry_line <$> g.2)).

(** The number of lines of the upcoming renewals with [k] rows. *)
Definition upcoming_height (k : nat) : nat :=
  match k with
  | O => 2
  | S _ => 3 + k
  end.

(** [outputs m out a]: [m] prints the lines [out], touches no file and
    returns [a]. *)
Definition outputs {A} (m : M A) (out : list line) (a : A) : Prop :=
  ∀ w, m w = (World (stdout w ++ out) (files w), Ok a).

(** The warnings of the first loop, in the order of the input. *)
Definition warnings (domains : list Checker.domain) : list line :=
  domains ≫= λ d, warning (Checker.expires d).

(** The key of the calendar group of a record: that of its label, and
    of the empty label for a record without a date. *)
Definition group_key {libc : DateTime.Platform} (d : Checker.domain) : Z * Z :=
  Checker.month_year_key (default EmptyString (group_label d)).

(** ** The fields the report reads *)

(** The six fields of a record that [display_domains] reads. *)
Definition shown_fields (d : Checker.domain)
    : option string * option string * option string * bool * bool *
      option string :=
  (Checker.name d, Checker.created d, Checker.expires d,
   Checker.is_locked d, Checker.auto_renew d, Checker.whois_guard d).

(** A record with the other fields blanked; the attached date is kept. *)
Definition forget (d : Checker.domain) : Checker.domain :=
  Checker.Domain None (Checker.name d) None (Checker.created d)
    (Checker.expires d) false (Checker.is_locked d) (Checker.auto_renew d)
    (Checker.whois_guard d) false false (Checker.expiry_date_obj d).

(** The same, on the records of a calendar group. *)
Definition forget_group (g : string * list Checker.domain)
    : string * list Checker.domain :=
  (g.1, forget <$> g.2).
(** * Properties *)

(** ** The monad *)

Lemma bind_ok {A B} (m : M A) (k : A → M B) w w' a :
  m w = (w', Ok a) → bind m k w = k a w'.
Proof. unfold bind. by intros ->. Qed.

Lemma bind_raise {A B} (m : M A) (k : A → M B) w w' e :
  m w = (w', Raise e) → bind m k w = (w', Raise e).
Proof. unfold bind. by intros ->. Qed.

Lemma bind_inv_ok {A B} (m : M A) (k : A → M B) w w2 b :
  bind m k w = (w2, Ok b) → ∃ w1 a, m w = (w1, Ok a) ∧ k a w1 = (w2, Ok b).
Proof.
  unfold bind. destruct (m w) as [w1 [a|e]]; [|done]. intros H. by exists w1, a.
Qed.

Lemma bind_inv_raise {A B} (m : M A) (k : A → M B) w w2 e :
  bind m k w = (w2, Raise e) →
  m w = (w2, Raise e) ∨ ∃ w1 a, m w = (w1, Ok a) ∧ k a w1 = (w2, Raise e).
Proof.
  unfold bind. destruct (m w) as [w1 [a|e']]. 2: { intros [= -> ->]. by left. } intros H.
  right. by exists w1, a.
Qed.

Lemma prints_ret {A} (a : A) : prints (ret a).
Proof. intros [o f]. exists [], a. unfold ret. simpl. by rewrite app_nil_r. Qed.

Lemma prints_print s : prints (print s).
Proof. intros w. exists [Text s], tt. reflexivity. Qed.

Lemma prints_bind {A B} (m : M A) (k : A → M B) :
  prints m → (∀ a, prints (k a)) → prints (bind m k).
Proof.
  intros Hm Hk w. destruct (Hm w) as (o1 & a & E1).
  destruct (Hk a (World (stdout w ++ o1) (files w))) as (o2 & b & E2).
  exists (o1 ++ o2), b. rewrite (bind_ok _ _ _ _ _ E1), E2. simpl.
  by rewrite app_assoc.
Qed.

Lemma prints_for_each {A} (body : A → M unit) l :
  (∀ x, prints (body x)) → prints (for_each body l).
Proof.
  intros Hb. induction l as [|x l IH]; simpl.
  - apply prints_ret.
  - apply prints_bind; [apply Hb | by intros _].
Qed.

(** What [for_each] prints when every round prints one known line. *)
Lemma for_each_print {A} (f : A → string) l w :
  for_each (λ x, print (f x)) l w =
  (World (stdout w ++ (Text ∘ f <$> l)) (files w), Ok tt).
Proof.
  revert w. induction l as [|x l IH]; intros [o fs]; simpl.
  - unfold ret. simpl. by rewrite app_nil_r.
  - unfold bind, print at 1. simpl. rewrite IH. simpl.
    by rewrite <- app_assoc.
Qed.

Lemma prints_run {A B} (m : M A) (k : A → M B) w :
  prints m → ∃ out a, bind m k w = k a (World (stdout w ++ out) (files w)).
Proof.
  intros Hm. destruct (Hm w) as (out & a & E). exists out, a.
  by rewrite (bind_ok _ _ _ _ _ E).
Qed.

Lemma prints_print_param p : prints (Checker.print_param p).
Proof. unfold Checker.print_param. case_decide; apply prints_print. Qed.

(** ** [get_domains] *)

Section GetDomainsFacts.
Import Checker.
Variable fromstring : string → result ET.Element.

(** Up to the status test the function only prints. *)
Lemma get_domains_start cfg r w :
  ∃ out, get_domains fromstring cfg r w =
    (if decide (status_code r ≠ 200) then
       print ("Error: " +:+ Str.of_int (status_code r)) ;;;
       print (text r) ;;;
       ret []
     else
       write_file "api_response.xml" (text r) ;;;
       print "Response saved to api_response.xml for debugging" ;;;
       root <~ lift (fromstring (text r)) ;;
       if decide (ET.attrib root !! "Status" ≠ Some "OK") then
         for_each print_error (ET.findall root errors_path) ;;;
         ret []
       else
         print ("Found " +:+
                Str.of_int (Z.of_nat (length (ET.findall root domains_path))) +:+
                " domains in response") ;;;
         print_paging root ;;;
         ret (domain_info <$> ET.findall root domains_path))
    (World (stdout w ++ out) (files w)).
Proof.
  unfold get_domains.
  destruct (prints_run (print "Making API request with parameters:")
    (λ _, for_each print_param (params cfg) ;;;
          print (nl +:+ "API Response Status Code: " +:+
                 Str.of_int (status_code r)) ;;;
          if decide (status_code r ≠ 200) then
            print ("Error: " +:+ Str.of_int (status_code r)) ;;;
            print (text r) ;;; ret []
          else
            write_file "api_response.xml" (text r) ;;;
            print "Response saved to api_response.xml for debugging" ;;;
            root <~ lift (fromstring (text r)) ;;
            if decide (ET.attrib root !! "Status" ≠ Some "OK") then
              for_each print_error (ET.findall root errors_path) ;;; ret []
            else
              print ("Found " +:+
                     Str.of_int (Z.of_nat (length (ET.findall root domains_path))) +:+
                     " domains in response") ;;;
              print_paging root ;;;
              ret (domain_info <$> ET.findall root domains_path)) w
    (prints_print _)) as (o1 & [] & ->).
  match goal with |- context [bind ?m ?k ?w'] =>
    destruct (prints_run m k w'
      (prints_for_each _ _ prints_print_param)) as (o2 & [] & ->) end.
  match goal with |- context [bind ?m ?k ?w'] =>
    destruct (prints_run m k w' (prints_print _)) as (o3 & [] & ->) end.
  simpl. exists (o1 ++ o2 ++ o3). by rewrite !app_assoc.
Qed.

Lemma get_domains_not_200 cfg r w :
  status_code r ≠ 200 →
  ∃ out, get_domains fromstring cfg r w =
         (World (stdout w ++ out) (files w), Ok []).
Proof.
  intros Hs. destruct (get_domains_start cfg r w) as (out & ->).
  rewrite decide_True by done.
  exists (out ++ [Text ("Error: " +:+ Str.of_int (status_code r)); Text (text r)]).
  unfold bind, print, ret. simpl. by rewrite <- !app_assoc.
Qed.

Lemma get_domains_200 cfg r w :
  status_code r = 200 →
  ∃ out, get_domains fromstring cfg r w =
    (root <~ lift (fromstring (text r)) ;;
     if decide (ET.attrib root !! "Status" ≠ Some "OK") then
       for_each print_error (ET.findall root errors_path) ;;;
       ret []
     else
       print ("Found " +:+
              Str.of_int (Z.of_nat (length (ET.findall root domains_path))) +:+
              " domains in response") ;;;
       print_paging root ;;;
       ret (domain_info <$> ET.findall root domains_path))
    (World (stdout w ++ out)
           (<["api_response.xml" := text r]> (files w))).
Proof.
  intros Hs. destruct (get_domains_start cfg r w) as (out & ->).
  rewrite decide_False by (intros ?; done).
  exists (out ++ [Text "Response saved to api_response.xml for debugging"]).
  unfold bind at 1 2, write_file, print. simpl. by rewrite <- !app_assoc.
Qed.

Lemma prints_print_paging root : prints (print_paging root).
Proof.
  unfold print_paging. destruct (ET.find root paging_path).
  - apply prints_print.
  - apply prints_ret.
Qed.

Lemma for_each_print_error l w :
  for_each print_error l w =
  (World (stdout w ++ (error_line <$> l)) (files w), Ok tt).
Proof.
  exact (for_each_print
    (λ error, "API Error " +:+ default "Unknown" (ET.attrib error !! "Number") +:+
              ": " +:+ Str.str (ET.text error)) l w).
Qed.

(** Once the status is 200 nothing touches the files any more. *)
Lemma get_domains_files cfg r w :
  files (get_domains fromstring cfg r w).1 =
  if decide (status_code r = 200)
  then <["api_response.xml" := text r]> (files w)
  else files w.
Proof.
  case_decide as Hs.
  - destruct (get_domains_200 cfg r w Hs) as (out & ->).
    unfold bind at 1, lift. simpl.
    destruct (fromstring (text r)) as [root|e]; [|done].
    case_decide.
    + unfold bind. by rewrite for_each_print_error.
    + unfold bind at 1, print at 1. simpl.
      match goal with |- context [bind ?m ?k ?w'] =>
        destruct (prints_run m k w' (prints_print_paging _)) as (o & [] & ->) end.
      done.
  - destruct (get_domains_not_200 cfg r w Hs) as (out & ->). done.
Qed.

End GetDomainsFacts.

(** The elements [".//nc:Errors/nc:Error"] selects: the [Error] children
    of the [Errors] elements below the root. *)
Lemma findall_errors root e :
  e ∈ ET.findall root Checker.errors_path ↔
  ∃ p, p ∈ tail (ET.iter root) ∧ ET.tag p = Checker.nc "Errors" ∧
       e ∈ ET.children p ∧ ET.tag e = Checker.nc "Error".
Proof.
  unfold ET.findall, Checker.errors_path. simpl.
  rewrite app_nil_r, list_elem_of_bind. split.
  - intros (p & He & Hp). apply list_elem_of_filter in He as [Ht He].
    apply list_elem_of_filter in Hp as [Htp Hp]. by exists p.
  - intros (p & Hp & Htp & He & Ht). exists p.
    split; by apply list_elem_of_filter.
Qed.

(** C8. [get_domains] returns the empty list when the transport status is
    not 200, and when the status is 200 but the root element's [Status]
    attribute is not ["OK"]; in the second case the lines printed last
    are one ["API Error <number>: <text>"] line for each element that
    [".//nc:Errors/nc:Error"] selects, in document order, and these are
    the [Error] children of the [Errors] elements below the root. *)
Theorem get_domains_failure_empty fromstring cfg r w :
  (Checker.status_code r ≠ 200 →
   (Checker.get_domains fromstring cfg r w).2 = Ok []) ∧
  (∀ root,
     Checker.status_code r = 200 →
     fromstring (Checker.text r) = Ok root →
     ET.attrib root !! "Status" ≠ Some "OK" →
     ∃ before,
       Checker.get_domains fromstring cfg r w =
       (World (stdout w ++ before ++
               (error_line <$> ET.findall root Checker.errors_path))
              (<["api_response.xml" := Checker.text r]> (files w)),
        Ok []) ∧
       ∀ e, e ∈ ET.findall root Checker.errors_path ↔
            ∃ p, p ∈ tail (ET.iter root) ∧ ET.tag p = Checker.nc "Errors" ∧
                 e ∈ ET.children p ∧ ET.tag e = Checker.nc "Error").
Proof.
  split.
  - intros Hs. by destruct (get_domains_not_200 fromstring cfg r w Hs) as (out & ->).
  - intros root Hs Hroot Hstatus.
    destruct (get_domains_200 fromstring cfg r w Hs) as (out & ->).
    exists out. split; [|apply findall_errors].
    unfold bind at 1, lift. rewrite Hroot. rewrite decide_True by done.
    unfold bind. rewrite for_each_print_error. unfold ret. simpl.
    by rewrite <- app_assoc.
Qed.

(** C2 (as amended). The body of the answer is written to
    [api_response.xml] exactly when the transport status is 200, whatever
    the XML parser and the API status then say; with any other status the
    files are left as they were. *)
Theorem get_domains_saves_response_on_200 fromstring cfg r w :
  files (Checker.get_domains fromstring cfg r w).1 =
  if decide (Checker.status_code r = 200)
  then <["api_response.xml" := Checker.text r]> (files w)
  else files w.
Proof. apply get_domains_files. Qed.

(** C10. On an answer with status 200 whose root has [Status="OK"] the
    function returns one record per selected [Domain] element, and each of
    the five flags of a record is true exactly when the element carries
    the attribute with the value ["true"]. *)
Theorem domain_info_flags fromstring cfg r w root :
  Checker.status_code r = 200 →
  fromstring (Checker.text r) = Ok root →
  ET.attrib root !! "Status" = Some "OK" →
  (Checker.get_domains fromstring cfg r w).2 =
    Ok (Checker.domain_info <$> ET.findall root Checker.domains_path) ∧
  ∀ e,
    let d := Checker.domain_info e in
    (Checker.is_expired d = true ↔ ET.attrib e !! "IsExpired" = Some "true") ∧
    (Checker.is_locked d = true ↔ ET.attrib e !! "IsLocked" = Some "true") ∧
    (Checker.auto_renew d = true ↔ ET.attrib e !! "AutoRenew" = Some "true") ∧
    (Checker.is_premium d = true ↔ ET.attrib e !! "IsPremium" = Some "true") ∧
    (Checker.is_our_dns d = true ↔ ET.attrib e !! "IsOurDNS" = Some "true").
Proof.
  intros Hs Hroot Hstatus. split.
  - destruct (get_domains_200 fromstring cfg r w Hs) as (out & ->).
    unfold bind at 1, lift. rewrite Hroot.
    rewrite decide_False by (intros ?; done).
    unfold bind at 1, print at 1. simpl.
    match goal with |- context [bind ?m ?k ?w'] =>
      destruct (prints_run m k w' (prints_print_paging _)) as (o & [] & ->) end.
    done.
  - intros e. simpl. rewrite !bool_decide_eq_true. done.
Qed.

Lemma get_domains_failure_empty_witness :
  (Checker.get_domains (λ _, Raise ParseError) Sample.cfg Sample.not_found
     Sample.w0).2 = Ok [] ∧
  ∃ before,
    Checker.get_domains (λ _, Ok Sample.refused) Sample.cfg Sample.answer
      Sample.w0 =
    (World (stdout Sample.w0 ++ before ++
            (error_line <$> ET.findall Sample.refused Checker.errors_path))
           (<["api_response.xml" := Checker.text Sample.answer]>
              (files Sample.w0)),
     Ok []) ∧
    ∀ e, e ∈ ET.findall Sample.refused Checker.errors_path ↔
         ∃ p, p ∈ tail (ET.iter Sample.refused) ∧
              ET.tag p = Checker.nc "Errors" ∧
              e ∈ ET.children p ∧ ET.tag e = Checker.nc "Error".
Proof.
  split.
  - apply (proj1 (get_domains_failure_empty (λ _, Raise ParseError)
                    Sample.cfg Sample.not_found Sample.w0)).
    vm_compute. discriminate.
  - apply (proj2 (get_domains_failure_empty (λ _, Ok Sample.refused)
                    Sample.cfg Sample.answer Sample.w0) Sample.refused).
    + reflexivity.
    + reflexivity.
    + vm_compute. discriminate.
Defined.

(** C2 as stated fails: with status 404 nothing is written. *)
Lemma get_domains_404_writes_nothing :
  files (Checker.get_domains (λ _, Raise ParseError) Sample.cfg
           Sample.not_found Sample.w0).1 !! "api_response.xml"
  ≠ Some (Checker.text Sample.not_found).
Proof. vm_compute. discriminate. Qed.

Lemma domain_info_flags_witness :
  Checker.status_code Sample.answer = 200 ∧
  ET.attrib Sample.listing !! "Status" = Some "OK" ∧
  (Checker.get_domains (λ _, Ok Sample.listing) Sample.cfg Sample.answer
     Sample.w0).2 =
    Ok (Checker.domain_info <$> ET.findall Sample.listing Checker.domains_path) ∧
  ∀ e,
    let d := Checker.domain_info e in
    (Checker.is_expired d = true ↔ ET.attrib e !! "IsExpired" = Some "true") ∧
    (Checker.is_locked d = true ↔ ET.attrib e !! "IsLocked" = Some "true") ∧
    (Checker.auto_renew d = true ↔ ET.attrib e !! "AutoRenew" = Some "true") ∧
    (Checker.is_premium d = true ↔ ET.attrib e !! "IsPremium" = Some "true") ∧
    (Checker.is_our_dns d = true ↔ ET.attrib e !! "IsOurDNS" = Some "true").
Proof.
  split; [reflexivity|]. split; [reflexivity|].
  apply (domain_info_flags (λ _, Ok Sample.listing) Sample.cfg Sample.answer
           Sample.w0 Sample.listing); reflexivity.
Defined.

(** ** Sorting *)

Section SortedFacts.
Context {A K : Type} (lt : K → K → bool) (key : A → K).

Lemma insert_Permutation x l : insert lt key x l ≡ₚ x :: l.
Proof.
  induction l as [|y l IH]; simpl; [done|].
  destruct (lt (key y) (key x)); [|done].
  rewrite IH. apply Permutation_swap.
Qed.

Lemma sorted_Permutation l : sorted lt key l ≡ₚ l.
Proof.
  induction l as [|x l IH]; simpl; [done|].
  by rewrite insert_Permutation, IH.
Qed.

Section Stable.
Context `{EqDecision K}.
Hypothesis lt_irrefl : ∀ k, lt k k = false.

(** Inserting [x] only jumps over elements with another key. *)
Lemma insert_stable v x l :
  filter (λ y, key y = v) (insert lt key x l) = filter (λ y, key y = v) (x :: l).
Proof.
  induction l as [|y l IH]; simpl; [done|].
  destruct (lt (key y) (key x)) eqn:Hlt; [|done].
  rewrite (filter_cons _ y), IH, !filter_cons.
  destruct (decide (key y = v)) as [Hy|Hy], (decide (key x = v)) as [Hx|Hx];
    try done.
  rewrite Hy, Hx, lt_irrefl in Hlt. done.
Qed.

Lemma sorted_stable v l :
  filter (λ y, key y = v) (sorted lt key l) = filter (λ y, key y = v) l.
Proof.
  induction l as [|x l IH]; simpl; [done|].
  by rewrite insert_stable, !filter_cons, IH.
Qed.
End Stable.

Section Ordered.
Variable P : K → Prop.
Hypothesis lt_asym : ∀ a b, P a → P b → lt a b = true → lt b a = false.
Hypothesis le_trans : ∀ a b c, P a → P b → P c →
  lt b a = false → lt c b = false → lt c a = false.

Lemma insert_sorted x l :
  P (key x) → Forall (λ y, P (key y)) l →
  StronglySorted (key_le lt key) l →
  StronglySorted (key_le lt key) (insert lt key x l).
Proof.
  intros Hx. induction l as [|y l IH]; intros HP Hs; simpl.
  - repeat constructor.
  - apply Forall_cons in HP as [Hy HP].
    apply StronglySorted_cons in Hs as [Hyl Hs].
    destruct (lt (key y) (key x)) eqn:Hlt.
    + apply StronglySorted_cons. split; [|by apply IH].
      rewrite insert_Permutation. constructor; [|done].
      unfold key_le. by apply lt_asym.
    + apply StronglySorted_cons. split.
      * constructor; [done|].
        rewrite Forall_forall in Hyl, HP |- *. intros z Hz.
        unfold key_le in *. apply (le_trans _ (key y)); auto.
      * by apply StronglySorted_cons.
Qed.

Lemma sorted_sorted l :
  Forall (λ y, P (key y)) l → StronglySorted (key_le lt key) (sorted lt key l).
Proof.
  induction l as [|x l IH]; intros HP; simpl; [constructor|].
  apply Forall_cons in HP as [Hx HP].
  apply insert_sorted; [done| |by apply IH].
  by rewrite sorted_Permutation.
Qed.
End Ordered.

End SortedFacts.

(** ** The order of datetimes *)

Lemma lex_lt_irrefl a : DateTime.lex_lt a a = false.
Proof.
  induction a as [|x a IH]; simpl; [done|].
  by rewrite Z.ltb_irrefl, Z.eqb_refl, IH.
Qed.

Lemma lex_lt_asym a b :
  DateTime.lex_lt a b = true → DateTime.lex_lt b a = false.
Proof.
  revert b. induction a as [|x a IH]; intros [|y b]; simpl; try done.
  intros H. destruct (Z.ltb_spec x y), (Z.ltb_spec y x),
    (Z.eqb_spec x y), (Z.eqb_spec y x); simpl in *; try lia; auto.
Qed.

Lemma lex_le_trans a b c :
  length a = length b → length b = length c →
  DateTime.lex_lt b a = false → DateTime.lex_lt c b = false →
  DateTime.lex_lt c a = false.
Proof.
  revert b c. induction a as [|x a IH]; intros [|y b] [|z c]; simpl; try done.
  intros [= Hab] [= Hbc].
  destruct (Z.ltb_spec y x), (Z.ltb_spec z y), (Z.ltb_spec z x),
    (Z.eqb_spec y x), (Z.eqb_spec z y), (Z.eqb_spec z x);
    simpl; try lia; try done; eauto.
Qed.

Lemma lex_lt_total a b :
  length a = length b →
  DateTime.lex_lt a b = false → DateTime.lex_lt b a = false → a = b.
Proof.
  revert b. induction a as [|x a IH]; intros [|y b]; simpl; try done.
  intros [= Hab].
  destruct (Z.ltb_spec x y), (Z.ltb_spec y x),
    (Z.eqb_spec x y), (Z.eqb_spec y x); simpl; try lia; try done.
  intros. subst. f_equal. by apply IH.
Qed.

Lemma datetime_lt_irrefl a : DateTime.lt a a = false.
Proof. apply lex_lt_irrefl. Qed.

Lemma datetime_lt_asym a b : DateTime.lt a b = true → DateTime.lt b a = false.
Proof. apply lex_lt_asym. Qed.

Lemma datetime_le_trans a b c :
  DateTime.lt b a = false → DateTime.lt c b = false → DateTime.lt c a = false.
Proof. by apply lex_le_trans. Qed.

(** Two datetimes that compare equal are the same datetime. *)
Lemma datetime_lt_total a b :
  DateTime.lt a b = false → DateTime.lt b a = false → a = b.
Proof.
  intros H1 H2.
  pose proof (lex_lt_total (DateTime.fields a) (DateTime.fields b) eq_refl H1 H2) as E.
  destruct a, b. by injection E as -> -> -> -> -> -> ->.
Qed.

Lemma key_lt_irrefl k : Checker.key_lt k k = false.
Proof. destruct k; simpl; [apply datetime_lt_irrefl|done]. Qed.

(** ** [parse_date] and the first loop *)

Lemma parse_date_run date_str w :
  ∃ out, Checker.parse_date date_str w =
         (World (stdout w ++ out) (files w), Ok (parsed date_str)).
Proof.
  unfold Checker.parse_date, parsed.
  destruct (Str.truthy date_str); cbn [negb].
  - match goal with |- context [Checker.try_formats ?s ?f] =>
      destruct (Checker.try_formats s f) as [[t|]|e] end.
    + exists []. destruct w. unfold ret. simpl. by rewrite app_nil_r.
    + eexists. reflexivity.
    + eexists. reflexivity.
  - exists []. destruct w. unfold ret. simpl. by rewrite app_nil_r.
Qed.

Lemma attach_dates_run domains w :
  ∃ out, Checker.attach_dates domains w =
         (World (stdout w ++ out) (files w), Ok (with_dates domains)).
Proof.
  revert w. induction domains as [|d ds IH]; intros w; simpl.
  - exists []. destruct w. unfold ret. simpl. by rewrite app_nil_r.
  - destruct (parse_date_run (Checker.expires d) w) as (o1 & E1).
    rewrite (bind_ok _ _ _ _ _ E1).
    destruct (IH (World (stdout w ++ o1) (files w))) as (o2 & E2).
    rewrite (bind_ok _ _ _ _ _ E2). exists (o1 ++ o2).
    unfold ret. simpl. by rewrite app_assoc.
Qed.

Lemma sort_domains_Permutation l : Checker.sort_domains l ≡ₚ l.
Proof.
  unfold Checker.sort_domains. rewrite sorted_Permutation.
  rewrite <- (filter_app_complement (λ d, Checker.expiry_date_obj d ≠ None) l) at 3.
  f_equiv. erewrite list_filter_iff; [done|]. intros d.
  cbv beta. destruct (Checker.expiry_date_obj d); split; try done.
  - intros H. by destruct H.
  - intros _ H. by apply H.
Qed.

Lemma listing_Permutation domains : listing domains ≡ₚ with_dates domains.
Proof. apply sort_domains_Permutation. Qed.

(** ** Which exceptions leave a computation *)

Lemma raises_only_prints {A} P (m : M A) : prints m → raises_only P m.
Proof. intros Hm w w' e E. destruct (Hm w) as (o & a & E'). congruence. Qed.

Lemma raises_only_bind {A B} P (m : M A) (k : A → M B) :
  raises_only P m → (∀ a, raises_only P (k a)) → raises_only P (bind m k).
Proof.
  intros Hm Hk w w' e E. apply bind_inv_raise in E as [E|(w1 & a & _ & E)].
  - by eapply Hm.
  - by eapply Hk.
Qed.

Lemma raises_only_for_each {A} P (body : A → M unit) l :
  (∀ x, raises_only P (body x)) → raises_only P (for_each body l).
Proof.
  intros Hb. induction l as [|x l IH]; simpl.
  - apply raises_only_prints, prints_ret.
  - apply raises_only_bind; [apply Hb | by intros _].
Qed.

Lemma raises_only_format_ljust v n :
  raises_only (λ e, e = TypeError) (lift (Str.format_ljust v n)).
Proof. intros w w' e. unfold lift. destruct v; simpl; congruence. Qed.

Lemma raises_only_print_row today d :
  raises_only (λ e, e = TypeError) (Checker.print_row today d).
Proof.
  unfold Checker.print_row.
  apply raises_only_bind; [apply raises_only_format_ljust|intros c1].
  apply raises_only_bind; [apply raises_only_format_ljust|intros c6].
  apply raises_only_prints, prints_print.
Qed.

Lemma raises_only_print_upcoming_row today d :
  raises_only (λ e, e = TypeError) (Checker.print_upcoming_row today d).
Proof.
  unfold Checker.print_upcoming_row.
  apply raises_only_bind.
  { intros w w' e. unfold lift. destruct (Checker.expiry_date_obj d); congruence. }
  intros n.
  apply raises_only_bind; [apply raises_only_format_ljust|intros c1].
  apply raises_only_bind; [apply raises_only_format_ljust|intros c2].
  apply raises_only_prints, prints_print.
Qed.

Lemma raises_only_upcoming_renewals today l :
  raises_only (λ e, e = TypeError) (Checker.upcoming_renewals today l).
Proof.
  unfold Checker.upcoming_renewals.
  apply raises_only_bind; [apply raises_only_prints, prints_print|intros _].
  destruct (Checker.upcoming today l) eqn:E.
  - apply raises_only_prints, prints_print.
  - apply raises_only_bind; [apply raises_only_prints, prints_print|intros _].
    apply raises_only_bind; [apply raises_only_prints, prints_print|intros _].
    apply raises_only_for_each, raises_only_print_upcoming_row.
Qed.

(** ** The statistics view *)

Lemma prints_print_share label n total :
  total ≠ 0 → prints (Checker.print_share label n total).
Proof.
  intros Ht w. unfold Checker.print_share, bind, lift, truediv.
  destruct (Z.eqb_spec total 0) as [|_]; [done|]. eexists _, tt. reflexivity.
Qed.

Lemma prints_statistics domains :
  domains ≠ [] → prints (Checker.statistics domains).
Proof.
  intros Hne. unfold Checker.statistics.
  assert (Z.of_nat (length domains) ≠ 0) by (destruct domains; simpl; [done|lia]).
  repeat (apply prints_bind; [|intros _]);
    auto using prints_print, prints_print_share.
Qed.

Lemma statistics_nil w :
  (Checker.statistics [] w).2 = Raise ZeroDivisionError.
Proof. reflexivity. Qed.

(** ** The calendar view *)

Lemma prints_print_group g : prints (Checker.print_group g).
Proof.
  unfold Checker.print_group. apply prints_bind; [apply prints_print|intros _].
  apply prints_for_each. intros d. apply prints_print.
Qed.

Lemma prints_calendar {libc : DateTime.Platform} l : prints (Checker.calendar l).
Proof.
  unfold Checker.calendar. apply prints_bind; [apply prints_print|intros _].
  apply prints_for_each, prints_print_group.
Qed.

(** ** [display_domains] *)

(** On a non-empty list the function prints the header, attaches the
    dates (printing the warnings) and goes on with the four views. *)
Lemma display_domains_run {libc : DateTime.Platform} today domains :
  domains ≠ [] → displays today domains (listing domains).
Proof.
  intros Hne w. destruct domains as [|d ds]; [done|].
  unfold Checker.display_domains.
  match goal with |- context [bind ?m ?k ?w'] =>
    destruct (prints_run m k w' (prints_print _)) as (o1 & [] & ->) end.
  match goal with |- context [bind ?m ?k ?w'] =>
    destruct (prints_run m k w' (prints_print _)) as (o2 & [] & ->) end.
  match goal with |- context [bind ?m ?k ?w'] =>
    destruct (prints_run m k w' (prints_print _)) as (o3 & [] & ->) end.
  match goal with |- context [Checker.attach_dates ?l] =>
    match goal with |- context [bind (Checker.attach_dates l) ?k ?w'] =>
      destruct (attach_dates_run l w') as (o4 & E);
      rewrite (bind_ok _ _ _ _ _ E) end end.
  simpl. exists (o1 ++ o2 ++ o3 ++ o4). by rewrite !app_assoc.
Qed.

Lemma raises_only_display_domains {libc : DateTime.Platform} today domains :
  raises_only (λ e, e = TypeError) (Checker.display_domains today domains).
Proof.
  intros w w' e E. destruct (decide (domains = [])) as [->|Hne].
  - simpl in E. by apply (raises_only_prints (λ e, e = TypeError) _ (prints_print _)) in E.
  - destruct (display_domains_run today domains Hne w) as (out & E').
    rewrite E' in E.
    match type of E with ?m ?w0 = _ =>
      assert (raises_only (λ e, e = TypeError) m) as R end; [|by eapply R].
    apply raises_only_bind.
    { apply raises_only_for_each, raises_only_print_row. }
    intros _. apply raises_only_bind; [apply raises_only_upcoming_renewals|].
    intros _. apply raises_only_bind.
    { by apply raises_only_prints, prints_statistics. }
    intros _. apply raises_only_prints, prints_calendar.
Qed.

(** C1. [display_domains] never raises [ZeroDivisionError]: on the empty
    list it prints one line and returns, so the statistics view, whose
    divisions fail exactly on the empty list, only runs on a list with
    a positive length. *)
Theorem display_domains_no_zero_division {libc : DateTime.Platform} today domains w :
  (Checker.display_domains today domains w).2 ≠ Raise ZeroDivisionError ∧
  Checker.display_domains today [] w =
    (World (stdout w ++
            [Text "No domains found. Please check your API credentials and parameters."])
           (files w), Ok tt) ∧
  ((Checker.statistics domains w).2 = Raise ZeroDivisionError ↔ domains = []).
Proof.
  split; [|split].
  - destruct (Checker.display_domains today domains w) as [w' [[]|e]] eqn:E;
      [done|].
    apply raises_only_display_domains in E as ->. done.
  - reflexivity.
  - split.
    + intros H. destruct (decide (domains = [])) as [|Hne]; [done|].
      destruct (prints_statistics domains Hne w) as (o & a & E).
      rewrite E in H. done.
    + intros ->. apply statistics_nil.
Qed.

Section OnGlibc.
#[local] Existing Instance Sample.glibc.

Lemma display_domains_no_zero_division_witness :
  (Checker.display_domains Sample.today [] Sample.w0).2 ≠ Raise ZeroDivisionError ∧
  Checker.display_domains Sample.today [] Sample.w0 =
    (World (stdout Sample.w0 ++
            [Text "No domains found. Please check your API credentials and parameters."])
           (files Sample.w0), Ok tt) ∧
  ((Checker.statistics [] Sample.w0).2 = Raise ZeroDivisionError ↔
   [] = @nil Checker.domain).
Proof. exact (display_domains_no_zero_division Sample.today [] Sample.w0). Defined.
End OnGlibc.


(** ** Records of the listing *)

Lemma with_dates_elem d domains :
  d ∈ with_dates domains →
  ∃ d0, d0 ∈ domains ∧
        d = Checker.set_expiry_date_obj d0 (parsed (Checker.expires d0)).
Proof.
  unfold with_dates. intros (d0 & -> & H)%list_elem_of_fmap. by exists d0.
Qed.

Lemma listing_elem d domains :
  d ∈ listing domains ↔ d ∈ with_dates domains.
Proof. by rewrite listing_Permutation. Qed.

(** The date attached to a record of the listing is the parsed
    [expires] field. *)
Lemma listing_date d domains :
  d ∈ listing domains →
  Checker.expiry_date_obj d = parsed (Checker.expires d).
Proof.
  rewrite listing_elem. intros (d0 & _ & ->)%with_dates_elem. done.
Qed.

Lemma parsed_Some date_str t :
  parsed date_str = Some t → ∃ s, date_str = Some s ∧ Str.truthy date_str = true.
Proof.
  unfold parsed. destruct date_str as [[|c s]|]; simpl; try done.
  intros _. by eexists.
Qed.

(** [delta.days] is the whole number of days in the difference of the
    two instants. *)
Lemma days_left_floor today t :
  let micros (x : DateTime.datetime) :=
    ((DateTime.toordinal x * 86400 +
      (DateTime.second x + DateTime.minute x * 60 + DateTime.hour x * 3600))
     * 1000000 + DateTime.microsecond x) in
  Checker.days_left today t = (micros t - micros today) `div` 86400000000.
Proof.
  intros micros. unfold Checker.days_left, DateTime.sub, DateTime.mk_timedelta.
  simpl. subst micros. cbv beta.
  set (d := DateTime.toordinal t - DateTime.toordinal today).
  set (s := _ + _ * 60 + _ * 3600 - _).
  set (u := DateTime.microsecond t - DateTime.microsecond today).
  replace (_ - _) with ((d * 86400 + s) * 1000000 + u) by (subst d s u; lia).
  change 86400000000 with (1000000 * 86400).
  rewrite <- Z.div_div by lia.
  rewrite Z.div_add_l by lia.
  replace (d * 86400 + s + u `div` 1000000) with
    (d * 86400 + (s + u `div` 1000000)) by lia.
  by rewrite Z.div_add_l by lia.
Qed.

Lemma append_assoc (a b c : string) : (a +:+ b) +:+ c = a +:+ (b +:+ c).
Proof.
  induction a as [|x a IH]; [reflexivity|].
  change (String x ((a +:+ b) +:+ c) = String x (a +:+ (b +:+ c))).
  by rewrite IH.
Qed.

(** C6. For a record of the listing with a parsed date, with [n] the
    days left at the report time: the expiry column is the raw date
    followed by ["(n days left) - RENEW SOON!"] when [0 < n <= 30], by
    ["- EXPIRED!"] when [n <= 0], and by ["(n days left)"] otherwise;
    and this text is the second column of the row printed for the
    record. *)
Theorem expiry_annotation today domains d t :
  d ∈ listing domains →
  Checker.expiry_date_obj d = Some t →
  ∃ s, Checker.expires d = Some s ∧ parsed (Some s) = Some t ∧
    let n := Checker.days_left today t in
    (0 < n ≤ 30 →
       Checker.expiry_text today d =
       s +:+ " (" +:+ Str.of_int n +:+ " days left) - RENEW SOON!") ∧
    (n ≤ 0 → Checker.expiry_text today d = s +:+ " - EXPIRED!") ∧
    (30 < n →
       Checker.expiry_text today d =
       s +:+ " (" +:+ Str.of_int n +:+ " days left)") ∧
    ∀ w nm wg,
      Checker.name d = Some nm → Checker.whois_guard d = Some wg →
      Checker.print_row today d w =
      (World (stdout w ++
         [Text (Str.ljust nm 30 +:+ " " +:+
                Str.ljust (Checker.expiry_text today d) 20 +:+ " " +:+
                Str.ljust (if Str.truthy (Checker.created d)
                           then default EmptyString (Checker.created d)
                           else "N/A") 20 +:+ " " +:+
                Str.ljust (Checker.yes_no (Checker.auto_renew d)) 12 +:+ " " +:+
                Str.ljust (Checker.yes_no (Checker.is_locked d)) 10 +:+ " " +:+
                Str.ljust wg 15)]) (files w), Ok tt).
Proof.
  intros Hd Ht. pose proof (listing_date _ _ Hd) as Hp. rewrite Ht in Hp.
  symmetry in Hp. destruct (parsed_Some _ _ Hp) as (s & Hs & Htr).
  exists s. rewrite Hs in Hp. split; [done|]. split; [done|].
  assert (Hx : Checker.expiry_text today d =
    let n := Checker.days_left today t in
    if (0 <? n) && (n <=? 30)
    then s +:+ " " +:+ ("(" +:+ Str.of_int n +:+ " days left)") +:+ " - RENEW SOON!"
    else if n <=? 0 then s +:+ " - EXPIRED!"
    else s +:+ " " +:+ "(" +:+ Str.of_int n +:+ " days left)").
  { unfold Checker.expiry_text. by rewrite Ht, Htr, Hs. }
  cbv zeta in *.
  split; [rewrite Hx|split; [rewrite Hx|split; [rewrite Hx|]]].
  - intros [H1 H2].
    destruct (Z.ltb_spec 0 (Checker.days_left today t)); [|lia].
    destruct (Z.leb_spec (Checker.days_left today t) 30); [|lia].
    simpl. by rewrite !append_assoc.
  - intros H.
    destruct (Z.ltb_spec 0 (Checker.days_left today t)); [lia|]. simpl.
    destruct (Z.leb_spec (Checker.days_left today t) 0); [|lia]. done.
  - intros H.
    destruct (Z.ltb_spec 0 (Checker.days_left today t)); [|lia].
    destruct (Z.leb_spec (Checker.days_left today t) 30); [lia|]. simpl.
    destruct (Z.leb_spec (Checker.days_left today t) 0); [lia|].
    reflexivity.
  - intros w nm wg Hn Hw. unfold Checker.print_row.
    rewrite Hn, Hw. reflexivity.
Qed.

(** C5. The upcoming-renewals view, which [display_domains] prints from
    [listing domains], holds exactly the records of the
    listing with a parsed date whose days left [n] satisfy [0 < n <= 90],
    each as often as it occurs among the records; a record with [n = 0]
    is left out and one with [n = 90] is in. *)
Theorem upcoming_is_0_90_window {libc : DateTime.Platform} today domains :
  (domains ≠ [] → displays today domains (listing domains)) ∧
  (∀ d, d ∈ Checker.upcoming today (listing domains) ↔
        d ∈ with_dates domains ∧
        ∃ t, Checker.expiry_date_obj d = Some t ∧
             0 < Checker.days_left today t ≤ 90) ∧
  Checker.upcoming today (listing domains) ≡ₚ
    filter (λ d, Checker.is_upcoming today d = true) (with_dates domains) ∧
  (∀ d t, d ∈ with_dates domains → Checker.expiry_date_obj d = Some t →
     (Checker.days_left today t = 0 → d ∉ Checker.upcoming today (listing domains)) ∧
     (Checker.days_left today t = 90 → d ∈ Checker.upcoming today (listing domains))).
Proof.
  assert (Hiff : ∀ d, d ∈ Checker.upcoming today (listing domains) ↔
        d ∈ with_dates domains ∧
        ∃ t, Checker.expiry_date_obj d = Some t ∧
             0 < Checker.days_left today t ≤ 90).
  { intros d. unfold Checker.upcoming. rewrite list_elem_of_filter, listing_elem.
    unfold Checker.is_upcoming. split.
    - intros [H Hd]. split; [done|].
      destruct (Checker.expiry_date_obj d) as [t|]; [|done]. exists t.
      apply andb_true_iff in H as [H1%Z.ltb_lt H2%Z.leb_le]. done.
    - intros [Hd (t & -> & H1 & H2)]. split; [|done].
      apply andb_true_iff. split; [by apply Z.ltb_lt|by apply Z.leb_le]. }
  split; [apply display_domains_run|]. split; [done|]. split.
  - unfold Checker.upcoming. by rewrite listing_Permutation.
  - intros d t Hd Ht. split; intros Hn.
    + rewrite Hiff. intros [_ (t' & Ht' & H)]. rewrite Ht in Ht'.
      injection Ht' as <-. lia.
    + apply Hiff. split; [done|]. exists t. split; [done|lia].
Qed.

(** ** Records without a [WhoisGuard] attribute *)

Lemma print_row_whois_guard_none today d w :
  Checker.whois_guard d = None →
  Checker.print_row today d w = (w, Raise TypeError).
Proof.
  intros Hw. unfold Checker.print_row, bind, lift. rewrite Hw.
  by destruct (Checker.name d).
Qed.

Lemma for_each_print_row_raises today l w :
  (∃ d, d ∈ l ∧ Checker.whois_guard d = None) →
  ∃ w', for_each (Checker.print_row today) l w = (w', Raise TypeError).
Proof.
  revert w. induction l as [|x l IH]; intros w (d & Hd & Hw).
  - by apply elem_of_nil in Hd.
  - simpl. destruct (Checker.print_row today x w) as [w1 [[]|e]] eqn:E.
    + rewrite (bind_ok _ _ _ _ _ E). apply IH.
      apply elem_of_cons in Hd as [->|Hd]; [|by exists d].
      rewrite print_row_whois_guard_none in E by done. done.
    + rewrite (bind_raise _ _ _ _ _ E).
      apply raises_only_print_row in E as ->. by exists w1.
Qed.

(** C9. A record whose [whois_guard] is [None] makes its row raise
    [TypeError] without printing it, and a list holding such a record
    makes [display_domains] end with [TypeError]. *)
Theorem display_domains_whois_guard_none {libc : DateTime.Platform} today domains w :
  (∃ d, d ∈ domains ∧ Checker.whois_guard d = None) →
  (∀ d w1, Checker.whois_guard d = None →
     Checker.print_row today d w1 = (w1, Raise TypeError)) ∧
  (Checker.display_domains today domains w).2 = Raise TypeError.
Proof.
  intros (d & Hd & Hw). split.
  { intros d1 w1 H1. by apply print_row_whois_guard_none. }
  assert (Hne : domains ≠ []) by (intros ->; by apply elem_of_nil in Hd).
  destruct (display_domains_run today domains Hne w) as (out & ->).
  edestruct (for_each_print_row_raises today (listing domains)) as (w' & E).
  { exists (Checker.set_expiry_date_obj d (parsed (Checker.expires d))).
    split; [|done]. apply listing_elem. unfold with_dates.
    by apply (list_elem_of_fmap_2
      (λ d, Checker.set_expiry_date_obj d (parsed (Checker.expires d)))). }
  by rewrite (bind_raise _ _ _ _ _ E).
Qed.

(** ** The sample answer *)

Example portfolio_records :
  Sample.portfolio = [Sample.example_com; Sample.example_org].
Proof. vm_compute. reflexivity. Qed.

Example listing_portfolio :
  listing Sample.portfolio = [Sample.example_com_dated; Sample.example_org_dated].
Proof. vm_compute. reflexivity. Qed.

Lemma expiry_annotation_witness :
  Sample.example_com_dated ∈ listing Sample.portfolio ∧
  Checker.expiry_date_obj Sample.example_com_dated =
    Some (DateTime.Datetime 2026 11 19 0 0 0 0) ∧
  Checker.expiry_text Sample.today Sample.example_com_dated =
    "11/19/2026 (14 days left) - RENEW SOON!".
Proof.
  assert (Hd : Sample.example_com_dated ∈ listing Sample.portfolio).
  { rewrite listing_portfolio. left. }
  split; [done|]. split; [reflexivity|].
  destruct (expiry_annotation Sample.today Sample.portfolio
              Sample.example_com_dated
              (DateTime.Datetime 2026 11 19 0 0 0 0) Hd eq_refl)
    as (s & Hs & _ & H & _).
  injection Hs as <-. apply H. vm_compute. split; [done|discriminate].
Defined.

Section OnGlibc.
#[local] Existing Instance Sample.glibc.

Lemma upcoming_is_0_90_window_witness :
  Checker.days_left Sample.today (DateTime.Datetime 2027 1 5 0 0 0 0) = 61 ∧
  Sample.example_org_dated ∈
    Checker.upcoming Sample.today (listing Sample.portfolio).
Proof.
  split; [reflexivity|].
  apply (proj1 (proj2 (upcoming_is_0_90_window Sample.today Sample.portfolio))).
  split.
  - rewrite <- listing_elem, listing_portfolio. right. left.
  - exists (DateTime.Datetime 2027 1 5 0 0 0 0). split; [reflexivity|].
    vm_compute. split; [done|discriminate].
Defined.
End OnGlibc.


Section OnGlibc.
#[local] Existing Instance Sample.glibc.

Lemma display_domains_whois_guard_none_witness :
  Checker.whois_guard Sample.example_org = None ∧
  (Checker.display_domains Sample.today Sample.portfolio Sample.w0).2 =
    Raise TypeError.
Proof.
  split; [reflexivity|].
  apply (display_domains_whois_guard_none Sample.today Sample.portfolio Sample.w0).
  exists Sample.example_org. split; [|reflexivity].
  rewrite portfolio_records. right. left.
Defined.
End OnGlibc.


(** ** The sorted listing *)

Lemma StronglySorted_weaken {A} (R R' : A → A → Prop) (Q : A → Prop) l :
  (∀ a b, Q a → Q b → R a b → R' a b) →
  Forall Q l → StronglySorted R l → StronglySorted R' l.
Proof.
  intros HR. induction l as [|x l IH]; intros HQ Hs; [constructor|].
  apply Forall_cons in HQ as [Hx HQ].
  apply StronglySorted_cons in Hs as [Hxl Hs].
  apply StronglySorted_cons. split; [|by apply IH].
  rewrite Forall_forall in Hxl, HQ |- *. intros y Hy. apply HR; auto.
Qed.

Lemma StronglySorted_all {A} (R : A → A → Prop) (Q : A → Prop) l :
  (∀ a b, Q a → Q b → R a b) → Forall Q l → StronglySorted R l.
Proof.
  intros HR HQ.
  apply (StronglySorted_weaken (λ _ _, True) R Q); [auto|done|].
  clear. induction l; constructor; [done|]. by apply Forall_true.
Qed.

Lemma sorted_valid_ordered l :
  Forall (λ d, Checker.expiry_date_obj d ≠ None) l →
  StronglySorted listing_order
    (sorted Checker.key_lt Checker.expiry_date_obj l).
Proof.
  intros Hl.
  apply (StronglySorted_weaken
           (key_le Checker.key_lt Checker.expiry_date_obj) listing_order
           (λ d, Checker.expiry_date_obj d ≠ None)).
  - intros a b Ha Hb. unfold key_le, listing_order.
    destruct (Checker.expiry_date_obj a), (Checker.expiry_date_obj b); done.
  - by rewrite sorted_Permutation.
  - apply (sorted_sorted _ _ (λ k, k ≠ None)); [| |done].
    + intros [a|] [b|] _ _; simpl; try done. apply datetime_lt_asym.
    + intros [a|] [b|] [c|] Ha Hb Hc; simpl; try done.
      apply datetime_le_trans.
Qed.

Lemma sort_domains_ordered l :
  StronglySorted listing_order (Checker.sort_domains l).
Proof.
  unfold Checker.sort_domains. apply StronglySorted_app. split; [|split].
  - intros a b Ha Hb. rewrite sorted_Permutation in Ha.
    apply list_elem_of_filter in Ha as [Ha _].
    apply list_elem_of_filter in Hb as [Hb _].
    unfold listing_order. rewrite Hb.
    by destruct (Checker.expiry_date_obj a).
  - apply sorted_valid_ordered, Forall_forall.
    by intros d [Hd _]%list_elem_of_filter.
  - apply (StronglySorted_all _ (λ d, Checker.expiry_date_obj d = None)).
    + intros a b Ha Hb. unfold listing_order. by rewrite Ha, Hb.
    + apply Forall_forall. by intros d [Hd _]%list_elem_of_filter.
Qed.

Lemma filter_filter_disjoint {A} (P Q : A → Prop)
    `{∀ x, Decision (P x)} `{∀ x, Decision (Q x)} l :
  (∀ x, P x → Q x → False) → filter P (filter Q l) = [].
Proof.
  intros HPQ. induction l as [|x l IH]; [done|].
  rewrite (filter_cons Q). case_decide; [|done].
  rewrite filter_cons. case_decide; [|done]. by destruct (HPQ x).
Qed.

Lemma sort_domains_stable v l :
  filter (λ d, Checker.expiry_date_obj d = v) (Checker.sort_domains l) =
  filter (λ d, Checker.expiry_date_obj d = v) l.
Proof.
  unfold Checker.sort_domains.
  rewrite filter_app, (sorted_stable _ _ key_lt_irrefl).
  induction l as [|d l IH]; [done|].
  rewrite !filter_cons.
  destruct (decide (Checker.expiry_date_obj d ≠ None)) as [Hd|Hd],
    (decide (Checker.expiry_date_obj d = None)) as [Hn|Hn]; try done.
  - rewrite filter_cons. case_decide; simpl; by rewrite IH.
  - rewrite filter_cons. case_decide as Hv.
    + rewrite <- IH. clear IH.
      rewrite filter_filter_disjoint; [done|]. intros x. congruence.
    + by rewrite IH.
Qed.

(** C4. The listing [display_domains] prints for a non-empty list is
    [listing domains], and it is a rearrangement of the records in which every
    record with a parsed date stands before every record without one, the
    dated records stand in non-decreasing order of date, and the records
    of any one date, like those without a date, keep the order of the
    input; two dates compare equal only when they are the same date. *)
Theorem listing_stable_ordering {libc : DateTime.Platform} today domains :
  (domains ≠ [] → displays today domains (listing domains)) ∧
  listing domains ≡ₚ with_dates domains ∧
  StronglySorted listing_order (listing domains) ∧
  (∀ v, filter (λ d, Checker.expiry_date_obj d = v) (listing domains) =
        filter (λ d, Checker.expiry_date_obj d = v) (with_dates domains)) ∧
  (∀ ta tb, DateTime.lt ta tb = false → DateTime.lt tb ta = false → ta = tb).
Proof.
  split; [apply display_domains_run|].
  split; [apply listing_Permutation|].
  split; [apply sort_domains_ordered|].
  split; [intros v; apply sort_domains_stable|].
  apply datetime_lt_total.
Qed.

Section OnGlibc.
#[local] Existing Instance Sample.glibc.

Lemma listing_stable_ordering_witness :
  displays Sample.today Sample.mixed (listing Sample.mixed) ∧
  listing Sample.mixed ≡ₚ with_dates Sample.mixed ∧
  StronglySorted listing_order (listing Sample.mixed) ∧
  (∀ v, filter (λ d, Checker.expiry_date_obj d = v) (listing Sample.mixed) =
        filter (λ d, Checker.expiry_date_obj d = v) (with_dates Sample.mixed)) ∧
  (∀ ta tb, DateTime.lt ta tb = false → DateTime.lt tb ta = false → ta = tb).
Proof.
  destruct (listing_stable_ordering Sample.today Sample.mixed) as [H Hrest].
  split; [by apply H|exact Hrest].
Defined.
End OnGlibc.


(** The listing of the mixed sample: dated records by date, the two of
    5 January 2027 in their input order, the undated record last. *)
Example listing_mixed :
  Checker.name <$> listing Sample.mixed =
  [Some "a.example"; Some "b.example"; Some "c.example"; Some "junk.example"].
Proof. vm_compute. reflexivity. Qed.

(** ** Strings and numerals *)

Lemma append_nil_r (s : string) : s +:+ "" = s.
Proof.
  induction s as [|c s IH]; [done|].
  change (String c (s +:+ "") = String c s). by rewrite IH.
Qed.

Lemma rev_app_rev_app a b c :
  String.rev_app (String.rev_app a b) c = String.rev_app b (a +:+ c).
Proof.
  revert b c. induction a as [|x a IH]; intros b c; [done|].
  simpl. by rewrite IH.
Qed.

Lemma rev_involutive s : String.rev (String.rev s) = s.
Proof. unfold String.rev. by rewrite rev_app_rev_app, append_nil_r. Qed.

Lemma rev_app_nonempty a b : b ≠ "" → String.rev_app a b ≠ "".
Proof. revert b. induction a as [|x a IH]; intros b Hb; [done|]. by apply IH. Qed.

Lemma nospace_rev_app a b :
  nospace (String.rev_app a b) = nospace a && nospace b.
Proof.
  revert b. induction a as [|x a IH]; intros b; [done|].
  simpl. rewrite IH. simpl. by destruct (Str.is_space x), (nospace a), (nospace b).
Qed.

Lemma nospace_app a b : nospace (a +:+ b) = nospace a && nospace b.
Proof.
  induction a as [|x a IH]; [done|].
  change (negb (Str.is_space x) && nospace (a +:+ b) =
          negb (Str.is_space x) && nospace a && nospace b).
  rewrite IH. by destruct (Str.is_space x).
Qed.

Lemma lstrip_nospace s : nospace s = true → Str.lstrip s = s.
Proof. destruct s as [|c s]; simpl; [done|]. by destruct (Str.is_space c). Qed.

Lemma strip_nospace s : nospace s = true → Str.strip s = s.
Proof.
  intros Hs. unfold Str.strip. rewrite (lstrip_nospace s Hs).
  rewrite lstrip_nospace; [apply rev_involutive|].
  unfold String.rev. by rewrite nospace_rev_app, Hs.
Qed.

Lemma flush_nonempty cur : cur ≠ "" → Str.flush cur = [String.rev cur].
Proof. by destruct cur. Qed.

Lemma split_go_nospace cur s :
  nospace s = true → Str.split_go cur s = Str.flush (String.rev_app s cur).
Proof.
  revert cur. induction s as [|c s IH]; intros cur Hs; [done|].
  simpl in *. apply andb_true_iff in Hs as [Hc Hs].
  destruct (Str.is_space c); [done|]. by apply IH.
Qed.

Lemma split_go_app cur a c b :
  nospace a = true → Str.is_space c = true →
  Str.split_go cur (a +:+ String c b) =
  Str.flush (String.rev_app a cur) ++ Str.split_go "" b.
Proof.
  revert cur. induction a as [|x a IH]; intros cur Ha Hc.
  - change (Str.split_go cur (String c b) = Str.flush cur ++ Str.split_go "" b).
    simpl. by rewrite Hc.
  - change (Str.split_go cur (String x (a +:+ String c b)) =
            Str.flush (String.rev_app a (String x cur)) ++ Str.split_go "" b).
    simpl in *. apply andb_true_iff in Ha as [Hx Ha].
    destruct (Str.is_space x); [done|]. by apply IH.
Qed.

(** Two words separated by one space split into the two words. *)
Lemma split_two a b :
  nospace a = true → nospace b = true → a ≠ "" → b ≠ "" →
  Str.split (a +:+ " " +:+ b) = [a; b].
Proof.
  intros Ha Hb Hna Hnb. unfold Str.split.
  change (a +:+ " " +:+ b) with (a +:+ String " " b).
  rewrite split_go_app, split_go_nospace by done.
  assert (∀ s, s ≠ "" → String.rev_app s "" ≠ "") as Hrev.
  { intros [|x s] Hs; [done|]. simpl. by apply rev_app_nonempty. }
  rewrite !flush_nonempty by auto.
  change (String.rev_app ?s "") with (String.rev s).
  by rewrite !rev_involutive.
Qed.

Ltac digit_cases d :=
  let H := fresh in
  assert (d = 0 ∨ d = 1 ∨ d = 2 ∨ d = 3 ∨ d = 4 ∨
          d = 5 ∨ d = 6 ∨ d = 7 ∨ d = 8 ∨ d = 9) as H by lia;
  destruct H as [->|[->|[->|[->|[->|[->|[->|[->|[->| ->]]]]]]]]].

Lemma digit_val_digit_char d :
  0 ≤ d ≤ 9 → Str.digit_val (Str.digit_char d) = Some d.
Proof. intros Hd. digit_cases d; reflexivity. Qed.

Lemma is_space_digit_char d :
  0 ≤ d ≤ 9 → Str.is_space (Str.digit_char d) = false.
Proof. intros Hd. digit_cases d; reflexivity. Qed.

Lemma nospace_numeral ds :
  Forall (λ d, 0 ≤ d ≤ 9) ds → nospace (Str.numeral ds) = true.
Proof.
  induction 1 as [|d ds Hd _ IH]; simpl; [done|].
  by rewrite is_space_digit_char, IH.
Qed.

Lemma int_digits_numeral ds acc b :
  Forall (λ d, 0 ≤ d ≤ 9) ds → ds ≠ [] ∨ b = true →
  Str.int_digits acc b (Str.numeral ds) = Some (foldl (λ a d, 10 * a + d) acc ds).
Proof.
  intros Hds. revert acc b. induction Hds as [|d ds Hd _ IH]; intros acc b Hb.
  - destruct Hb as [Hb| ->]; done.
  - simpl. rewrite digit_val_digit_char by done. apply IH. by right.
Qed.

Lemma int_numeral ds :
  ds ≠ [] → Forall (λ d, 0 ≤ d ≤ 9) ds →
  Str.int (Str.numeral ds) = Some (foldl (λ a d, 10 * a + d) 0 ds).
Proof.
  intros Hne Hds. unfold Str.int.
  rewrite strip_nospace by by apply nospace_numeral.
  destruct ds as [|d ds]; [done|].
  apply Forall_cons in Hds as [Hd Hds].
  transitivity (Str.int_digits 0 false (Str.numeral (d :: ds))).
  - simpl. digit_cases d; reflexivity.
  - apply int_digits_numeral; [by constructor|by left].
Qed.

(** ** Dates that [parse_date] returns are valid *)

Lemma strptime_valid s fmt t :
  Strptime.strptime s fmt = Ok t → DateTime.valid t.
Proof.
  unfold Strptime.strptime.
  destruct (Strptime.pattern fmt) as [p|]; [|done].
  destruct (Strptime.re_match p s) as [|[g [|c r]] ?]; try done.
  destruct (Strptime.convert_all Strptime.found0 g) as [f|]; [|done].
  unfold Strptime.build, DateTime.new.
  destruct (DateTime.check_date_fields _ _ _); [|done].
  destruct (_ && _) eqn:E; [|done]. intros [= <-]. exact E.
Qed.

Lemma try_formats_valid s fmts t :
  Checker.try_formats s fmts = Ok (Some t) → DateTime.valid t.
Proof.
  induction fmts as [|fmt fmts IH]; simpl; [done|].
  destruct (Strptime.strptime s fmt) as [t'|e] eqn:E.
  - intros [= <-]. by eapply strptime_valid.
  - destruct e; try done.
Qed.

Lemma parsed_valid date_str t : parsed date_str = Some t → DateTime.valid t.
Proof.
  unfold parsed. destruct (Str.truthy date_str); [|done].
  destruct (Checker.try_formats _ _) as [v|e] eqn:E; [|done].
  intros ->. by eapply try_formats_valid.
Qed.

Lemma valid_year_month t :
  DateTime.valid t →
  1 ≤ DateTime.year t ≤ 9999 ∧ 1 ≤ DateTime.month t ≤ 12.
Proof.
  unfold DateTime.valid, DateTime.check_date_fields,
    DateTime.MINYEAR, DateTime.MAXYEAR.
  rewrite !andb_true_iff, !Z.leb_le. lia.
Qed.

Lemma listing_valid domains d t :
  d ∈ listing domains → Checker.expiry_date_obj d = Some t → DateTime.valid t.
Proof.
  intros Hd Ht. apply listing_date in Hd. rewrite Ht in Hd.
  by eapply parsed_valid.
Qed.

(** ** The key of a calendar label *)

Lemma year4_digits y :
  0 ≤ y ≤ 9999 →
  Forall (λ d, 0 ≤ d ≤ 9) [y / 1000; y / 100 mod 10; y / 10 mod 10; y mod 10].
Proof.
  intros Hy. repeat (constructor; [Z.div_mod_to_equations; lia|]).
  constructor.
Qed.

Lemma int_year4 y : 0 ≤ y ≤ 9999 → Str.int (DateTime.year4 y) = Some y.
Proof.
  intros Hy. unfold DateTime.year4.
  rewrite int_numeral by (done || by apply year4_digits).
  f_equal. simpl. Z.div_mod_to_equations. lia.
Qed.

(** [str(y)] of a positive number, digit by digit from the right. *)
Lemma pretty_N_char_digit d :
  0 ≤ d ≤ 9 → pretty_N_char (Z.to_N d) = Str.digit_char d.
Proof. intros Hd. digit_cases d; reflexivity. Qed.

Lemma pretty_N_go_digit z s :
  0 < z →
  pretty_N_go (Z.to_N z) s =
  pretty_N_go (Z.to_N (z / 10)) (String (Str.digit_char (z mod 10)) s).
Proof.
  intros Hz. rewrite pretty_N_go_step by lia.
  change 10%N with (Z.to_N 10).
  rewrite <- Z2N.inj_div, <- Z2N.inj_mod by lia.
  rewrite pretty_N_char_digit by (Z.div_mod_to_equations; lia). done.
Qed.

Lemma of_int_pos y : 0 < y → Str.of_int y = pretty_N_go (Z.to_N y) "".
Proof. intros Hy. by destruct y. Qed.

(** The plain decimal number of a year: digits, the first not needed to
    be zero, and four of them from the year 1000 on. *)
Lemma of_int_year y :
  1 ≤ y ≤ 9999 →
  ∃ ds, ds ≠ [] ∧ Forall (λ d, 0 ≤ d ≤ 9) ds ∧
        Str.of_int y = Str.numeral ds ∧
        foldl (λ a d, 10 * a + d) 0 ds = y ∧
        (length ds = 4%nat ↔ 1000 ≤ y).
Proof.
  intros Hy. rewrite of_int_pos by lia.
  assert (y < 10 ∨ 10 ≤ y < 100 ∨ 100 ≤ y < 1000 ∨ 1000 ≤ y)
    as [H|[H|[H|H]]] by lia.
  - exists [y mod 10]. rewrite pretty_N_go_digit by lia.
    replace (y / 10) with 0 by (Z.div_mod_to_equations; lia).
    split; [done|]. split; [|split; [done|]].
    + repeat (constructor; [Z.div_mod_to_equations; lia|]). constructor.
    + cbn [foldl length]. split; [Z.div_mod_to_equations; lia|lia].
  - exists [y / 10 mod 10; y mod 10].
    rewrite 2!pretty_N_go_digit by (Z.div_mod_to_equations; lia).
    replace (y / 10 / 10) with 0 by (Z.div_mod_to_equations; lia).
    split; [done|]. split; [|split; [done|]].
    + repeat (constructor; [Z.div_mod_to_equations; lia|]). constructor.
    + cbn [foldl length]. split; [Z.div_mod_to_equations; lia|lia].
  - exists [y / 10 / 10 mod 10; y / 10 mod 10; y mod 10].
    rewrite 3!pretty_N_go_digit by (Z.div_mod_to_equations; lia).
    replace (y / 10 / 10 / 10) with 0 by (Z.div_mod_to_equations; lia).
    split; [done|]. split; [|split; [done|]].
    + repeat (constructor; [Z.div_mod_to_equations; lia|]). constructor.
    + cbn [foldl length]. split; [Z.div_mod_to_equations; lia|lia].
  - exists [y / 10 / 10 / 10 mod 10; y / 10 / 10 mod 10; y / 10 mod 10; y mod 10].
    rewrite 4!pretty_N_go_digit by (Z.div_mod_to_equations; lia).
    replace (y / 10 / 10 / 10 / 10) with 0 by (Z.div_mod_to_equations; lia).
    split; [done|]. split; [|split; [done|]].
    + repeat (constructor; [Z.div_mod_to_equations; lia|]). constructor.
    + cbn [foldl length]. split; [Z.div_mod_to_equations; lia|lia].
Qed.

(** From the year 1000 on the plain number has the four digits of the
    padded form. *)
Lemma of_int_year4 y : 1000 ≤ y ≤ 9999 → Str.of_int y = DateTime.year4 y.
Proof.
  intros Hy. rewrite of_int_pos by lia.
  rewrite 4!pretty_N_go_digit by (Z.div_mod_to_equations; lia).
  replace (y / 10 / 10 / 10 / 10) with 0 by (Z.div_mod_to_equations; lia).
  unfold DateTime.year4. cbn [Str.numeral].
  replace (y / 10 / 10 / 10 mod 10) with (y / 1000)
    by (Z.div_mod_to_equations; lia).
  replace (y / 10 / 10 mod 10) with (y / 100 mod 10)
    by (Z.div_mod_to_equations; lia).
  done.
Qed.

Lemma month_name_text m :
  1 ≤ m ≤ 12 →
  nospace (DateTime.month_name m) = true ∧ DateTime.month_name m ≠ "" ∧
  Checker.month_map !! DateTime.month_name m = Some m.
Proof.
  intros Hm.
  assert (m = 1 ∨ m = 2 ∨ m = 3 ∨ m = 4 ∨ m = 5 ∨ m = 6 ∨ m = 7 ∨
          m = 8 ∨ m = 9 ∨ m = 10 ∨ m = 11 ∨ m = 12) as H by lia.
  destruct H as [->|[->|[->|[->|[->|[->|[->|[->|[->|[->|[->| ->]]]]]]]]]]];
    done.
Qed.

(** The key of a label made of a month name and a year written in
    digits. *)
Lemma month_year_key_digits m ds :
  1 ≤ m ≤ 12 → ds ≠ [] → Forall (λ d, 0 ≤ d ≤ 9) ds →
  Checker.month_year_key (DateTime.month_name m +:+ " " +:+ Str.numeral ds)
  = (foldl (λ a d, 10 * a + d) 0 ds, m).
Proof.
  intros Hm Hne Hds. destruct (month_name_text m Hm) as (Hsp & Hnm & Hmap).
  unfold Checker.month_year_key. rewrite split_two.
  - rewrite int_numeral by done. by rewrite Hmap.
  - done.
  - by apply nospace_numeral.
  - done.
  - by destruct ds.
Qed.

Lemma month_year_key_label y m :
  0 ≤ y ≤ 9999 → 1 ≤ m ≤ 12 →
  Checker.month_year_key (DateTime.month_name m +:+ " " +:+ DateTime.year4 y)
  = (y, m).
Proof.
  intros Hy Hm. unfold DateTime.year4.
  rewrite month_year_key_digits by (done || by apply year4_digits).
  f_equal. simpl. Z.div_mod_to_equations. lia.
Qed.

(** Padded or not, the label of a valid date reads back as its year and
    month. *)
Lemma month_year_key_strftime {libc : DateTime.Platform} t :
  DateTime.valid t →
  Checker.month_year_key (DateTime.strftime_B_Y t) =
  (DateTime.year t, DateTime.month t).
Proof.
  intros [Hy Hm]%valid_year_month.
  unfold DateTime.strftime_B_Y, DateTime.strftime_Y.
  destruct DateTime.pads_year; [apply month_year_key_label; lia|].
  destruct (of_int_year (DateTime.year t) Hy) as (ds & Hne & Hds & -> & Hv & _).
  rewrite month_year_key_digits by done. by rewrite Hv.
Qed.

(** The label has the year in four digits from the year 1000 on, and
    for every year where the library pads. *)
Lemma strftime_B_Y_four {libc : DateTime.Platform} t :
  DateTime.valid t →
  DateTime.pads_year = true ∨ 1000 ≤ DateTime.year t →
  DateTime.strftime_B_Y t =
  DateTime.month_name (DateTime.month t) +:+ " " +:+
  DateTime.year4 (DateTime.year t).
Proof.
  intros [Hy _]%valid_year_month Hfour.
  unfold DateTime.strftime_B_Y, DateTime.strftime_Y.
  destruct DateTime.pads_year; [done|].
  destruct Hfour as [?|Hfour]; [done|]. rewrite of_int_year4 by lia. done.
Qed.

(** ** Calendar groups *)

(** With distinct keys, appending to the first group labelled [k] is
    appending to every group labelled [k]. *)
Lemma group_append_spec k d (groups : list (string * list Checker.domain)) :
  NoDup groups.*1 →
  Checker.group_append k d groups =
  if decide (k ∈ groups.*1)
  then (λ g, if decide (g.1 = k) then (g.1, g.2 ++ [d]) else g) <$> groups
  else groups ++ [(k, [d])].
Proof.
  induction groups as [|[k0 ds0] groups IH]; intros Hnd; simpl.
  - done.
  - apply NoDup_cons in Hnd as [Hk0 Hnd].
    destruct (decide (k = k0)) as [->|Hne].
    + rewrite decide_True by left. rewrite decide_True by done. simpl.
      f_equal. clear IH. induction groups as [|[k1 ds1] groups IH]; [done|].
      simpl in *. apply not_elem_of_cons in Hk0 as [Hk1 Hk0].
      apply NoDup_cons in Hnd as [_ Hnd].
      rewrite decide_False by done. f_equal. by apply IH.
    + rewrite IH by done. rewrite (decide_False (P := k0 = k)) by done.
      destruct (decide (k ∈ groups.*1)) as [Hin|Hin].
      * rewrite decide_True by by right. done.
      * rewrite decide_False; [done|]. by intros [|]%elem_of_cons.
Qed.

Lemma members_app {libc : DateTime.Platform} k (l1 l2 : list Checker.domain) :
  members k (l1 ++ l2) = members k l1 ++ members k l2.
Proof. apply filter_app. Qed.

Lemma members_singleton {libc : DateTime.Platform} k d :
  members k [d] = if decide (group_label d = Some k) then [d] else [].
Proof. unfold members. rewrite filter_cons. by case_decide. Qed.

Lemma group_step_groups_of {libc : DateTime.Platform} l groups d :
  groups_of l groups → groups_of (l ++ [d]) (Checker.group_step groups d).
Proof.
  intros (Hnd & Hall & Hkeys). unfold Checker.group_step.
  destruct (Checker.expiry_date_obj d) as [t|] eqn:Ht.
  - assert (Hl : group_label d = Some (DateTime.strftime_B_Y t))
      by (unfold group_label; by rewrite Ht).
    set (k := DateTime.strftime_B_Y t) in *.
    rewrite group_append_spec by done.
    destruct (decide (k ∈ groups.*1)) as [Hin|Hin].
    + assert (Hfst : ((λ g : string * list Checker.domain,
                if decide (g.1 = k) then (g.1, g.2 ++ [d]) else g) <$> groups).*1
              = groups.*1).
      { rewrite <- list_fmap_compose. apply list_fmap_ext.
        intros i [k1 ds1] _. simpl. by case_decide. }
      split; [by rewrite Hfst|]. split.
      * apply Forall_fmap. eapply Forall_impl; [exact Hall|].
        intros [k1 ds1]; simpl; intros [Hne ->].
        rewrite members_app, members_singleton.
        case_decide as Hk; simpl.
        -- subst k1. rewrite decide_True by done.
           split; [|done]. by intros [? _]%app_eq_nil.
        -- rewrite decide_False by congruence. by rewrite app_nil_r.
      * rewrite Hfst. intros d1 k1 [Hd1|Hd1%list_elem_of_singleton]%elem_of_app Hk1.
        -- by eapply Hkeys.
        -- subst d1. congruence.
    + split; [|split].
      * rewrite fmap_app. simpl. apply NoDup_app. split; [done|].
        split; [|apply NoDup_singleton].
        intros x Hx ->%list_elem_of_singleton. done.
      * apply Forall_app. split.
        -- eapply Forall_impl; [exact Hall|].
           intros [k1 ds1]; simpl; intros [Hne ->]. split; [done|].
           rewrite members_app, members_singleton.
           rewrite decide_False; [by rewrite app_nil_r|].
           intros E. rewrite Hl in E. injection E as <-.
           destruct (members k l) as [|d1 ?] eqn:Em; [done|].
           assert (d1 ∈ members k l) as [Hd1 Hd1']%list_elem_of_filter
             by (rewrite Em; left).
           apply Hin. by eapply Hkeys.
        -- constructor; [|constructor]. simpl. split; [done|].
           rewrite members_app, members_singleton, decide_True by done.
           assert (members k l = []) as ->; [|done].
           destruct (members k l) as [|d1 ?] eqn:Em; [done|].
           assert (d1 ∈ members k l) as [Hd1 Hd1']%list_elem_of_filter
             by (rewrite Em; left).
           destruct Hin. by eapply Hkeys.
      * rewrite fmap_app. simpl.
        intros d1 k1 [Hd1|Hd1%list_elem_of_singleton]%elem_of_app Hk1.
        -- apply elem_of_app. left. by eapply Hkeys.
        -- subst d1. apply elem_of_app. right.
           rewrite Hl in Hk1. injection Hk1 as <-. left.
  - assert (Hl : group_label d = None) by (unfold group_label; by rewrite Ht).
    split; [done|]. split.
    + eapply Forall_impl; [exact Hall|].
      intros [k1 ds1]; simpl; intros [Hne ->]. split; [done|].
      rewrite members_app, members_singleton.
      rewrite decide_False by congruence. by rewrite app_nil_r.
    + intros d1 k1 [Hd1|Hd1%list_elem_of_singleton]%elem_of_app Hk1.
      * by eapply Hkeys.
      * subst d1. congruence.
Qed.

Lemma foldl_group_step_groups_of {libc : DateTime.Platform} l l' groups :
  groups_of l groups → groups_of (l ++ l') (foldl Checker.group_step groups l').
Proof.
  revert l groups. induction l' as [|d l' IH]; intros l groups H; simpl.
  - by rewrite app_nil_r.
  - replace (l ++ d :: l') with ((l ++ [d]) ++ l') by by rewrite <- app_assoc.
    by apply IH, group_step_groups_of.
Qed.

Lemma domains_by_month_groups_of {libc : DateTime.Platform} l : groups_of l (Checker.domains_by_month l).
Proof.
  apply (foldl_group_step_groups_of [] l []).
  split; [constructor|]. split; [constructor|]. by intros d k ?%elem_of_nil.
Qed.

Lemma groups_of_Permutation {libc : DateTime.Platform} l groups groups' :
  groups ≡ₚ groups' → groups_of l groups → groups_of l groups'.
Proof.
  intros Hp (Hnd & Hall & Hkeys). split; [|split].
  - by rewrite <- Hp.
  - by rewrite <- Hp.
  - intros d k Hd Hk. rewrite <- Hp. by eapply Hkeys.
Qed.

Lemma groups_of_elem {libc : DateTime.Platform} l groups k ds :
  groups_of l groups → (k, ds) ∈ groups ↔ ds ≠ [] ∧ ds = members k l.
Proof.
  intros (Hnd & Hall & Hkeys). rewrite Forall_forall in Hall. split.
  - intros H. exact (Hall _ H).
  - intros [Hne ->].
    destruct (members k l) as [|d ?] eqn:Em; [done|].
    assert (d ∈ members k l) as [Hd Hd']%list_elem_of_filter
      by (rewrite Em; left).
    apply (Hkeys d k Hd') in Hd.
    apply list_elem_of_fmap in Hd as ([k' ds'] & Hk & Hin). simpl in Hk.
    subst k'. destruct (Hall _ Hin) as [_ E]. simpl in E.
    rewrite Em in E. by subst ds'.
Qed.

Lemma calendar_groups_of {libc : DateTime.Platform} l : groups_of l (Checker.calendar_groups l).
Proof.
  eapply groups_of_Permutation; [|apply domains_by_month_groups_of].
  unfold Checker.calendar_groups. by rewrite sorted_Permutation.
Qed.

Lemma pair_lt_asym a b : Checker.pair_lt a b = true → Checker.pair_lt b a = false.
Proof.
  unfold Checker.pair_lt. destruct a as [a1 a2], b as [b1 b2]. simpl.
  destruct (Z.ltb_spec a1 b1), (Z.ltb_spec b1 a1), (Z.eqb_spec a1 b1),
    (Z.eqb_spec b1 a1), (Z.ltb_spec a2 b2), (Z.ltb_spec b2 a2);
    simpl; try done; lia.
Qed.

Lemma pair_le_trans a b c :
  Checker.pair_lt b a = false → Checker.pair_lt c b = false →
  Checker.pair_lt c a = false.
Proof.
  unfold Checker.pair_lt. destruct a as [a1 a2], b as [b1 b2], c as [c1 c2].
  simpl.
  destruct (Z.ltb_spec b1 a1), (Z.ltb_spec c1 b1), (Z.ltb_spec c1 a1),
    (Z.eqb_spec b1 a1), (Z.eqb_spec c1 b1), (Z.eqb_spec c1 a1),
    (Z.ltb_spec b2 a2), (Z.ltb_spec c2 b2), (Z.ltb_spec c2 a2);
    simpl; try done; lia.
Qed.

Lemma calendar_groups_sorted {libc : DateTime.Platform} l :
  StronglySorted (key_le Checker.pair_lt (λ g, Checker.month_year_key g.1))
                 (Checker.calendar_groups l).
Proof.
  unfold Checker.calendar_groups.
  apply (sorted_sorted _ _ (λ _, True)).
  - intros a b _ _. apply pair_lt_asym.
  - intros a b c _ _ _. apply pair_le_trans.
  - by apply Forall_true.
Qed.

(** C7. The calendar view prints the groups of [listing domains], in
    the order of [calendar_groups]: labels are distinct, the
    group of a label holds, in listing order, the records whose parsed
    date gives that label under [%B %Y], so a record is in some group
    exactly when it has a parsed date; the groups stand in
    non-decreasing order of their keys, and the key of a group is the
    (year, month) of the dates of its members; the label is the full
    month name and the year as [%Y] writes it, which is the year in
    four digits from the year 1000 on and wherever the C library pads
    (below 1000 glibc writes the plain number); a label that does not
    split in two parts with an integer second part gets the key
    (9999, 13), which no valid date exceeds; and ["January 2027"],
    ["December 2025"] come out as December 2025, January 2027. *)
Theorem calendar_groups_chronological {libc : DateTime.Platform} today domains :
  let l := listing domains in
  let groups := Checker.calendar_groups l in
  (domains ≠ [] → displays today domains l) ∧
  NoDup groups.*1 ∧
  (∀ k ds, (k, ds) ∈ groups ↔ ds ≠ [] ∧ ds = members k l) ∧
  (∀ d, (∃ g, g ∈ groups ∧ d ∈ g.2) ↔
        d ∈ l ∧ Checker.expiry_date_obj d ≠ None) ∧
  StronglySorted (key_le Checker.pair_lt (λ g, Checker.month_year_key g.1))
                 groups ∧
  (∀ k ds d t, (k, ds) ∈ groups → d ∈ ds →
     Checker.expiry_date_obj d = Some t →
     k = DateTime.strftime_B_Y t ∧
     Checker.month_year_key k = (DateTime.year t, DateTime.month t)) ∧
  (∀ k ds d t, (k, ds) ∈ groups → d ∈ ds →
     Checker.expiry_date_obj d = Some t →
     DateTime.pads_year = true ∨ 1000 ≤ DateTime.year t →
     k = DateTime.month_name (DateTime.month t) +:+ " " +:+
         DateTime.year4 (DateTime.year t)) ∧
  (∀ s, (∀ m y, Str.split s = [m; y] → Str.int y = None) →
        Checker.month_year_key s = (9999, 13)) ∧
  (∀ t, DateTime.valid t →
        Checker.pair_lt (9999, 13) (DateTime.year t, DateTime.month t) = false) ∧
  sorted Checker.pair_lt Checker.month_year_key
         ["January 2027"; "December 2025"] =
  ["December 2025"; "January 2027"].
Proof.
  intros l groups.
  pose proof (calendar_groups_of l) as Hg. fold groups in Hg.
  assert (Helem := λ k ds, groups_of_elem l groups k ds Hg).
  split; [apply display_domains_run|]. split; [apply Hg|]. split; [exact Helem|].
  split; [|split; [|split; [|split]]].
  - intros d. split.
    + intros ([k ds] & Hin & Hd). simpl in Hd.
      apply Helem in Hin as [_ ->].
      apply list_elem_of_filter in Hd as [Hl Hd]. split; [done|].
      unfold group_label in Hl. by destruct (Checker.expiry_date_obj d).
    + intros [Hd Hne].
      destruct (Checker.expiry_date_obj d) as [t|] eqn:Ht; [|done].
      assert (d ∈ members (DateTime.strftime_B_Y t) l) as Hm.
      { apply list_elem_of_filter. split; [|done].
        unfold group_label. by rewrite Ht. }
      exists (DateTime.strftime_B_Y t, members (DateTime.strftime_B_Y t) l).
      split; [|done]. apply Helem. split; [|done].
      intros E. rewrite E in Hm. by apply elem_of_nil in Hm.
  - apply calendar_groups_sorted.
  - intros k ds d t Hin Hd Ht. apply Helem in Hin as [_ ->].
    apply list_elem_of_filter in Hd as [Hl Hd].
    unfold group_label in Hl. rewrite Ht in Hl. injection Hl as <-.
    split; [done|]. apply month_year_key_strftime.
    by eapply listing_valid.
  - intros k ds d t Hin Hd Ht Hfour. apply Helem in Hin as [_ ->].
    apply list_elem_of_filter in Hd as [Hl Hd].
    unfold group_label in Hl. rewrite Ht in Hl. injection Hl as <-.
    apply strftime_B_Y_four; [by eapply listing_valid|done].
  - split; [|split].
    + intros s Hs. unfold Checker.month_year_key.
      destruct (Str.split s) as [|m [|y [|? ?]]]; try done.
      by rewrite (Hs m y).
    + intros t [Hy Hm]%valid_year_month. unfold Checker.pair_lt. simpl.
      destruct (Z.ltb_spec 9999 (DateTime.year t)); [lia|].
      destruct (Z.ltb_spec 13 (DateTime.month t)); [lia|].
      by rewrite andb_false_r.
    + reflexivity.
Qed.

Section OnGlibc.
#[local] Existing Instance Sample.glibc.

Lemma calendar_groups_chronological_witness :
  (fst <$> Checker.calendar_groups (listing Sample.mixed)) =
    ["November 2026"; "January 2027"] ∧
  ∀ k ds d t, (k, ds) ∈ Checker.calendar_groups (listing Sample.mixed) →
    d ∈ ds → Checker.expiry_date_obj d = Some t →
    k = DateTime.strftime_B_Y t ∧
    Checker.month_year_key k = (DateTime.year t, DateTime.month t).
Proof.
  split; [vm_compute; reflexivity|].
  apply (calendar_groups_chronological Sample.today Sample.mixed).
Defined.

(** On glibc the year 999 is written with three digits: the date
    ["01/05/0999"] is accepted, and the label of its group is
    ["January 999"], not the month name and the year in four digits. *)
Lemma calendar_label_year_999 :
  let d := Checker.set_expiry_date_obj (Sample.record "old.example" "01/05/0999")
             (Some (DateTime.Datetime 999 1 5 0 0 0 0)) in
  listing [Sample.record "old.example" "01/05/0999"] = [d] ∧
  Checker.calendar_groups [d] = [("January 999", [d])] ∧
  "January 999" ≠
  DateTime.month_name 1 +:+ " " +:+ DateTime.year4 999.
Proof. vm_compute. repeat split; discriminate. Qed.
End OnGlibc.


(** ** The regular expressions of [strptime] *)

Lemma append_cons c (s r : string) : String c s +:+ r = String c (s +:+ r).
Proof. reflexivity. Qed.

Lemma append_nil_l (s : string) : "" +:+ s = s.
Proof. reflexivity. Qed.

Lemma match_seq_nil s : Strptime.match_seq [] s = Some ("", s).
Proof. reflexivity. Qed.

Lemma match_seq_cons_inv k ks s m r :
  Strptime.match_seq (k :: ks) s = Some (m, r) →
  ∃ c s' m', s = String c s' ∧ Strptime.cls_match k c = true ∧
             Strptime.match_seq ks s' = Some (m', r) ∧ m = String c m'.
Proof.
  simpl. destruct s as [|c s']; [done|].
  destruct (Strptime.cls_match k c) eqn:Hk; [|done].
  destruct (Strptime.match_seq ks s') as [[m' r']|] eqn:Hm; [|done].
  simpl. intros [= <- <-]. by exists c, s', m'.
Qed.

(** What a sequence of classes matches is a prefix of the text. *)
Lemma match_seq_prefix ks s m r :
  Strptime.match_seq ks s = Some (m, r) → s = m +:+ r.
Proof.
  revert s m. induction ks as [|k ks IH]; intros s m.
  - by intros [= <- <-].
  - intros (c & s' & m' & -> & _ & Hm & ->)%match_seq_cons_inv.
    rewrite append_cons. f_equal. by apply IH.
Qed.

Lemma elem_of_re_match_nil g r s :
  (g, r) ∈ Strptime.re_match [] s ↔ g = [] ∧ r = s.
Proof.
  simpl. rewrite list_elem_of_singleton. split.
  - by intros [= -> ->].
  - by intros [-> ->].
Qed.

Lemma elem_of_re_match_lit c p g r s :
  (g, r) ∈ Strptime.re_match (Strptime.Lit c :: p) s ↔
  ∃ c' s', s = String c' s' ∧ Strptime.lower c = Strptime.lower c' ∧
           (g, r) ∈ Strptime.re_match p s'.
Proof.
  simpl. destruct s as [|c' s'].
  - split; [by intros ?%elem_of_nil|]. by intros (? & ? & ? & _).
  - case_bool_decide as Hc.
    + split; [by exists c', s'|]. by intros (? & ? & [= <- <-] & _ & ?).
    + split; [by intros ?%elem_of_nil|]. by intros (? & ? & [= <- <-] & ? & _).
Qed.

Lemma elem_of_re_match_group n alts p g r s :
  (g, r) ∈ Strptime.re_match (Strptime.Group n alts :: p) s ↔
  ∃ ks m r1 g', ks ∈ alts ∧ Strptime.match_seq ks s = Some (m, r1) ∧
                (g', r) ∈ Strptime.re_match p r1 ∧ g = (n, m) :: g'.
Proof.
  simpl. rewrite list_elem_of_bind. split.
  - intros ([m r1] & Hg & Hm).
    apply list_elem_of_omap in Hm as (ks & Hks & Hm).
    apply list_elem_of_fmap in Hg as ([g' r'] & [= -> ->] & Hg).
    by exists ks, m, r1, g'.
  - intros (ks & m & r1 & g' & Hks & Hm & Hg & ->).
    exists (m, r1). split.
    + apply list_elem_of_fmap. by exists (g', r).
    + apply list_elem_of_omap. by exists ks.
Qed.

(** The first match of a group followed by [p] is the first match of the
    group, when [p] matches what it leaves. *)
Lemma re_match_group_head n alts p s m r g r' :
  head (omap (λ ks, Strptime.match_seq ks s) alts) = Some (m, r) →
  head (Strptime.re_match p r) = Some (g, r') →
  head (Strptime.re_match (Strptime.Group n alts :: p) s) = Some ((n, m) :: g, r').
Proof.
  simpl. destruct (omap _ alts) as [|[m0 r0] l]; [done|]. intros [= -> ->].
  simpl. destruct (Strptime.re_match p r) as [|[g0 r0] l']; [done|].
  by intros [= -> ->].
Qed.

Lemma re_match_lit_head c c' p s :
  Strptime.lower c = Strptime.lower c' →
  head (Strptime.re_match (Strptime.Lit c :: p) (String c' s)) =
  head (Strptime.re_match p s).
Proof. intros H. simpl. by rewrite bool_decide_true. Qed.

(** ** Characters and classes *)

Lemma digit_char_code c : 48 ≤ code c ≤ 57 → c = Str.digit_char (code c - 48).
Proof.
  intros Hc. unfold Str.digit_char, code in *.
  replace (48 + (Z.of_N (N_of_ascii c) - 48)) with (Z.of_N (N_of_ascii c)) by lia.
  by rewrite N2Z.id, ascii_N_embedding.
Qed.

Lemma cls_digit k c lo hi :
  Strptime.cls_match k c = true → digit_bounds k = Some (lo, hi) →
  ∃ a, c = Str.digit_char a ∧ lo ≤ a ≤ hi ∧ 0 ≤ a ≤ 9.
Proof.
  destruct k as [|l h|x]; simpl.
  - unfold Str.digit_val. fold (code c).
    intros Hm [= <- <-]. exists (code c - 48).
    destruct (Z.leb_spec 48 (code c)), (Z.leb_spec (code c) 57);
      simpl in Hm; try done.
    split; [apply digit_char_code|]; lia.
  - intros [Hl Hh]%andb_true_iff. apply N.leb_le in Hl, Hh.
    destruct (Z.leb_spec 48 (code l)), (Z.leb_spec (code h) 57);
      simpl; try done.
    intros [= <- <-]. exists (code c - 48). unfold code in *.
    split; [apply digit_char_code; unfold code|]; lia.
  - intros ->%bool_decide_eq_true.
    destruct (Z.leb_spec 48 (code x)), (Z.leb_spec (code x) 57);
      simpl; try done.
    intros [= <- <-]. exists (code x - 48).
    split; [apply digit_char_code|]; lia.
Qed.

Lemma match_seq_1 k s m r lo hi :
  Strptime.match_seq [k] s = Some (m, r) → digit_bounds k = Some (lo, hi) →
  ∃ a, lo ≤ a ≤ hi ∧ 0 ≤ a ≤ 9 ∧ m = Str.numeral [a].
Proof.
  intros (c & s' & m' & -> & Hk & [= <- <-] & ->)%match_seq_cons_inv Hb.
  destruct (cls_digit _ _ _ _ Hk Hb) as (a & -> & ? & ?). by exists a.
Qed.

Lemma match_seq_2 k1 k2 s m r lo1 hi1 lo2 hi2 :
  Strptime.match_seq [k1; k2] s = Some (m, r) →
  digit_bounds k1 = Some (lo1, hi1) → digit_bounds k2 = Some (lo2, hi2) →
  ∃ a b, lo1 ≤ a ≤ hi1 ∧ lo2 ≤ b ≤ hi2 ∧ 0 ≤ a ≤ 9 ∧ 0 ≤ b ≤ 9 ∧
         m = Str.numeral [a; b].
Proof.
  intros (c & s' & m' & -> & Hk & Hm & ->)%match_seq_cons_inv Hb1 Hb2.
  destruct (match_seq_1 _ _ _ _ _ _ Hm Hb2) as (b & ? & ? & ->).
  destruct (cls_digit _ _ _ _ Hk Hb1) as (a & -> & ? & ?). by exists a, b.
Qed.

Lemma match_seq_space k s m r lo hi :
  Strptime.match_seq [Strptime.Chr " "; k] s = Some (m, r) →
  digit_bounds k = Some (lo, hi) →
  ∃ b, lo ≤ b ≤ hi ∧ 0 ≤ b ≤ 9 ∧ m = String " " (Str.numeral [b]).
Proof.
  intros (c & s' & m' & -> & Hk & Hm & ->)%match_seq_cons_inv Hb.
  destruct (match_seq_1 _ _ _ _ _ _ Hm Hb) as (b & ? & ? & ->).
  apply bool_decide_eq_true in Hk as ->. by exists b.
Qed.

Lemma match_seq_digits n s m r :
  Strptime.match_seq (replicate n Strptime.Digit) s = Some (m, r) →
  ∃ ds, length ds = n ∧ Forall (λ d, 0 ≤ d ≤ 9) ds ∧ m = Str.numeral ds.
Proof.
  revert s m. induction n as [|n IH]; intros s m.
  - intros [= <- <-]. by exists [].
  - intros (c & s' & m' & -> & Hk & Hm & ->)%match_seq_cons_inv.
    destruct (IH _ _ Hm) as (ds & <- & Hds & ->).
    destruct (cls_digit _ _ 0 9 Hk eq_refl) as (a & -> & ? & ?).
    exists (a :: ds). split; [done|]. split; [by constructor|done].
Qed.

Lemma digits12_one b : 0 ≤ b ≤ 9 → digits12 b (Str.numeral [b]).
Proof. intros. by left. Qed.

Lemma digits12_two a b :
  0 ≤ a ≤ 9 → 0 ≤ b ≤ 9 → digits12 (10 * a + b) (Str.numeral [a; b]).
Proof.
  intros Ha Hb. right. split; [lia|].
  replace ((10 * a + b) / 10) with a by (Z.div_mod_to_equations; lia).
  replace ((10 * a + b) mod 10) with b by (Z.div_mod_to_equations; lia).
  done.
Qed.

Lemma year4_numeral a b c d :
  0 ≤ a ≤ 9 → 0 ≤ b ≤ 9 → 0 ≤ c ≤ 9 → 0 ≤ d ≤ 9 →
  DateTime.year4 (1000 * a + 100 * b + 10 * c + d) = Str.numeral [a; b; c; d].
Proof.
  intros Ha Hb Hc Hd. unfold DateTime.year4.
  set (y := 1000 * a + 100 * b + 10 * c + d).
  replace (y / 1000) with a by (subst y; Z.div_mod_to_equations; lia).
  replace (y / 100 mod 10) with b by (subst y; Z.div_mod_to_equations; lia).
  replace (y / 10 mod 10) with c by (subst y; Z.div_mod_to_equations; lia).
  replace (y mod 10) with d by (subst y; Z.div_mod_to_equations; lia).
  done.
Qed.

(** ** What the directives match *)

Lemma field_text_two n a b :
  0 ≤ a ≤ 9 → 0 ≤ b ≤ 9 →
  (n = "m"%char ∧ 1 ≤ 10 * a + b ≤ 12) ∨ (n = "d"%char ∧ 1 ≤ 10 * a + b ≤ 31) ∨
  (n = "H"%char ∧ 10 * a + b ≤ 23) ∨ (n = "M"%char ∧ 10 * a + b ≤ 59) ∨
  (n = "S"%char ∧ 10 * a + b ≤ 61) ∨ n = "y"%char →
  field_text n (10 * a + b) (Str.numeral [a; b]).
Proof.
  intros Ha Hb Hn. pose proof (digits12_two a b Ha Hb) as H12.
  unfold field_text, day_text.
  destruct Hn as [[-> ?]|[[-> ?]|[[-> ?]|[[-> ?]|[[-> ?]| ->]]]]]; simpl;
    try (split; [auto|lia]).
  split; [lia|].
  replace ((10 * a + b) / 10) with a by (Z.div_mod_to_equations; lia).
  replace ((10 * a + b) mod 10) with b by (Z.div_mod_to_equations; lia).
  done.
Qed.

Lemma field_text_one n b :
  0 ≤ b ≤ 9 →
  (n = "m"%char ∧ 1 ≤ b) ∨ (n = "d"%char ∧ 1 ≤ b) ∨
  n = "H"%char ∨ n = "M"%char ∨ n = "S"%char →
  field_text n b (Str.numeral [b]).
Proof.
  intros Hb Hn. pose proof (digits12_one b Hb) as H12.
  unfold field_text, day_text.
  destruct Hn as [[-> ?]|[[-> ?]|[->|[->| ->]]]]; simpl;
    (split; [auto|lia]).
Qed.

Lemma directive_sound n alts ks s m r :
  Strptime.directive n = Some alts → ks ∈ alts →
  Strptime.match_seq ks s = Some (m, r) →
  ∃ v, field_text n v m.
Proof.
  intros Hd Hks Hm.
  destruct n as [[] [] [] [] [] [] [] []]; try discriminate Hd;
    injection Hd as <-;
    repeat (apply elem_of_cons in Hks as [->|Hks]);
    try (by apply elem_of_nil in Hks);
    try (destruct (match_seq_space _ _ _ _ _ _ Hm eq_refl)
           as (b & Hb & ? & ->); unfold code in Hb; simpl in Hb;
         exists b; unfold field_text, day_text; simpl;
         split; [right; split; [lia|done]|lia]);
    try (destruct (match_seq_2 _ _ _ _ _ _ _ _ _ Hm eq_refl eq_refl)
           as (a & b & Ha & Hb & ? & ? & ->);
         unfold code in Ha, Hb; simpl in Ha, Hb;
         exists (10 * a + b); apply field_text_two; try done;
         first [ left; split; [done|lia]
               | right; left; split; [done|lia]
               | right; right; left; split; [done|lia]
               | right; right; right; left; split; [done|lia]
               | right; right; right; right; left; split; [done|lia]
               | by repeat right ]);
    try (destruct (match_seq_1 _ _ _ _ _ _ Hm eq_refl)
           as (b & Hb & ? & ->); unfold code in Hb; simpl in Hb;
         exists b; apply field_text_one; try done;
         first [ left; split; [done|lia]
               | right; left; split; [done|lia]
               | by right; right; left
               | by right; right; right; left
               | by repeat right ]).
  (* %Y *)
  destruct (match_seq_digits 4 _ _ _ Hm) as (ds & Hlen & Hds & ->).
  destruct ds as [|a [|b [|c [|d [|]]]]]; try done.
  apply Forall_cons in Hds as [? Hds]. apply Forall_cons in Hds as [? Hds].
  apply Forall_cons in Hds as [? Hds]. apply Forall_cons in Hds as [? Hds].
  exists (1000 * a + 100 * b + 10 * c + d). unfold field_text. simpl.
  split; [lia|]. by rewrite year4_numeral.
Qed.

Lemma digits12_int v txt : digits12 v txt → Str.int txt = Some v.
Proof.
  intros [[Hv ->]|[Hv ->]].
  - rewrite int_numeral; [|done|by constructor]. simpl. f_equal; lia.
  - rewrite int_numeral; [|done|].
    + simpl. f_equal. Z.div_mod_to_equations. lia.
    + constructor; [|constructor; [|constructor]];
        Z.div_mod_to_equations; lia.
Qed.

Lemma day_text_int v txt : day_text v txt → Str.int txt = Some v.
Proof.
  intros [H|[Hv ->]]; [by apply digits12_int|]. digit_cases v; try lia; reflexivity.
Qed.

(** The text of a directive converts to the number it stands for. *)
Lemma field_text_int n v txt : field_text n v txt → Str.int txt = Some v.
Proof.
  unfold field_text. repeat case_decide; try done.
  - intros [Hx _]. by apply digits12_int.
  - intros [Hx _]. by apply day_text_int.
  - intros [Hx _]. by apply digits12_int.
  - intros [Hx _]. by apply digits12_int.
  - intros [Hx _]. by apply digits12_int.
  - intros [Hx ->]. apply digits12_int. by right.
  - intros [Hx ->]. by apply int_year4.
Qed.

(** Soundness: every match of a plain pattern spells the part of the
    text it consumed. *)
Lemma re_match_spells p s g r :
  plain p = true → (g, r) ∈ Strptime.re_match p s →
  ∃ s0, s = s0 +:+ r ∧ spells p s0 g.
Proof.
  revert s g. induction p as [|[c| |n alts] p IH]; intros s g Hp; simpl in Hp.
  - intros [-> ->]%elem_of_re_match_nil. by exists "".
  - apply andb_true_iff in Hp as [_ Hp].
    intros (c' & s' & -> & Hc & Hg)%elem_of_re_match_lit.
    destruct (IH _ _ Hp Hg) as (s0 & -> & Hs).
    exists (String c' s0). split; [done|]. simpl. by exists c', s0.
  - done.
  - apply andb_true_iff in Hp as [Hd%bool_decide_eq_true Hp].
    intros (ks & m & r1 & g' & Hks & Hm & Hg & ->)%elem_of_re_match_group.
    assert (plain p = true) as Hp' by by destruct p as [|[]].
    destruct (IH _ _ Hp' Hg) as (s0 & -> & Hs).
    destruct (directive_sound _ _ _ _ _ _ Hd Hks Hm) as (v & Hv).
    exists (m +:+ s0). split.
    + rewrite append_assoc. by apply match_seq_prefix in Hm.
    + simpl. by exists v, m, s0, g'.
Qed.

Lemma cls_match_digit_char d :
  0 ≤ d ≤ 9 → Strptime.cls_match Strptime.Digit (Str.digit_char d) = true.
Proof. intros Hd. digit_cases d; reflexivity. Qed.

Lemma match_seq_numeral ds rest :
  Forall (λ d, 0 ≤ d ≤ 9) ds →
  Strptime.match_seq (replicate (length ds) Strptime.Digit)
                     (Str.numeral ds +:+ rest) = Some (Str.numeral ds, rest).
Proof.
  induction 1 as [|d ds Hd _ IH]; [done|].
  change (Strptime.match_seq
            (Strptime.Digit :: replicate (length ds) Strptime.Digit)
            (String (Str.digit_char d) (Str.numeral ds +:+ rest)) =
          Some (String (Str.digit_char d) (Str.numeral ds), rest)).
  cbn [Strptime.match_seq]. by rewrite cls_match_digit_char, IH.
Qed.

Ltac rest_cases H :=
  let c := fresh "c" in let r := fresh "r" in let Hc := fresh "Hc" in
  destruct H as [->|(c & r & -> & Hc)];
  [|repeat (apply elem_of_cons in Hc as [->|Hc]);
    [..|by apply elem_of_nil in Hc]].

Ltac two_digit_cases v :=
  let a := fresh "a" in let b := fresh "b" in
  let Ha := fresh in let Hb := fresh in let Hv := fresh in
  assert (∃ a b, 0 ≤ a ≤ 9 ∧ 0 ≤ b ≤ 9 ∧ v = 10 * a + b ∧
                 v / 10 = a ∧ v mod 10 = b) as (a & b & Ha & Hb & Hv & -> & ->)
    by (exists (v / 10), (v mod 10); repeat split;
        Z.div_mod_to_equations; lia);
  subst v; digit_cases a; digit_cases b.

(** Completeness: before the end or a separator, the first alternative
    of a directive that matches takes the whole text of the field. *)
Lemma directive_complete n alts v txt rest :
  Strptime.directive n = Some alts → field_text n v txt → rest_ok rest →
  head (omap (λ ks, Strptime.match_seq ks (txt +:+ rest)) alts) =
  Some (txt, rest).
Proof.
  unfold field_text, day_text, digits12. intros Hd Ht Hr.
  repeat case_decide; try done; subst n; injection Hd as <-.
  - destruct Ht as [[[Hv ->]|[Hv ->]] Hrange].
    + digit_cases v; try lia; rest_cases Hr; reflexivity.
    + two_digit_cases v; try lia; reflexivity.
  - destruct Ht as [[[[Hv ->]|[Hv ->]]|[Hv ->]] Hrange].
    + digit_cases v; try lia; rest_cases Hr; reflexivity.
    + two_digit_cases v; try lia; reflexivity.
    + digit_cases v; try lia; reflexivity.
  - destruct Ht as [[[Hv ->]|[Hv ->]] Hrange].
    + digit_cases v; try lia; rest_cases Hr; reflexivity.
    + two_digit_cases v; try lia; reflexivity.
  - destruct Ht as [[[Hv ->]|[Hv ->]] Hrange].
    + digit_cases v; try lia; rest_cases Hr; reflexivity.
    + two_digit_cases v; try lia; reflexivity.
  - destruct Ht as [[[Hv ->]|[Hv ->]] Hrange].
    + digit_cases v; try lia; rest_cases Hr; reflexivity.
    + two_digit_cases v; try lia; reflexivity.
  - destruct Ht as [Hv ->]. cbn [omap list_omap].
    change [Strptime.Digit; Strptime.Digit] with
      (replicate (length [v / 10; v mod 10]) Strptime.Digit).
    rewrite match_seq_numeral; [done|].
    constructor; [|constructor; [|constructor]]; Z.div_mod_to_equations; lia.
  - destruct Ht as [Hv ->]. cbn [omap list_omap]. unfold DateTime.year4.
    change [Strptime.Digit; Strptime.Digit; Strptime.Digit; Strptime.Digit] with
      (replicate (length [v / 1000; v / 100 mod 10; v / 10 mod 10; v mod 10])
                 Strptime.Digit).
    rewrite match_seq_numeral; [done|].
    by apply year4_digits.
Qed.

(** A separator is matched by itself and, for [T], by [t]. *)
Lemma lower_separator c c' :
  separator c = true → Strptime.lower c = Strptime.lower c' →
  c' = c ∨ (c = "T" ∧ c' = "t")%char.
Proof.
  intros Hc%bool_decide_eq_true.
  repeat (apply elem_of_cons in Hc as [->|Hc]);
    [..|by apply elem_of_nil in Hc];
    destruct c' as [[] [] [] [] [] [] [] []]; intros H;
    try discriminate H; auto.
Qed.

Lemma spells_rest_ok p s g :
  plain p = true → spells p s g →
  match p with
  | [] | Strptime.Lit _ :: _ => rest_ok s
  | _ => True
  end.
Proof.
  destruct p as [|[c| |n alts] p]; simpl; try done.
  - intros _ [-> _]. by left.
  - intros [Hc _]%andb_true_iff (c' & s' & -> & Hl & _). right.
    exists c', s'. split; [done|].
    destruct (lower_separator _ _ Hc Hl) as [->|[-> ->]].
    + apply bool_decide_eq_true in Hc.
      repeat (apply elem_of_cons in Hc as [->|Hc]);
        [..|by apply elem_of_nil in Hc]; set_solver.
    + set_solver.
Qed.

(** Completeness: a text spelled by a plain pattern is matched whole, and
    first, with the groups of the spelling. *)
Lemma spells_head p s g :
  plain p = true → spells p s g →
  head (Strptime.re_match p s) = Some (g, "").
Proof.
  revert s g. induction p as [|[c| |n alts] p IH]; intros s g Hp; simpl in Hp.
  - by intros [-> ->].
  - apply andb_true_iff in Hp as [_ Hp].
    intros (c' & s' & -> & Hc & Hs). rewrite re_match_lit_head by done.
    by apply IH.
  - done.
  - apply andb_true_iff in Hp as [Hd%bool_decide_eq_true Hp].
    assert (plain p = true) as Hp' by by destruct p as [|[]].
    intros (v & txt & rest & g' & -> & Hv & Hs & ->).
    apply re_match_group_head with (r := rest); [|by apply IH].
    apply (directive_complete n alts v); [done..|].
    pose proof (spells_rest_ok p rest g' Hp' Hs) as Hr.
    by destruct p as [|[]].
Qed.

(** [strptime] on a format with a plain pattern. *)
Lemma strptime_spells s fmt p t :
  Strptime.pattern fmt = Some p → plain p = true →
  Strptime.strptime s fmt = Ok t ↔
  ∃ g f, spells p s g ∧ Strptime.convert_all Strptime.found0 g = Some f ∧
         Strptime.build f = Ok t.
Proof.
  intros Hpat Hp. unfold Strptime.strptime. rewrite Hpat. split.
  - destruct (Strptime.re_match p s) as [|[g [|c r]] l] eqn:E; try done.
    destruct (Strptime.convert_all Strptime.found0 g) as [f|] eqn:Ef; [|done].
    intros Hb. exists g, f. split; [|done].
    assert ((g, "") ∈ Strptime.re_match p s) as Hg by (rewrite E; left).
    apply re_match_spells in Hg as (s0 & -> & Hs); [|done].
    by rewrite append_nil_r.
  - intros (g & f & Hs & Hf & Hb).
    pose proof (spells_head p s g Hp Hs) as Hh.
    destruct (Strptime.re_match p s) as [|[g0 r0] l]; [done|].
    injection Hh as -> ->. by rewrite Hf.
Qed.

(** ** The four shapes *)

Lemma days_in_month_le y m : DateTime.days_in_month y m ≤ 31.
Proof.
  unfold DateTime.days_in_month.
  destruct ((m =? 2) && DateTime.is_leap y); [lia|].
  destruct m as [|p|p]; try lia.
  do 4 (try destruct p as [p|p|]); lia.
Qed.

Lemma valid_fields t :
  DateTime.valid t →
  1 ≤ DateTime.year t ≤ 9999 ∧ 1 ≤ DateTime.month t ≤ 12 ∧
  1 ≤ DateTime.day t ≤ 31 ∧ 0 ≤ DateTime.hour t ≤ 23 ∧
  0 ≤ DateTime.minute t ≤ 59 ∧ 0 ≤ DateTime.second t ≤ 59 ∧
  0 ≤ DateTime.microsecond t ≤ 999999.
Proof.
  unfold DateTime.valid, DateTime.check_date_fields, DateTime.check_time_fields,
    DateTime.MINYEAR, DateTime.MAXYEAR.
  rewrite !andb_true_iff, !Z.leb_le.
  pose proof (days_in_month_le (DateTime.year t) (DateTime.month t)). lia.
Qed.

Lemma build_date y m d h mi sec t :
  Strptime.build (Strptime.Found (Some y) m d h mi sec) = Ok t ↔
  t = DateTime.Datetime y m d h mi sec 0 ∧ DateTime.valid t.
Proof.
  unfold Strptime.build, DateTime.new, DateTime.valid. simpl. split.
  - destruct (DateTime.check_date_fields y m d) eqn:Ed; [|done]. simpl.
    destruct (DateTime.check_time_fields h mi sec 0) eqn:E; [|done].
    intros [= <-]. simpl. by rewrite Ed, E.
  - intros [-> H]. simpl in H. apply andb_true_iff in H as [-> ->]. done.
Qed.

Lemma strptime_MDY4 s t :
  Strptime.strptime s "%m/%d/%Y" = Ok t ↔ written MDY4 s t ∧ DateTime.valid t.
Proof.
  rewrite (strptime_spells s "%m/%d/%Y" _ t eq_refl eq_refl). split.
  - intros (g & f & Hs & Hf & Hb). simpl in Hs.
    destruct Hs as (vm & ms & r1 & g1 & -> & Hm & (c1 & s1 & -> & Hc1 &
      (vd & ds & r2 & g2 & -> & Hd & (c2 & s2 & -> & Hc2 &
      (vy & ys & r3 & g3 & -> & Hy & [-> ->] & ->)) & ->)) & ->).
    destruct (lower_separator "/" c1 eq_refl Hc1) as [->|[? _]]; [|done].
    destruct (lower_separator "/" c2 eq_refl Hc2) as [->|[? _]]; [|done].
    unfold Strptime.convert_all, Strptime.convert in Hf. simpl in Hf.
    rewrite (field_text_int _ _ _ Hm), (field_text_int _ _ _ Hd),
      (field_text_int _ _ _ Hy) in Hf. simpl in Hf. injection Hf as <-.
    apply build_date in Hb as [-> Hv]. split; [|done].
    unfold field_text in Hm, Hd, Hy. simpl in Hm, Hd, Hy.
    destruct Hm as [Hm _], Hd as [Hd _], Hy as [Hy ->].
    exists ms, ds. simpl. rewrite append_nil_r. done.
  - intros [(ms & ds & Hm & Hd & Hy & (Hh & Hmi & Hs & Hus) & ->) Hv].
    pose proof (valid_fields t Hv) as (? & ? & ? & _).
    eexists _, _. split; [|split].
    + simpl. exists (DateTime.month t), ms. eexists _, _.
      split; [done|]. split; [unfold field_text; simpl; done|].
      split; [|done]. exists "/"%char. eexists. split; [done|]. split; [done|].
      exists (DateTime.day t), ds. eexists _, _.
      split; [done|]. split; [unfold field_text; simpl; done|].
      split; [|done]. exists "/"%char. eexists. split; [done|]. split; [done|].
      exists (DateTime.year t), (DateTime.year4 (DateTime.year t)), "".
      eexists. split; [by rewrite append_nil_r|].
      split; [unfold field_text; simpl; done|]. done.
    + unfold Strptime.convert_all, Strptime.convert. simpl.
      rewrite (digits12_int _ _ Hm), (day_text_int _ _ Hd), int_year4 by done.
      reflexivity.
    + apply build_date. split; [|done]. destruct t. simpl in *. congruence.
Qed.

Lemma strptime_MDY2 s t :
  Strptime.strptime s "%m/%d/%y" = Ok t ↔ written MDY2 s t ∧ DateTime.valid t.
Proof.
  rewrite (strptime_spells s "%m/%d/%y" _ t eq_refl eq_refl). split.
  - intros (g & f & Hs & Hf & Hb). simpl in Hs.
    destruct Hs as (vm & ms & r1 & g1 & -> & Hm & (c1 & s1 & -> & Hc1 &
      (vd & ds & r2 & g2 & -> & Hd & (c2 & s2 & -> & Hc2 &
      (vy & ys & r3 & g3 & -> & Hy & [-> ->] & ->)) & ->)) & ->).
    destruct (lower_separator "/" c1 eq_refl Hc1) as [->|[? _]]; [|done].
    destruct (lower_separator "/" c2 eq_refl Hc2) as [->|[? _]]; [|done].
    unfold Strptime.convert_all, Strptime.convert in Hf. simpl in Hf.
    rewrite (field_text_int _ _ _ Hm), (field_text_int _ _ _ Hd),
      (field_text_int _ _ _ Hy) in Hf. simpl in Hf. injection Hf as <-.
    apply build_date in Hb as [-> Hv]. split; [|done].
    unfold field_text in Hm, Hd, Hy. simpl in Hm, Hd, Hy.
    destruct Hm as [Hm _], Hd as [Hd _], Hy as [Hy ->].
    exists ms, ds, vy. simpl. rewrite append_nil_r. done.
  - intros [(ms & ds & yy & Hm & Hd & Hyy & Hy & (Hh & Hmi & Hs & Hus) & ->) Hv].
    pose proof (valid_fields t Hv) as (? & ? & ? & _).
    eexists _, _. split; [|split].
    + simpl. exists (DateTime.month t), ms. eexists _, _.
      split; [done|]. split; [unfold field_text; simpl; done|].
      split; [|done]. exists "/"%char. eexists. split; [done|]. split; [done|].
      exists (DateTime.day t), ds. eexists _, _.
      split; [done|]. split; [unfold field_text; simpl; done|].
      split; [|done]. exists "/"%char. eexists. split; [done|]. split; [done|].
      exists yy, (Str.numeral [yy / 10; yy mod 10]), "".
      eexists. split; [by rewrite append_nil_r|].
      split; [unfold field_text; simpl; done|]. done.
    + unfold Strptime.convert_all, Strptime.convert. simpl.
      rewrite (digits12_int _ _ Hm), (day_text_int _ _ Hd).
      rewrite (digits12_int yy) by by right. reflexivity.
    + apply build_date. split; [|done]. destruct t. simpl in *.
      unfold two_digit_year in Hy. congruence.
Qed.

Lemma strptime_ISO_date s t :
  Strptime.strptime s "%Y-%m-%d" = Ok t ↔
  written ISO_date s t ∧ DateTime.valid t.
Proof.
  rewrite (strptime_spells s "%Y-%m-%d" _ t eq_refl eq_refl). split.
  - intros (g & f & Hs & Hf & Hb). simpl in Hs.
    destruct Hs as (vy & ys & r1 & g1 & -> & Hy & (c1 & s1 & -> & Hc1 &
      (vm & ms & r2 & g2 & -> & Hm & (c2 & s2 & -> & Hc2 &
      (vd & ds & r3 & g3 & -> & Hd & [-> ->] & ->)) & ->)) & ->).
    destruct (lower_separator "-" c1 eq_refl Hc1) as [->|[? _]]; [|done].
    destruct (lower_separator "-" c2 eq_refl Hc2) as [->|[? _]]; [|done].
    unfold Strptime.convert_all, Strptime.convert in Hf. simpl in Hf.
    rewrite (field_text_int _ _ _ Hm), (field_text_int _ _ _ Hd),
      (field_text_int _ _ _ Hy) in Hf. simpl in Hf. injection Hf as <-.
    apply build_date in Hb as [-> Hv]. split; [|done].
    unfold field_text in Hm, Hd, Hy. simpl in Hm, Hd, Hy.
    destruct Hm as [Hm _], Hd as [Hd _], Hy as [Hy ->].
    exists ms, ds. simpl. rewrite append_nil_r. done.
  - intros [(ms & ds & Hm & Hd & Hy & (Hh & Hmi & Hs & Hus) & ->) Hv].
    pose proof (valid_fields t Hv) as (? & ? & ? & _).
    eexists _, _. split; [|split].
    + simpl. exists (DateTime.year t), (DateTime.year4 (DateTime.year t)).
      eexists _, _.
      split; [done|]. split; [unfold field_text; simpl; done|].
      split; [|done]. exists "-"%char. eexists. split; [done|]. split; [done|].
      exists (DateTime.month t), ms. eexists _, _.
      split; [done|]. split; [unfold field_text; simpl; done|].
      split; [|done]. exists "-"%char. eexists. split; [done|]. split; [done|].
      exists (DateTime.day t), ds, "".
      eexists. split; [by rewrite append_nil_r|].
      split; [unfold field_text; simpl; done|]. done.
    + unfold Strptime.convert_all, Strptime.convert. simpl.
      rewrite int_year4 by done.
      rewrite (digits12_int _ _ Hm), (day_text_int _ _ Hd). reflexivity.
    + apply build_date. split; [|done]. destruct t. simpl in *. congruence.
Qed.

Lemma strptime_ISO_datetime s t :
  Strptime.strptime s "%Y-%m-%dT%H:%M:%S" = Ok t ↔
  written ISO_datetime s t ∧ DateTime.valid t.
Proof.
  rewrite (strptime_spells s "%Y-%m-%dT%H:%M:%S" _ t eq_refl eq_refl). split.
  - intros (g & f & Hs & Hf & Hb). simpl in Hs.
    destruct Hs as (vy & ys & r1 & g1 & -> & Hy & (c1 & s1 & -> & Hc1 &
      (vm & ms & r2 & g2 & -> & Hm & (c2 & s2 & -> & Hc2 &
      (vd & ds & r3 & g3 & -> & Hd & (c3 & s3 & -> & Hc3 &
      (vh & hs & r4 & g4 & -> & Hh & (c4 & s4 & -> & Hc4 &
      (vmi & mis & r5 & g5 & -> & Hmi & (c5 & s5 & -> & Hc5 &
      (vs & ss & r6 & g6 & -> & Hsec & [-> ->] & ->))
      & ->)) & ->)) & ->)) & ->)) & ->).
    destruct (lower_separator "-" c1 eq_refl Hc1) as [->|[? _]]; [|done].
    destruct (lower_separator "-" c2 eq_refl Hc2) as [->|[? _]]; [|done].
    destruct (lower_separator ":" c4 eq_refl Hc4) as [->|[? _]]; [|done].
    destruct (lower_separator ":" c5 eq_refl Hc5) as [->|[? _]]; [|done].
    unfold Strptime.convert_all, Strptime.convert in Hf. simpl in Hf.
    rewrite (field_text_int _ _ _ Hm), (field_text_int _ _ _ Hd),
      (field_text_int _ _ _ Hy), (field_text_int _ _ _ Hh),
      (field_text_int _ _ _ Hmi), (field_text_int _ _ _ Hsec) in Hf.
    simpl in Hf. injection Hf as <-.
    apply build_date in Hb as [-> Hv]. split; [|done].
    unfold field_text in Hm, Hd, Hy, Hh, Hmi, Hsec.
    simpl in Hm, Hd, Hy, Hh, Hmi, Hsec.
    destruct Hm as [Hm _], Hd as [Hd _], Hy as [Hy ->], Hh as [Hh _],
      Hmi as [Hmi _], Hsec as [Hsec _].
    exists ms, ds, hs, mis, ss, c3. simpl. rewrite append_nil_r.
    repeat (split; [done|]). split; [|done].
    destruct (lower_separator "T" c3 eq_refl Hc3) as [->|[_ ->]]; auto.
  - intros [(ms & ds & hs & mis & ss & sep & Hm & Hd & Hh & Hmi & Hsec & Hy &
             Hus & Hsep & ->) Hv].
    pose proof (valid_fields t Hv) as (? & ? & ? & ? & ? & ? & _).
    eexists _, _. split; [|split].
    + simpl. exists (DateTime.year t), (DateTime.year4 (DateTime.year t)).
      eexists _, _.
      split; [done|]. split; [unfold field_text; simpl; done|].
      split; [|done]. exists "-"%char. eexists. split; [done|]. split; [done|].
      exists (DateTime.month t), ms. eexists _, _.
      split; [done|]. split; [unfold field_text; simpl; done|].
      split; [|done]. exists "-"%char. eexists. split; [done|]. split; [done|].
      exists (DateTime.day t), ds. eexists _, _.
      split; [done|]. split; [unfold field_text; simpl; done|].
      split; [|done]. exists sep. eexists. split; [done|].
      split; [by destruct Hsep as [-> | ->]|].
      exists (DateTime.hour t), hs. eexists _, _.
      split; [done|]. split; [unfold field_text; simpl; done|].
      split; [|done]. exists ":"%char. eexists. split; [done|]. split; [done|].
      exists (DateTime.minute t), mis. eexists _, _.
      split; [done|]. split; [unfold field_text; simpl; done|].
      split; [|done]. exists ":"%char. eexists. split; [done|]. split; [done|].
      exists (DateTime.second t), ss, "".
      eexists. split; [by rewrite append_nil_r|].
      split; [unfold field_text; simpl; split; [done|lia]|]. done.
    + unfold Strptime.convert_all, Strptime.convert. simpl.
      rewrite int_year4 by done.
      rewrite (digits12_int _ _ Hm), (day_text_int _ _ Hd),
        (digits12_int _ _ Hh), (digits12_int _ _ Hmi), (digits12_int _ _ Hsec).
      reflexivity.
    + apply build_date. split; [|done]. destruct t. simpl in *. congruence.
Qed.

(** [strptime] with the format of a shape succeeds exactly on the texts
    that write a calendar date in that shape, and gives that date. *)
Lemma strptime_written sh s t :
  Strptime.strptime s (shape_format sh) = Ok t ↔
  written sh s t ∧ DateTime.valid t.
Proof.
  destruct sh; [apply strptime_MDY4|apply strptime_MDY2|
                apply strptime_ISO_datetime|apply strptime_ISO_date].
Qed.

(** ** [parse_date] *)

Lemma strptime_raises s fmt e :
  Strptime.strptime s fmt = Raise e → e = ValueError.
Proof.
  unfold Strptime.strptime, Strptime.build, DateTime.new.
  repeat match goal with
         | |- context [match ?x with _ => _ end] => destruct x
         end; congruence.
Qed.

Lemma shapes_total sh : ∃ i, shapes !! i = Some sh.
Proof.
  destruct sh; [by exists 0%nat|by exists 1%nat|by exists 2%nat|by exists 3%nat].
Qed.

(** The loop over the formats returns the date of the first shape that
    accepts the text, and never raises. *)
Lemma try_formats_first s (shs : list shape) :
  ∃ r, Checker.try_formats s (shape_format <$> shs) = Ok r ∧
    (∀ t, r = Some t ↔
       ∃ i sh, shs !! i = Some sh ∧ written sh s t ∧ DateTime.valid t ∧
               ∀ j sh', (j < i)%nat → shs !! j = Some sh' → ¬ accepted sh' s) ∧
    (r = None ↔ ∀ sh, sh ∈ shs → ¬ accepted sh s).
Proof.
  induction shs as [|sh shs (r & Hr & Hsome & Hnone)]; simpl.
  - exists None. split; [done|]. split.
    + intros t. split; [done|]. by intros (i & sh & ? & _).
    + split; [|done]. by intros _ sh ?%elem_of_nil.
  - destruct (Strptime.strptime s (shape_format sh)) as [t0|e] eqn:E.
    + exists (Some t0). split; [done|].
      pose proof (proj1 (strptime_written sh s t0) E) as [Hw Hv].
      split.
      * intros t. split.
        -- intros [= <-]. exists 0%nat, sh. repeat split; try done. lia.
        -- intros ([|i] & sh' & Hi & Hw' & Hv' & Hfirst).
           ++ injection Hi as <-.
              pose proof (proj2 (strptime_written sh s t) (conj Hw' Hv')).
              congruence.
           ++ destruct (Hfirst 0%nat sh); [lia|done|]. by exists t0.
      * split; [done|]. intros H. destruct (H sh); [left|]. by exists t0.
    + apply strptime_raises in E as Ee. subst e.
      assert (¬ accepted sh s) as Hno.
      { intros (t & Hw & Hv).
        pose proof (proj2 (strptime_written sh s t) (conj Hw Hv)). congruence. }
      exists r. split; [done|]. split.
      * intros t. rewrite Hsome. split.
        -- intros (i & sh' & Hi & Hw & Hv & Hfirst).
           exists (S i), sh'. repeat split; try done.
           intros [|j] sh'' Hj Hsh''; simpl in Hsh''.
           ++ by injection Hsh'' as <-.
           ++ apply (Hfirst j); [lia|done].
        -- intros ([|i] & sh' & Hi & Hw & Hv & Hfirst); simpl in Hi.
           ++ injection Hi as <-. destruct Hno. by exists t.
           ++ exists i, sh'. repeat split; try done.
              intros j sh'' Hj Hsh''. apply (Hfirst (S j)); [lia|done].
      * rewrite Hnone. split.
        -- intros H sh' [->|Hin]%elem_of_cons; auto.
        -- intros H sh' Hin. apply H. by right.
Qed.

Lemma accepted_nonempty sh s : accepted sh s → s ≠ "".
Proof.
  intros (t & Hw & Hv) ->.
  pose proof (proj2 (strptime_written sh "" t) (conj Hw Hv)) as H.
  by destruct sh.
Qed.

(** C3. [parse_date] never raises and only prints: nothing when it
    returns a date or when the value is [None] or empty, one warning
    otherwise.  It returns the date [t] exactly when the value is a text
    that writes the calendar date [t] in one of the four shapes
    (month/day/four-digit year, month/day/two-digit year, ISO date and
    time, ISO date) and no shape earlier in that order accepts the text;
    it returns [None] exactly when no shape accepts the value. *)
Theorem parse_date_total date_str w :
  Checker.parse_date date_str w =
    (World (stdout w ++
            if Str.truthy date_str && bool_decide (parsed date_str = None)
            then [Text ("Warning: Unable to parse date: " +:+
                        default "" date_str)]
            else [])
           (files w),
     Ok (parsed date_str)) ∧
  (∀ t, parsed date_str = Some t ↔
     ∃ s i sh, date_str = Some s ∧ shapes !! i = Some sh ∧
               written sh s t ∧ DateTime.valid t ∧
               ∀ j sh', (j < i)%nat → shapes !! j = Some sh' → ¬ accepted sh' s) ∧
  (parsed date_str = None ↔ ∀ s sh, date_str = Some s → ¬ accepted sh s).
Proof.
  unfold Checker.parse_date, parsed.
  destruct (Str.truthy date_str) eqn:Htr; cbn [negb andb].
  - destruct date_str as [s|]; [|done].
    change (default "" (Some s)) with s.
    destruct (try_formats_first s shapes) as (r & Hr & Hsome & Hnone).
    change (shape_format <$> shapes) with Checker.formats in Hr. rewrite Hr.
    split; [|split].
    + destruct r as [t|].
      * rewrite bool_decide_false by done. destruct w. unfold ret. simpl.
        by rewrite app_nil_r.
      * by rewrite bool_decide_true.
    + intros t. rewrite Hsome. split.
      * intros (i & sh & ?). by exists s, i, sh.
      * intros (s' & i & sh & [= <-] & ?). by exists i, sh.
    + rewrite Hnone. split.
      * intros H s' sh [= <-]. apply H.
        destruct (shapes_total sh) as [i Hi]. by eapply list_elem_of_lookup_2.
      * intros H sh _. by apply H.
  - split; [|split].
    + destruct w. unfold ret. simpl. by rewrite app_nil_r.
    + intros t. split; [done|].
      intros (s & i & sh & -> & _ & Hw & Hv & _).
      destruct s; [|done]. destruct (accepted_nonempty sh ""); [by exists t|done].
    + split; [|done]. intros _ s sh -> Ha.
      destruct s; [|done]. by destruct (accepted_nonempty sh "").
Qed.

Lemma parse_date_total_witness :
  parsed (Some "11/19/2026") = Some (DateTime.Datetime 2026 11 19 0 0 0 0) ∧
  parsed (Some "19/11/2026") = None.
Proof.
  split.
  - apply (proj1 (proj2 (parse_date_total (Some "11/19/2026") Sample.w0))).
    exists "11/19/2026", 0%nat, MDY4.
    split; [reflexivity|]. split; [reflexivity|]. split; [|split].
    + exists "11", "19". unfold digits12, day_text, midnight. simpl.
      split; [right; split; [lia|reflexivity]|].
      split; [left; right; split; [lia|reflexivity]|].
      split; [lia|]. done.
    + reflexivity.
    + intros j sh' Hj. lia.
  - apply (proj2 (proj2 (parse_date_total (Some "19/11/2026") Sample.w0))).
    intros s sh [= <-] (t & Hw & Hv).
    pose proof (proj2 (strptime_written sh "19/11/2026" t) (conj Hw Hv)) as H.
    by destruct sh.
Defined.

Section OnGlibc.
#[local] Existing Instance Sample.glibc.

(** ** A run on two domains *)

Example two_domains_report :
  Checker.expiry_text Sample.today <$> listing Sample.two_domains =
    ["09/30/2025 - EXPIRED!"; "11/19/2026 (14 days left) - RENEW SOON!"] ∧
  Checker.name <$> Checker.upcoming Sample.today (listing Sample.two_domains) =
    [Some "a.example"] ∧
  (Checker.display_domains Sample.today Sample.two_domains Sample.w0).2 = Ok tt.
Proof. vm_compute. done. Qed.
End OnGlibc.


(** * Further properties of the script *)

(** ** Files *)

Lemma frame_ret {A} (a : A) : frame (ret a).
Proof. by intros w. Qed.

Lemma frame_print s : frame (print s).
Proof. by intros w. Qed.

Lemma frame_lift {A} (r : result A) : frame (lift r).
Proof. by intros w. Qed.

Lemma frame_prints {A} (m : M A) : prints m → frame m.
Proof. intros Hm w. destruct (Hm w) as (out & a & ->). done. Qed.

Lemma frame_bind {A B} (m : M A) (k : A → M B) :
  frame m → (∀ a, frame (k a)) → frame (bind m k).
Proof.
  intros Hm Hk w. unfold bind. specialize (Hm w).
  destruct (m w) as [w1 [a|e]]; simpl in *; [|done].
  by rewrite Hk.
Qed.

Lemma frame_for_each {A} (body : A → M unit) l :
  (∀ x, frame (body x)) → frame (for_each body l).
Proof.
  intros Hb. induction l as [|x l IH]; simpl; [apply frame_ret|].
  apply frame_bind; [apply Hb|by intros _].
Qed.

Lemma frame_print_row today d : frame (Checker.print_row today d).
Proof.
  unfold Checker.print_row.
  repeat (apply frame_bind; [apply frame_lift|intros ?]). apply frame_print.
Qed.

Lemma frame_upcoming_renewals today l :
  frame (Checker.upcoming_renewals today l).
Proof.
  unfold Checker.upcoming_renewals.
  apply frame_bind; [apply frame_print|intros _].
  destruct (Checker.upcoming today l); [apply frame_print|].
  repeat (apply frame_bind; [apply frame_print|intros _]).
  apply frame_for_each. intros x. unfold Checker.print_upcoming_row.
  repeat (apply frame_bind; [apply frame_lift|intros ?]). apply frame_print.
Qed.

Lemma frame_statistics domains : frame (Checker.statistics domains).
Proof.
  unfold Checker.statistics, Checker.print_share.
  repeat (apply frame_bind; [apply frame_print|intros _]).
  repeat (apply frame_bind;
          [apply frame_bind; [apply frame_lift|by intros ?]|intros _]).
  apply frame_bind; [apply frame_lift|by intros ?].
Qed.

Lemma frame_display_domains {libc : DateTime.Platform} today domains :
  frame (Checker.display_domains today domains).
Proof.
  destruct domains as [|d ds]; [apply frame_print|].
  unfold Checker.display_domains.
  repeat (apply frame_bind; [apply frame_print|intros _]).
  apply frame_bind.
  { apply frame_prints. intros w.
    destruct (attach_dates_run (d :: ds) w) as (out & E). by eexists out, _. }
  intros l. apply frame_bind.
  { apply frame_for_each, frame_print_row. }
  intros _. apply frame_bind; [apply frame_upcoming_renewals|intros _].
  apply frame_bind; [apply frame_statistics|intros _].
  apply frame_prints, prints_calendar.
Qed.

(** X1. [display_domains] reads and writes no file: whatever the records
    and whether it ends normally or with an exception, the files are
    afterwards what they were. *)
Theorem display_domains_frame {libc : DateTime.Platform} today domains w :
  files (Checker.display_domains today domains w).1 = files w.
Proof. apply frame_display_domains. Qed.

(** ** When the report completes *)

Lemma prints_for_each_elem {A} (body : A → M unit) l :
  (∀ x, x ∈ l → prints (body x)) → prints (for_each body l).
Proof.
  induction l as [|x l IH]; intros Hb; simpl; [apply prints_ret|].
  apply prints_bind; [apply Hb; left|intros _].
  apply IH. intros y Hy. apply Hb. by right.
Qed.

Lemma prints_print_row today d : printable d → prints (Checker.print_row today d).
Proof.
  intros [Hn Hw] w. unfold Checker.print_row, bind, lift.
  destruct (Checker.name d) as [nm|]; [|done].
  destruct (Checker.whois_guard d) as [wg|]; [|done].
  eexists [_], tt. reflexivity.
Qed.

Lemma print_row_not_printable today d w :
  Checker.name d = None ∨ Checker.whois_guard d = None →
  Checker.print_row today d w = (w, Raise TypeError).
Proof.
  unfold Checker.print_row, bind, lift. intros [->| ->]; [done|].
  by destruct (Checker.name d).
Qed.

Lemma for_each_print_row_not_printable today l w :
  (∃ d, d ∈ l ∧ (Checker.name d = None ∨ Checker.whois_guard d = None)) →
  ∃ w', for_each (Checker.print_row today) l w = (w', Raise TypeError).
Proof.
  revert w. induction l as [|x l IH]; intros w (d & Hd & Hw).
  - by apply elem_of_nil in Hd.
  - simpl. destruct (Checker.print_row today x w) as [w1 [[]|e]] eqn:E.
    + rewrite (bind_ok _ _ _ _ _ E). apply IH.
      apply elem_of_cons in Hd as [->|Hd]; [|by exists d].
      rewrite print_row_not_printable in E by done. done.
    + rewrite (bind_raise _ _ _ _ _ E).
      apply raises_only_print_row in E as ->. by exists w1.
Qed.

Lemma listing_printable domains :
  (∀ d, d ∈ domains → printable d) → ∀ d, d ∈ listing domains → printable d.
Proof.
  intros H d (d0 & Hd0 & ->)%listing_elem%with_dates_elem.
  exact (H d0 Hd0).
Qed.

Lemma prints_upcoming_renewals today domains :
  (∀ d, d ∈ domains → printable d) →
  prints (Checker.upcoming_renewals today (listing domains)).
Proof.
  intros H. unfold Checker.upcoming_renewals.
  apply prints_bind; [apply prints_print|intros _].
  destruct (Checker.upcoming today (listing domains)) as [|x l] eqn:E;
    [apply prints_print|].
  repeat (apply prints_bind; [apply prints_print|intros _]).
  apply prints_for_each_elem. intros d Hd. rewrite <- E in Hd.
  apply list_elem_of_filter in Hd as [Hup Hd].
  destruct (listing_printable domains H d Hd) as [Hn _].
  pose proof (listing_date d domains Hd) as Hdate.
  unfold Checker.is_upcoming in Hup.
  destruct (Checker.expiry_date_obj d) as [t|] eqn:Ht; [|done].
  symmetry in Hdate. destruct (parsed_Some _ _ Hdate) as (s & Hs & _).
  intros w. unfold Checker.print_upcoming_row, bind, lift. rewrite Ht, Hs.
  destruct (Checker.name d) as [nm|]; [|done].
  eexists [_], tt. reflexivity.
Qed.

Lemma display_domains_printable {libc : DateTime.Platform} today domains w :
  (∀ d, d ∈ domains → printable d) →
  (Checker.display_domains today domains w).2 = Ok tt.
Proof.
  intros H. destruct (decide (domains = [])) as [->|Hne]; [done|].
  destruct (display_domains_run today domains Hne w) as (out & ->).
  assert (prints (for_each (Checker.print_row today) (listing domains) ;;;
                  Checker.upcoming_renewals today (listing domains) ;;;
                  Checker.statistics domains ;;;
                  Checker.calendar (listing domains))) as Hp.
  { apply prints_bind; [|intros _].
    { apply prints_for_each_elem. intros d Hd.
      by apply prints_print_row, (listing_printable domains). }
    apply prints_bind; [by apply prints_upcoming_renewals|intros _].
    apply prints_bind; [by apply prints_statistics|intros _].
    apply prints_calendar. }
  destruct (Hp (World (stdout w ++ out) (files w))) as (o & [] & ->). done.
Qed.

Lemma display_domains_not_printable {libc : DateTime.Platform} today domains w :
  (∃ d, d ∈ domains ∧
        (Checker.name d = None ∨ Checker.whois_guard d = None)) →
  (Checker.display_domains today domains w).2 = Raise TypeError.
Proof.
  intros (d & Hd & Hbad).
  assert (Hne : domains ≠ []) by (intros ->; by apply elem_of_nil in Hd).
  destruct (display_domains_run today domains Hne w) as (out & ->).
  edestruct (for_each_print_row_not_printable today (listing domains))
    as (w' & E).
  { exists (Checker.set_expiry_date_obj d (parsed (Checker.expires d))).
    split; [|done]. apply listing_elem. unfold with_dates.
    by apply (list_elem_of_fmap_2
      (λ d, Checker.set_expiry_date_obj d (parsed (Checker.expires d)))). }
  by rewrite (bind_raise _ _ _ _ _ E).
Qed.

Lemma printable_cases (domains : list Checker.domain) :
  (∀ d, d ∈ domains → printable d) ∨
  ∃ d, d ∈ domains ∧ (Checker.name d = None ∨ Checker.whois_guard d = None).
Proof.
  induction domains as [|x l [IH|(d & Hd & Hbad)]].
  - left. by intros d ?%elem_of_nil.
  - destruct (Checker.name x) as [nm|] eqn:Hn;
      [destruct (Checker.whois_guard x) as [wg|] eqn:Hw|].
    + left. intros d [->|Hd]%elem_of_cons; [|by apply IH].
      split; congruence.
    + right. exists x. split; [left|by right].
    + right. exists x. split; [left|by left].
  - right. exists d. split; [by right|done].
Qed.

(** X2. [display_domains] ends normally exactly when every record has a
    name and a WHOIS guard value (in particular on the empty list), and
    otherwise it ends with [TypeError]; neither the dates nor the report
    time matter. *)
Theorem display_domains_completes_iff {libc : DateTime.Platform} today domains w :
  ((Checker.display_domains today domains w).2 = Ok tt ↔
   ∀ d, d ∈ domains → printable d) ∧
  ((Checker.display_domains today domains w).2 = Raise TypeError ↔
   ∃ d, d ∈ domains ∧
        (Checker.name d = None ∨ Checker.whois_guard d = None)).
Proof.
  pose proof (display_domains_printable today domains w) as Hok.
  pose proof (display_domains_not_printable today domains w) as Hraise.
  pose proof (printable_cases domains) as Hdec.
  split; split; auto.
  - intros E. destruct Hdec as [H|H]; [done|].
    rewrite (Hraise H) in E. done.
  - intros E. destruct Hdec as [H|H]; [|done].
    rewrite (Hok H) in E. done.
Qed.

(** ** More on [get_domains] *)

(** X3. The API key is never printed or stored: two runs that differ only
    in the key end in the same console, the same files and the same
    result. *)
Theorem get_domains_hides_api_key fromstring key key' user ip r w :
  Checker.get_domains fromstring (Checker.Config key user ip) r w =
  Checker.get_domains fromstring (Checker.Config key' user ip) r w.
Proof.
  unfold Checker.get_domains, bind at 1 2 3. simpl.
  unfold bind at 1 2 3. simpl.
  unfold Checker.print_param at 1 2 3. simpl.
  reflexivity.
Qed.

(** X4. Text that is not well-formed XML: with status 200 the exception
    of the parser leaves [get_domains] uncaught, after the text was
    saved to [api_response.xml]. *)
Theorem get_domains_malformed_xml fromstring cfg r w e :
  Checker.status_code r = 200 →
  fromstring (Checker.text r) = Raise e →
  ∃ out,
    Checker.get_domains fromstring cfg r w =
    (World (stdout w ++ out)
           (<["api_response.xml" := Checker.text r]> (files w)),
     Raise e).
Proof.
  intros Hs He. destruct (get_domains_200 fromstring cfg r w Hs) as (out & ->).
  exists out. unfold bind, lift. by rewrite He.
Qed.

Lemma get_domains_malformed_xml_witness :
  Checker.status_code Sample.answer = 200 ∧
  ∃ out,
    Checker.get_domains (λ _, Raise ParseError) Sample.cfg Sample.answer
      Sample.w0 =
    (World (stdout Sample.w0 ++ out)
           (<["api_response.xml" := Checker.text Sample.answer]>
              (files Sample.w0)),
     Raise ParseError).
Proof.
  split; [reflexivity|].
  apply (get_domains_malformed_xml (λ _, Raise ParseError) Sample.cfg
           Sample.answer Sample.w0 ParseError); reflexivity.
Defined.

(** The elements [".//nc:CommandResponse/nc:DomainGetListResult/nc:Domain"]
    selects. *)
Lemma findall_domains root e :
  e ∈ ET.findall root Checker.domains_path ↔
  ∃ cr res, cr ∈ tail (ET.iter root) ∧
            ET.tag cr = Checker.nc "CommandResponse" ∧
            res ∈ ET.children cr ∧
            ET.tag res = Checker.nc "DomainGetListResult" ∧
            e ∈ ET.children res ∧ ET.tag e = Checker.nc "Domain".
Proof.
  unfold ET.findall, Checker.domains_path. simpl.
  rewrite app_nil_r, list_elem_of_bind. split.
  - intros (res & He & Hres). apply list_elem_of_filter in He as [Ht He].
    apply list_elem_of_bind in Hres as (cr & Hres & Hcr).
    apply list_elem_of_filter in Hres as [Htr Hres].
    apply list_elem_of_filter in Hcr as [Htc Hcr]. by exists cr, res.
  - intros (cr & res & Hcr & Htc & Hres & Htr & He & Ht). exists res.
    split; [by apply list_elem_of_filter|].
    apply list_elem_of_bind. exists cr.
    split; by apply list_elem_of_filter.
Qed.

(** X5. On an accepted answer (status 200, [Status="OK"]) the records
    returned come, in document order, from exactly the [Domain] children
    of the [DomainGetListResult] children of the [CommandResponse]
    elements below the root; the line ["Found N domains in response"]
    gives the number of records returned, and it is followed by at most
    the paging line, which is absent when the answer has no [Paging]
    element. *)
Theorem get_domains_found_count fromstring cfg r w root :
  Checker.status_code r = 200 →
  fromstring (Checker.text r) = Ok root →
  ET.attrib root !! "Status" = Some "OK" →
  ∃ before paging records,
    Checker.get_domains fromstring cfg r w =
    (World (stdout w ++ before ++
            [Text ("Found " +:+ Str.of_int (Z.of_nat (length records)) +:+
                   " domains in response")] ++ paging)
           (<["api_response.xml" := Checker.text r]> (files w)),
     Ok records) ∧
    records = Checker.domain_info <$> ET.findall root Checker.domains_path ∧
    (length paging ≤ 1)%nat ∧
    (ET.find root Checker.paging_path = None → paging = []) ∧
    ∀ e, e ∈ ET.findall root Checker.domains_path ↔
      ∃ cr res, cr ∈ tail (ET.iter root) ∧
                ET.tag cr = Checker.nc "CommandResponse" ∧
                res ∈ ET.children cr ∧
                ET.tag res = Checker.nc "DomainGetListResult" ∧
                e ∈ ET.children res ∧ ET.tag e = Checker.nc "Domain".
Proof.
  intros Hs Hroot Hstatus.
  destruct (get_domains_200 fromstring cfg r w Hs) as (out & ->).
  unfold bind at 1, lift. rewrite Hroot.
  rewrite decide_False by (intros ?; done).
  unfold bind at 1, print at 1. cbn [stdout files].
  exists out.
  unfold Checker.print_paging.
  destruct (ET.find root Checker.paging_path) as [pg|] eqn:Hpg.
  - eexists [_], _. split; [|split; [reflexivity|]].
    + unfold bind, print, ret. cbn [stdout files].
      rewrite length_fmap, <- !app_assoc. reflexivity.
    + split; [simpl; lia|]. split; [done|]. apply findall_domains.
  - exists [], (Checker.domain_info <$> ET.findall root Checker.domains_path).
    split; [|split; [reflexivity|]].
    + unfold bind, ret. cbn [stdout files].
      rewrite length_fmap, <- !app_assoc. reflexivity.
    + split; [simpl; lia|]. split; [done|]. apply findall_domains.
Qed.

Lemma get_domains_found_count_witness :
  Checker.status_code Sample.answer = 200 ∧
  ET.attrib Sample.listing !! "Status" = Some "OK" ∧
  ∃ before paging records,
    Checker.get_domains (λ _, Ok Sample.listing) Sample.cfg Sample.answer
      Sample.w0 =
    (World (stdout Sample.w0 ++ before ++
            [Text ("Found " +:+ Str.of_int (Z.of_nat (length records)) +:+
                   " domains in response")] ++ paging)
           (<["api_response.xml" := Checker.text Sample.answer]>
              (files Sample.w0)),
     Ok records) ∧
    records = Sample.portfolio.
Proof.
  split; [reflexivity|]. split; [reflexivity|].
  destruct (get_domains_found_count (λ _, Ok Sample.listing) Sample.cfg
              Sample.answer Sample.w0 Sample.listing eq_refl eq_refl eq_refl)
    as (before & paging & records & E & Hr & _).
  by exists before, paging, records.
Defined.

(** ** The script as a whole *)

Lemma truthy_unset v : Str.truthy v = false ↔ unset v.
Proof.
  unfold unset. destruct v as [[|c s]|]; simpl; split; try done; auto.
  - intros [|]; done.
Qed.

Lemma config_missing_unset cfg :
  Checker.config_missing cfg = true ↔
  unset (Checker.API_KEY cfg) ∨ unset (Checker.API_USER cfg) ∨
  unset (Checker.CLIENT_IP cfg).
Proof.
  unfold Checker.config_missing. rewrite <- !truthy_unset.
  destruct (Str.truthy (Checker.API_KEY cfg)),
    (Str.truthy (Checker.API_USER cfg)),
    (Str.truthy (Checker.CLIENT_IP cfg)); simpl; intuition discriminate.
Qed.

Lemma report_run {libc : DateTime.Platform} fromstring cfg now r tt today w :
  Checker.report fromstring cfg now r tt today w =
  (domains <~ Checker.get_domains fromstring cfg r ;;
   print ("Time taken: " +:+ tt +:+ " seconds") ;;;
   Checker.display_domains today domains)
    (World (stdout w ++ banner cfg now) (files w)).
Proof.
  unfold Checker.report, banner.
  unfold bind at 1 2 3 4 5 6 7, print at 1 2 3 4 5 6 7. cbn [stdout files].
  by rewrite <- !app_assoc.
Qed.

(** X6. The test of the settings: when the API key, the user name or the
    client address is unset or empty, the script prints its two error
    lines and exits with status 1, whatever the response would have
    been, and no file is written; and this is the only way to the exit
    code 1 of [exit(1)]. *)
Theorem main_settings_missing {libc : DateTime.Platform} fromstring cfg now r tt today w :
  (unset (Checker.API_KEY cfg) ∨ unset (Checker.API_USER cfg) ∨
   unset (Checker.CLIENT_IP cfg) →
   Checker.main fromstring cfg now r tt today w =
   (World (stdout w ++
           [Text "Error: Environment variables not set.";
            Text "Please create a .env file with NAMECHEAP_API_KEY, NAMECHEAP_USERNAME, and CLIENT_IP"])
          (files w),
    Checker.Exit 1)) ∧
  ((Checker.main fromstring cfg now r tt today w).2 = Checker.Exit 1 →
   unset (Checker.API_KEY cfg) ∨ unset (Checker.API_USER cfg) ∨
   unset (Checker.CLIENT_IP cfg)).
Proof.
  rewrite <- config_missing_unset. unfold Checker.main.
  destruct (Checker.config_missing cfg); split; try done.
  - intros _. unfold bind, print. cbn [stdout files].
    by rewrite <- app_assoc.
  - destruct (Checker.report _ _ _ _ _ _ _) as [w' [[]|e]]; done.
Qed.

(** The four ways [get_domains] can end. *)
Lemma get_domains_cases fromstring cfg r w :
  ∃ out,
    let saved := <["api_response.xml" := Checker.text r]> (files w) in
    (Checker.status_code r ≠ 200 ∧
     Checker.get_domains fromstring cfg r w =
     (World (stdout w ++ out) (files w), Ok [])) ∨
    (Checker.status_code r = 200 ∧ ∃ e,
     fromstring (Checker.text r) = Raise e ∧
     Checker.get_domains fromstring cfg r w =
     (World (stdout w ++ out ++
             [Text "Response saved to api_response.xml for debugging"])
            saved, Raise e)) ∨
    (Checker.status_code r = 200 ∧ ∃ root,
     fromstring (Checker.text r) = Ok root ∧
     ET.attrib root !! "Status" ≠ Some "OK" ∧
     Checker.get_domains fromstring cfg r w =
     (World (stdout w ++ out) saved, Ok [])) ∨
    (Checker.status_code r = 200 ∧ ∃ root,
     fromstring (Checker.text r) = Ok root ∧
     ET.attrib root !! "Status" = Some "OK" ∧
     Checker.get_domains fromstring cfg r w =
     (World (stdout w ++ out) saved,
      Ok (Checker.domain_info <$> ET.findall root Checker.domains_path))).
Proof.
  destruct (decide (Checker.status_code r = 200)) as [Hs|Hs].
  - destruct (get_domains_start fromstring cfg r w) as (out & E).
    rewrite decide_False in E by (intros ?; done).
    unfold bind at 1 2, write_file, print at 1 in E. cbn [stdout files] in E.
    unfold bind at 1, lift in E.
    destruct (fromstring (Checker.text r)) as [root|e] eqn:Hroot.
    + case_decide as Hst.
      * exists (out ++ [Text "Response saved to api_response.xml for debugging"]
                  ++ (error_line <$> ET.findall root Checker.errors_path)).
        right; right; left. split; [done|]. exists root.
        split; [done|]. split; [done|]. rewrite E.
        unfold bind. rewrite for_each_print_error. cbn [stdout files ret].
        by rewrite <- !app_assoc.
      * unfold bind at 1, print at 1 in E. cbn [stdout files] in E.
        match type of E with context [bind ?m ?k ?w'] =>
          destruct (prints_run m k w' (prints_print_paging _))
            as (o & [] & Ep) end.
        rewrite Ep in E. cbn [stdout files ret] in E.
        exists (out ++ [Text "Response saved to api_response.xml for debugging"]
                  ++ [Text ("Found " +:+
                            Str.of_int (Z.of_nat (length (ET.findall root
                                                   Checker.domains_path))) +:+
                            " domains in response")] ++ o).
        right; right; right.
        split; [done|]. exists root. split; [done|].
        split; [by destruct (decide (ET.attrib root !! "Status" = Some "OK"))|].
        rewrite E. by rewrite <- !app_assoc.
    + exists out. right; left. split; [done|]. exists e. split; [done|].
      rewrite E. by rewrite <- !app_assoc.
  - destruct (get_domains_not_200 fromstring cfg r w Hs) as (out & E).
    exists out. by left.
Qed.

(** After the test of the settings: the banner, the request, and on a
    list of records the time line and the report. *)
Lemma main_present {libc : DateTime.Platform} fromstring cfg now r tt today w :
  Checker.config_missing cfg = false →
  Checker.main fromstring cfg now r tt today w =
  match Checker.get_domains fromstring cfg r
          (World (stdout w ++ banner cfg now) (files w)) with
  | (w1, Ok domains) =>
      match Checker.display_domains today domains
              (World (stdout w1 ++ [Text ("Time taken: " +:+ tt +:+ " seconds")])
                     (files w1)) with
      | (w2, Ok _) => (w2, Checker.Exit 0)
      | (w2, Raise e) => (w2, Checker.Uncaught e)
      end
  | (w1, Raise e) => (w1, Checker.Uncaught e)
  end.
Proof.
  intros Hc. unfold Checker.main. rewrite Hc, report_run.
  unfold bind at 1.
  destruct (Checker.get_domains _ _ _ _) as [w1 [domains|e]]; [|done].
  unfold bind, print. done.
Qed.

(** X7. No records: with the settings present, when the transport status
    is not 200, or the answer is not [Status="OK"], or it is but holds
    no [Domain] element at the place looked at, the script still prints
    the time line, then the single line ["No domains found. ..."], and
    exits with status 0. *)
Theorem main_no_domains {libc : DateTime.Platform} fromstring cfg now r tt today w :
  Checker.config_missing cfg = false →
  (Checker.status_code r ≠ 200 ∨
   ∃ root, fromstring (Checker.text r) = Ok root ∧
           (ET.attrib root !! "Status" ≠ Some "OK" ∨
            ET.findall root Checker.domains_path = [])) →
  ∃ out,
    stdout (Checker.main fromstring cfg now r tt today w).1 =
    stdout w ++ banner cfg now ++ out ++
    [Text ("Time taken: " +:+ tt +:+ " seconds"); no_domains_line] ∧
    (Checker.main fromstring cfg now r tt today w).2 = Checker.Exit 0.
Proof.
  intros Hc Hcase. rewrite (main_present _ _ _ _ _ _ _ Hc).
  destruct (get_domains_cases fromstring cfg r
              (World (stdout w ++ banner cfg now) (files w)))
    as (out & [[Hs E]|[[Hs (e & He & E)]|[[Hs (root & Hr & Hst & E)]|
                [Hs (root & Hr & Hst & E)]]]]);
    cbn [stdout files] in E.
  - rewrite E. exists out. cbn [stdout files Checker.display_domains print fst snd].
    split; [|done]. by rewrite <- !app_assoc.
  - destruct Hcase as [?|(root & Hr & _)]; [done|]. congruence.
  - rewrite E. exists out. cbn [stdout files Checker.display_domains print fst snd].
    split; [|done]. by rewrite <- !app_assoc.
  - destruct Hcase as [?|(root' & Hr' & Hcase)]; [done|].
    assert (root' = root) as -> by congruence.
    destruct Hcase as [?|Hnil]; [done|].
    rewrite E, Hnil. exists out.
    cbn [fmap list_fmap stdout files Checker.display_domains print fst snd].
    split; [|done]. by rewrite <- !app_assoc.
Qed.

Section OnGlibc.
#[local] Existing Instance Sample.glibc.

Lemma main_no_domains_witness :
  ∃ out,
    stdout (Checker.main (λ _, Ok Sample.listing) Sample.cfg Sample.today
              Sample.not_found "0.42" Sample.today Sample.w0).1 =
    stdout Sample.w0 ++ banner Sample.cfg Sample.today ++ out ++
    [Text "Time taken: 0.42 seconds"; no_domains_line] ∧
    (Checker.main (λ _, Ok Sample.listing) Sample.cfg Sample.today
       Sample.not_found "0.42" Sample.today Sample.w0).2 = Checker.Exit 0.
Proof.
  apply (main_no_domains (λ _, Ok Sample.listing) Sample.cfg Sample.today
           Sample.not_found "0.42" Sample.today Sample.w0).
  - reflexivity.
  - left. vm_compute. discriminate.
Defined.
End OnGlibc.


(** X8. Text that is not well-formed XML ends the whole script: with the
    settings present and status 200 the exception of the parser is
    uncaught, the process status is 1, the last line printed is the one
    about the saved response (no time line, no report), and the text is
    in [api_response.xml]. *)
Theorem main_malformed_xml {libc : DateTime.Platform} fromstring cfg now r tt today w e :
  Checker.config_missing cfg = false →
  Checker.status_code r = 200 →
  fromstring (Checker.text r) = Raise e →
  ∃ out,
    Checker.main fromstring cfg now r tt today w =
    (World (stdout w ++ banner cfg now ++ out ++
            [Text "Response saved to api_response.xml for debugging"])
           (<["api_response.xml" := Checker.text r]> (files w)),
     Checker.Uncaught e) ∧
    Checker.exit_status (Checker.main fromstring cfg now r tt today w).2 = 1.
Proof.
  intros Hc Hs He. rewrite (main_present _ _ _ _ _ _ _ Hc).
  destruct (get_domains_cases fromstring cfg r
              (World (stdout w ++ banner cfg now) (files w)))
    as (out & [[? E]|[[_ (e' & He' & E)]|[[_ (root & Hr & _ & E)]|
                [_ (root & Hr & _ & E)]]]]);
    cbn [stdout files] in E; [done| |congruence..].
  assert (e' = e) as -> by congruence.
  rewrite E. exists out. split; [|done]. by rewrite <- !app_assoc.
Qed.

Section OnGlibc.
#[local] Existing Instance Sample.glibc.

Lemma main_malformed_xml_witness :
  ∃ out,
    Checker.main (λ _, Raise ParseError) Sample.cfg Sample.today Sample.answer
      "0.42" Sample.today Sample.w0 =
    (World (stdout Sample.w0 ++ banner Sample.cfg Sample.today ++ out ++
            [Text "Response saved to api_response.xml for debugging"])
           (<["api_response.xml" := Checker.text Sample.answer]>
              (files Sample.w0)),
     Checker.Uncaught ParseError) ∧
    Checker.exit_status
      (Checker.main (λ _, Raise ParseError) Sample.cfg Sample.today
         Sample.answer "0.42" Sample.today Sample.w0).2 = 1.
Proof.
  apply (main_malformed_xml (λ _, Raise ParseError) Sample.cfg Sample.today
           Sample.answer "0.42" Sample.today Sample.w0 ParseError);
    reflexivity.
Defined.
End OnGlibc.


Lemma printable_domain_info (l : list ET.Element) :
  (∀ d, d ∈ Checker.domain_info <$> l → printable d) ↔
  ∀ e, e ∈ l → named_and_guarded e.
Proof.
  split.
  - intros H e He. apply (H (Checker.domain_info e)).
    by apply (list_elem_of_fmap_2 Checker.domain_info).
  - intros H d (e & -> & He)%list_elem_of_fmap. by apply H.
Qed.

Lemma not_printable_domain_info (l : list ET.Element) :
  (∃ d, d ∈ Checker.domain_info <$> l ∧
        (Checker.name d = None ∨ Checker.whois_guard d = None)) ↔
  ∃ e, e ∈ l ∧ (ET.attrib e !! "Name" = None ∨
                ET.attrib e !! "WhoisGuard" = None).
Proof.
  split.
  - intros (d & (e & -> & He)%list_elem_of_fmap & Hbad). by exists e.
  - intros (e & He & Hbad). exists (Checker.domain_info e).
    split; [|done]. by apply (list_elem_of_fmap_2 Checker.domain_info).
Qed.

(** X9. An accepted answer, end to end: with the settings present, status
    200 and [Status="OK"], the script exits with status 0 exactly when
    every [Domain] element selected carries a [Name] and a [WhoisGuard]
    attribute, and ends with an uncaught [TypeError] exactly when one of
    them lacks one of the two; dates, flags and the clock play no part
    in it. *)
Theorem main_completes_iff {libc : DateTime.Platform} fromstring cfg now r tt today w root :
  Checker.config_missing cfg = false →
  Checker.status_code r = 200 →
  fromstring (Checker.text r) = Ok root →
  ET.attrib root !! "Status" = Some "OK" →
  ((Checker.main fromstring cfg now r tt today w).2 = Checker.Exit 0 ↔
   ∀ e, e ∈ ET.findall root Checker.domains_path → named_and_guarded e) ∧
  ((Checker.main fromstring cfg now r tt today w).2 =
   Checker.Uncaught TypeError ↔
   ∃ e, e ∈ ET.findall root Checker.domains_path ∧
        (ET.attrib e !! "Name" = None ∨ ET.attrib e !! "WhoisGuard" = None)).
Proof.
  intros Hc Hs Hroot Hst. rewrite (main_present _ _ _ _ _ _ _ Hc).
  destruct (get_domains_cases fromstring cfg r
              (World (stdout w ++ banner cfg now) (files w)))
    as (out & [[? E]|[[_ (e' & He' & E)]|[[_ (root' & Hr & Hst' & E)]|
                [_ (root' & Hr & _ & E)]]]]);
    cbn [stdout files] in E; [done|congruence|congruence|].
  assert (root' = root) as -> by congruence.
  rewrite E, <- printable_domain_info, <- not_printable_domain_info.
  set (domains := Checker.domain_info <$> ET.findall root Checker.domains_path).
  match goal with |- context [Checker.display_domains today domains ?w1] =>
    pose proof (display_domains_printable today domains w1) as Hok;
    pose proof (display_domains_not_printable today domains w1) as Hraise;
    destruct (Checker.display_domains today domains w1) as [w2 res] end.
  cbn [snd] in *.
  destruct (printable_cases domains) as [H|H].
  - rewrite (Hok H). split; split; try done.
    intros (d & Hd & Hbad).
    destruct (H d Hd) as [? ?]. by destruct Hbad.
  - rewrite (Hraise H). split; split; try done.
    intros Hall. destruct H as (d & Hd & Hbad).
    destruct (Hall d Hd) as [? ?]. by destruct Hbad.
Qed.

Section OnGlibc.
#[local] Existing Instance Sample.glibc.

Lemma main_completes_iff_witness :
  (Checker.main (λ _, Ok Sample.listing) Sample.cfg Sample.today
     Sample.answer "0.42" Sample.today Sample.w0).2 = Checker.Exit 0 ↔
  ∀ e, e ∈ ET.findall Sample.listing Checker.domains_path →
       named_and_guarded e.
Proof.
  apply (main_completes_iff (λ _, Ok Sample.listing) Sample.cfg Sample.today
           Sample.answer "0.42" Sample.today Sample.w0 Sample.listing);
    reflexivity.
Defined.
End OnGlibc.


(** X10. The only file the script ever writes is [api_response.xml], and
    it writes it exactly when the settings are present and the transport
    status is 200, with the text of the response, however the run ends
    afterwards. *)
Theorem main_files {libc : DateTime.Platform} fromstring cfg now r tt today w :
  files (Checker.main fromstring cfg now r tt today w).1 =
  if Checker.config_missing cfg then files w
  else if decide (Checker.status_code r = 200)
       then <["api_response.xml" := Checker.text r]> (files w)
       else files w.
Proof.
  destruct (Checker.config_missing cfg) eqn:Hc.
  - unfold Checker.main. by rewrite Hc.
  - rewrite (main_present _ _ _ _ _ _ _ Hc).
    pose proof (get_domains_files fromstring cfg r
                  (World (stdout w ++ banner cfg now) (files w))) as Hf.
    cbn [files] in Hf.
    destruct (Checker.get_domains _ _ _ _) as [w1 [domains|e]];
      cbn [fst] in Hf; [|done].
    match goal with |- context [Checker.display_domains today domains ?w1'] =>
      pose proof (frame_display_domains today domains w1') as Hd;
      destruct (Checker.display_domains today domains w1') as [w2 [[]|e]] end;
      cbn [fst files] in *; by rewrite Hd.
Qed.

(** X11. The exceptions the script lets through once the answer is
    there.  In a run in which the request has returned the response [r]
    and the response file could be written (a request that raises and a
    write that fails are not represented; nothing catches them either),
    an exception that ends the run is the parser's, on the text of a
    status-200 response, or it is [TypeError] on an accepted answer; in
    particular neither the divisions of the statistics nor a date that
    does not parse end such a run. *)
Theorem main_uncaught {libc : DateTime.Platform} fromstring cfg now r tt today w e :
  (Checker.main fromstring cfg now r tt today w).2 = Checker.Uncaught e →
  Checker.status_code r = 200 ∧
  (fromstring (Checker.text r) = Raise e ∨
   e = TypeError ∧ ∃ root, fromstring (Checker.text r) = Ok root ∧
                           ET.attrib root !! "Status" = Some "OK").
Proof.
  destruct (Checker.config_missing cfg) eqn:Hc.
  { unfold Checker.main. by rewrite Hc. }
  rewrite (main_present _ _ _ _ _ _ _ Hc).
  destruct (get_domains_cases fromstring cfg r
              (World (stdout w ++ banner cfg now) (files w)))
    as (out & [[? E]|[[Hs (e' & He' & E)]|[[_ (root & Hr & Hst & E)]|
                [Hs (root & Hr & Hst & E)]]]]);
    cbn [stdout files] in E; rewrite E.
  - done.
  - intros [= ->]. auto.
  - done.
  - match goal with |- context [Checker.display_domains today ?ds ?w1] =>
      pose proof (raises_only_display_domains today ds w1) as Hr';
      destruct (Checker.display_domains today ds w1) as [w2 [[]|e2]] end;
      [done|].
    intros [= ->]. split; [done|]. right.
    split; [by eapply Hr'|by exists root].
Qed.

Section OnGlibc.
#[local] Existing Instance Sample.glibc.

Lemma main_uncaught_witness :
  (Checker.main (λ _, Raise ParseError) Sample.cfg Sample.today Sample.answer
     "0.42" Sample.today Sample.w0).2 = Checker.Uncaught ParseError ∧
  Checker.status_code Sample.answer = 200 ∧
  (@Raise ET.Element ParseError = Raise ParseError ∨
   ParseError = TypeError ∧
   ∃ root, @Raise ET.Element ParseError = Ok root ∧
           ET.attrib root !! "Status" = Some "OK").
Proof.
  split; [reflexivity|].
  exact (main_uncaught (λ _, Raise ParseError) Sample.cfg Sample.today
           Sample.answer "0.42" Sample.today Sample.w0 ParseError eq_refl).
Defined.
End OnGlibc.


(** ** The thresholds in real time *)

Lemma days_left_micros today t :
  Checker.days_left today t = (micros t - micros today) `div` day_us.
Proof. exact (days_left_floor today t). Qed.

Lemma days_left_le today t (b : Z) :
  Checker.days_left today t ≤ b ↔ micros t - micros today < (b + 1) * day_us.
Proof.
  rewrite days_left_micros. unfold day_us.
  generalize (micros t - micros today). intros x.
  pose proof (Z.div_mod x 86400000000 ltac:(lia)).
  pose proof (Z.mod_pos_bound x 86400000000 ltac:(lia)). nia.
Qed.

(** X12. The thresholds of the report in elapsed time.  [delta.days]
    counts whole days, so for a record whose date lies [ahead]
    microseconds after the report time: it is among the upcoming
    renewals exactly when [ahead] is at least one day and less than 91
    days; its row says EXPIRED whenever [ahead] is less than one day,
    that is also for a date up to 24 hours in the future; RENEW SOON
    from one day up to (not including) 31 days; and only the number of
    days from 31 days on. *)
Theorem thresholds_in_elapsed_time today d t :
  Checker.expiry_date_obj d = Some t →
  let ahead := micros t - micros today in
  let n := Str.of_int (ahead `div` day_us) in
  (Checker.is_upcoming today d = true ↔ day_us ≤ ahead < 91 * day_us) ∧
  (ahead < day_us →
   Checker.expiry_text today d = shown_date d +:+ " - EXPIRED!") ∧
  (day_us ≤ ahead < 31 * day_us →
   Checker.expiry_text today d =
   shown_date d +:+ " (" +:+ n +:+ " days left) - RENEW SOON!") ∧
  (31 * day_us ≤ ahead →
   Checker.expiry_text today d = shown_date d +:+ " (" +:+ n +:+ " days left)").
Proof.
  intros Ht ahead n.
  pose proof (days_left_le today t 0) as H0.
  pose proof (days_left_le today t 30) as H30.
  pose proof (days_left_le today t 90) as H90.
  pose proof (days_left_micros today t) as Hn.
  fold ahead in H0, H30, H90, Hn.
  change ((0 + 1) * day_us) with day_us in H0.
  change ((30 + 1) * day_us) with (31 * day_us) in H30.
  change ((90 + 1) * day_us) with (91 * day_us) in H90.
  assert (He : Checker.expiry_text today d =
    if (0 <? Checker.days_left today t) && (Checker.days_left today t <=? 30)
    then shown_date d +:+ " (" +:+ n +:+ " days left) - RENEW SOON!"
    else if Checker.days_left today t <=? 0
    then shown_date d +:+ " - EXPIRED!"
    else shown_date d +:+ " (" +:+ n +:+ " days left)").
  { unfold Checker.expiry_text, shown_date, n. rewrite Ht, <- Hn. cbv zeta.
    repeat case_match; by rewrite ?append_assoc. }
  clearbody ahead. clear Hn. subst n.
  split; [|split; [|split]].
  - unfold Checker.is_upcoming. rewrite Ht, andb_true_iff, Z.ltb_lt, Z.leb_le.
    lia.
  - intros H. rewrite He.
    destruct (Z.ltb_spec 0 (Checker.days_left today t)); [lia|].
    destruct (Z.leb_spec (Checker.days_left today t) 0); [|lia]. done.
  - intros H. rewrite He.
    destruct (Z.ltb_spec 0 (Checker.days_left today t)); [|lia].
    destruct (Z.leb_spec (Checker.days_left today t) 30); [|lia]. done.
  - intros H. rewrite He.
    destruct (Z.ltb_spec 0 (Checker.days_left today t));
      destruct (Z.leb_spec (Checker.days_left today t) 30); cbn [andb]; try lia.
    destruct (Z.leb_spec (Checker.days_left today t) 0); [lia|]. done.
Qed.

(** [Sample.today] is 4 November 2026, 10:30: a date of 5 November is
    thirteen and a half hours away. *)
Lemma thresholds_in_elapsed_time_witness :
  let d := Checker.set_expiry_date_obj (Sample.record "a.example" "11/05/2026")
             (Some (DateTime.Datetime 2026 11 5 0 0 0 0)) in
  Checker.is_upcoming Sample.today d = false ∧
  Checker.expiry_text Sample.today d = "11/05/2026 - EXPIRED!".
Proof.
  pose (d := Checker.set_expiry_date_obj
               (Sample.record "a.example" "11/05/2026")
               (Some (DateTime.Datetime 2026 11 5 0 0 0 0))).
  destruct (thresholds_in_elapsed_time Sample.today d
              (DateTime.Datetime 2026 11 5 0 0 0 0) eq_refl)
    as (Hup & Hexp & _).
  split; [reflexivity|]. apply Hexp. vm_compute. reflexivity.
Defined.

(** ** Where the warnings go *)

Lemma try_formats_ok s : ∃ r, Checker.try_formats s Checker.formats = Ok r.
Proof.
  destruct (try_formats_first s shapes) as (r & Hr & _). by exists r.
Qed.

Lemma parse_date_warning date_str w :
  Checker.parse_date date_str w =
  (World (stdout w ++ warning date_str) (files w), Ok (parsed date_str)).
Proof.
  unfold Checker.parse_date, parsed, warning, parsed.
  destruct (Str.truthy date_str); cbn [negb andb].
  - destruct (try_formats_ok (default "" date_str)) as (r & ->).
    destruct r as [t|].
    + rewrite bool_decide_false by done. destruct w. unfold ret. simpl.
      by rewrite app_nil_r.
    + by rewrite bool_decide_true.
  - destruct w. unfold ret. simpl. by rewrite app_nil_r.
Qed.

Lemma attach_dates_warnings domains w :
  Checker.attach_dates domains w =
  (World (stdout w ++ (domains ≫= λ d, warning (Checker.expires d))) (files w),
   Ok (with_dates domains)).
Proof.
  revert w. induction domains as [|d ds IH]; intros w.
  - destruct w. unfold ret. simpl. by rewrite app_nil_r.
  - cbn [Checker.attach_dates].
    rewrite (bind_ok _ _ _ _ _ (parse_date_warning (Checker.expires d) w)).
    rewrite (bind_ok _ _ _ _ _ (IH _)). unfold ret. cbn [stdout files].
    by rewrite <- app_assoc.
Qed.

(** X13. Where the warnings go: on a non-empty list [display_domains]
    prints the three header lines, then one warning for each record
    whose [expires] is a non-empty text that no format parses, in the
    order of the input and not of the listing, and only then the rows
    and the other views; a record without [expires], or with an empty
    one, gives no warning. *)
Theorem display_domains_warnings {libc : DateTime.Platform} today domains w :
  domains ≠ [] →
  Checker.display_domains today domains w =
  (for_each (Checker.print_row today) (listing domains) ;;;
   Checker.upcoming_renewals today (listing domains) ;;;
   Checker.statistics domains ;;;
   Checker.calendar (listing domains))
    (World (stdout w ++ table_header domains ++
            (domains ≫= λ d, warning (Checker.expires d)))
           (files w)) ∧
  ∀ d, Str.truthy (Checker.expires d) = false → warning (Checker.expires d) = [].
Proof.
  intros Hne. split.
  - destruct domains as [|d ds]; [done|].
    unfold Checker.display_domains.
    unfold bind at 1 2 3, print at 1 2 3. cbn [stdout files].
    rewrite (bind_ok _ _ _ _ _ (attach_dates_warnings _ _)).
    cbn [stdout files]. unfold table_header.
    by rewrite <- !app_assoc.
  - intros d Hd. unfold warning. by rewrite Hd.
Qed.

Section OnGlibc.
#[local] Existing Instance Sample.glibc.

Lemma display_domains_warnings_witness :
  Checker.display_domains Sample.today Sample.mixed Sample.w0 =
  (for_each (Checker.print_row Sample.today) (listing Sample.mixed) ;;;
   Checker.upcoming_renewals Sample.today (listing Sample.mixed) ;;;
   Checker.statistics Sample.mixed ;;;
   Checker.calendar (listing Sample.mixed))
    (World (stdout Sample.w0 ++ table_header Sample.mixed ++
            (Sample.mixed ≫= λ d, warning (Checker.expires d)))
           (files Sample.w0)).
Proof.
  apply (display_domains_warnings Sample.today Sample.mixed Sample.w0).
  discriminate.
Defined.
End OnGlibc.


Example warnings_mixed :
  (Sample.mixed ≫= λ d, warning (Checker.expires d)) =
  [Text "Warning: Unable to parse date: soon"].
Proof. vm_compute. reflexivity. Qed.

(** ** The statistics view *)

Lemma count_bounds p (l : list Checker.domain) :
  0 ≤ Checker.count p l ≤ Z.of_nat (length l).
Proof.
  unfold Checker.count. pose proof (length_filter (λ d, p d = true) l). lia.
Qed.

Lemma count_all p (l : list Checker.domain) :
  Checker.count p l = Z.of_nat (length l) ↔ ∀ d, d ∈ l → p d = true.
Proof.
  unfold Checker.count. induction l as [|x l IH].
  - split; [by intros _ d ?%elem_of_nil|done].
  - rewrite filter_cons.
    pose proof (length_filter (λ d, p d = true) l) as Hle.
    case_decide as Hx; cbn [length].
    + rewrite !Nat2Z.inj_succ. split.
      * intros H d [->|Hd]%elem_of_cons; [done|]. apply IH; [lia|done].
      * intros H. f_equal. apply IH. intros d Hd. apply H. by right.
    + split; [lia|]. intros H. destruct Hx. apply H. left.
Qed.

Lemma count_none p (l : list Checker.domain) :
  Checker.count p l = 0 ↔ ∀ d, d ∈ l → p d = false.
Proof.
  unfold Checker.count. induction l as [|x l IH].
  - split; [by intros _ d ?%elem_of_nil|done].
  - rewrite filter_cons. case_decide as Hx; cbn [length].
    + split; [lia|]. intros H. rewrite (H x) in Hx; [done|left].
    + rewrite IH. split.
      * intros H d [->|Hd]%elem_of_cons; [by destruct (p x)|by apply H].
      * intros H d Hd. apply H. by right.
Qed.

Lemma share_bounds (c n : Z) :
  0 < n → 0 ≤ c ≤ n →
  (0 <= inject_Z c / inject_Z n * 100 <= 100)%Q ∧
  ((inject_Z c / inject_Z n * 100 == 100)%Q ↔ c = n) ∧
  ((inject_Z c / inject_Z n * 100 == 0)%Q ↔ c = 0).
Proof.
  intros Hn Hc. destruct n as [|n|n]; [lia| |lia].
  unfold Qle, Qeq, Qdiv, Qmult, Qinv, inject_Z. simpl.
  rewrite ?Z.mul_1_r, ?Pos.mul_1_r. lia.
Qed.

Lemma statistics_run domains w :
  domains ≠ [] →
  Checker.statistics domains w =
  (World (stdout w ++ statistics_lines domains) (files w), Ok tt).
Proof.
  intros Hne.
  assert (0 < Z.of_nat (length domains)) as Hn
    by (destruct domains; [done|cbn [length]; lia]).
  unfold Checker.statistics, Checker.print_share, truediv.
  destruct (Z.eqb_spec (Z.of_nat (length domains)) 0) as [|_]; [lia|].
  unfold bind, print, print_line, lift. cbn [stdout files].
  by rewrite <- !app_assoc.
Qed.

(** X14. The statistics view of a non-empty list: five lines, the three
    percentages being the counts over the number of records times 100,
    so each lies between 0 and 100, is 100 exactly when every record has
    the property and 0 exactly when none has. *)
Theorem statistics_shares domains w :
  domains ≠ [] →
  Checker.statistics domains w =
  (World (stdout w ++
          [Text (Checker.nl +:+ "--- Domain Statistics ---");
           Text ("Total domains: " +:+ Str.of_int (Z.of_nat (length domains)));
           share_line "Auto-renew enabled" Checker.auto_renew domains;
           share_line "Locked domains" Checker.is_locked domains;
           share_line "WHOIS guard enabled"
             (λ d, bool_decide (Checker.whois_guard d = Some "ENABLED")) domains])
         (files w), Ok tt) ∧
  ∀ p, (0 <= share p domains <= 100)%Q ∧
       ((share p domains == 100)%Q ↔ ∀ d, d ∈ domains → p d = true) ∧
       ((share p domains == 0)%Q ↔ ∀ d, d ∈ domains → p d = false).
Proof.
  intros Hne.
  assert (0 < Z.of_nat (length domains)) as Hn
    by (destruct domains; [done|cbn [length]; lia]).
  split; [by apply statistics_run|].
  - intros p.
    destruct (share_bounds (Checker.count p domains)
                (Z.of_nat (length domains)) Hn (count_bounds p domains))
      as (Hb & H100 & H0).
    unfold share. split; [done|]. split.
    + by rewrite H100, count_all.
    + by rewrite H0, count_none.
Qed.

Lemma statistics_shares_witness :
  (share Checker.auto_renew Sample.two_domains == 0)%Q ↔
  ∀ d, d ∈ Sample.two_domains → Checker.auto_renew d = false.
Proof.
  destruct (statistics_shares Sample.two_domains Sample.w0) as [_ H];
    [done|].
  apply (H Checker.auto_renew).
Defined.

(** ** The calendar as a partition *)

Lemma strftime_B_Y_inj {libc : DateTime.Platform} t1 t2 :
  DateTime.valid t1 → DateTime.valid t2 →
  DateTime.strftime_B_Y t1 = DateTime.strftime_B_Y t2 ↔
  DateTime.year t1 = DateTime.year t2 ∧ DateTime.month t1 = DateTime.month t2.
Proof.
  intros H1 H2. split.
  - intros E. apply (f_equal Checker.month_year_key) in E.
    rewrite !month_year_key_strftime in E by done. by injection E.
  - intros [Hy Hm]. unfold DateTime.strftime_B_Y. by rewrite Hy, Hm.
Qed.

Lemma filter_split {A} (P Q R : A → Prop)
    `{∀ x, Decision (P x)} `{∀ x, Decision (Q x)} `{∀ x, Decision (R x)}
    (l : list A) :
  (∀ x, x ∈ l → R x ↔ P x ∨ Q x) → (∀ x, x ∈ l → P x → Q x → False) →
  filter R l ≡ₚ filter P l ++ filter Q l.
Proof.
  induction l as [|x l IH]; intros HR Hdis; [done|].
  rewrite !filter_cons.
  assert (filter R l ≡ₚ filter P l ++ filter Q l) as IH'.
  { apply IH; intros y Hy; [apply HR|apply Hdis]; by right. }
  pose proof (HR x ltac:(left)) as Hx. pose proof (Hdis x ltac:(left)) as Hd.
  destruct (decide (R x)), (decide (P x)), (decide (Q x)); try tauto.
  - simpl. by rewrite IH'.
  - rewrite IH'. by rewrite Permutation_middle.
Qed.

(** The groups of distinct labels [ks] hold together the records whose
    label is one of [ks]. *)
Lemma concat_members {libc : DateTime.Platform} ks (l : list Checker.domain) :
  NoDup ks →
  concat ((λ k, members k l) <$> ks) ≡ₚ
  filter (λ d, Exists (λ k, group_label d = Some k) ks) l.
Proof.
  induction ks as [|k ks IH]; intros Hnd.
  - simpl. induction l as [|x l IHl]; [done|].
    rewrite filter_cons. case_decide as Hx; [|done].
    by apply Exists_nil in Hx.
  - apply NoDup_cons in Hnd as [Hk Hnd]. cbn [fmap list_fmap concat].
    rewrite (IH Hnd). symmetry. unfold members.
    apply (filter_split (λ d, group_label d = Some k)
             (λ d, Exists (λ k0, group_label d = Some k0) ks)).
    + intros d _. by rewrite Exists_cons.
    + intros d _ Hl (k0 & Hk0 & Hl')%Exists_exists. congruence.
Qed.

Lemma groups_of_members {libc : DateTime.Platform} l groups :
  groups_of l groups → groups.*2 = (λ k, members k l) <$> groups.*1.
Proof.
  intros (_ & Hall & _). induction Hall as [|[k ds] groups [_ Hg] _ IH]; [done|].
  rewrite !fmap_cons. f_equal; [exact Hg|exact IH].
Qed.

Lemma groups_of_partition {libc : DateTime.Platform} l groups :
  groups_of l groups →
  concat groups.*2 ≡ₚ filter (λ d, Checker.expiry_date_obj d ≠ None) l.
Proof.
  intros Hg. rewrite (groups_of_members l groups Hg).
  destruct Hg as (Hnd & _ & Hkeys). rewrite (concat_members _ l Hnd).
  clear Hnd. induction l as [|x l IH]; [done|].
  rewrite !filter_cons.
  assert (Hl : ∀ d k, d ∈ l → group_label d = Some k → k ∈ groups.*1).
  { intros d k Hd. apply Hkeys. by right. }
  specialize (IH Hl).
  destruct (decide (Checker.expiry_date_obj x ≠ None)) as [Hx|Hx];
    case_decide as Hx'.
  - by rewrite IH.
  - destruct Hx'. apply Exists_exists. unfold group_label in *.
    destruct (Checker.expiry_date_obj x) as [t|] eqn:Ht; [|done].
    exists (DateTime.strftime_B_Y t). split; [|done].
    apply (Hkeys x); [left|]. by rewrite Ht.
  - apply Exists_exists in Hx' as (k & _ & Hk). unfold group_label in Hk.
    destruct (Checker.expiry_date_obj x); [by destruct Hx|done].
  - done.
Qed.

(** Every group of the listing is labelled by the month of a valid
    date. *)
Lemma calendar_group_label {libc : DateTime.Platform} domains g :
  g ∈ Checker.calendar_groups (listing domains) →
  ∃ t, DateTime.valid t ∧ g.1 = DateTime.strftime_B_Y t.
Proof.
  intros Hg. destruct g as [k ds].
  apply (groups_of_elem _ _ k ds (calendar_groups_of (listing domains))) in Hg
    as [Hne ->].
  destruct (members k (listing domains)) as [|d ?] eqn:Em; [done|].
  assert (d ∈ members k (listing domains)) as [Hl Hd]%list_elem_of_filter
    by (rewrite Em; left).
  unfold group_label in Hl.
  destruct (Checker.expiry_date_obj d) as [t|] eqn:Ht; [|done].
  exists t. split; [by eapply listing_valid|]. simpl in *. congruence.
Qed.

Lemma pair_lt_total a b :
  Checker.pair_lt b a = false → a ≠ b → Checker.pair_lt a b = true.
Proof.
  unfold Checker.pair_lt. destruct a as [a1 a2], b as [b1 b2]. simpl.
  intros H Hne.
  destruct (Z.ltb_spec a1 b1), (Z.ltb_spec b1 a1), (Z.eqb_spec a1 b1),
    (Z.eqb_spec b1 a1), (Z.ltb_spec a2 b2), (Z.ltb_spec b2 a2);
    simpl in *; try done; try lia.
  destruct Hne. f_equal; lia.
Qed.

Lemma sorted_groups_strict {libc : DateTime.Platform} (groups : list (string * list Checker.domain)) :
  NoDup groups.*1 →
  Forall (λ g, ∃ t, DateTime.valid t ∧ g.1 = DateTime.strftime_B_Y t) groups →
  StronglySorted (key_le Checker.pair_lt (λ g, Checker.month_year_key g.1))
                 groups →
  StronglySorted (λ g1 g2, Checker.pair_lt (Checker.month_year_key g1.1)
                             (Checker.month_year_key g2.1) = true) groups.
Proof.
  induction groups as [|g groups IH]; intros Hnd Hall Hs; [constructor|].
  apply NoDup_cons in Hnd as [Hg Hnd].
  apply Forall_cons in Hall as [(t & Hv & Ht) Hall].
  apply StronglySorted_cons in Hs as [Hgl Hs].
  apply StronglySorted_cons. split; [|by apply IH].
  rewrite Forall_forall in Hgl, Hall |- *. intros g' Hg'.
  apply pair_lt_total; [by apply Hgl|].
  destruct (Hall g' Hg') as (t' & Hv' & Ht').
  rewrite Ht, Ht', !month_year_key_strftime by done. intros [= Hy Hm].
  apply Hg. apply list_elem_of_fmap. exists g'. split; [|done].
  rewrite Ht, Ht'. by apply strftime_B_Y_inj.
Qed.

(** X15. The calendar is a partition of the dated records by month: the
    groups together hold each record of the listing with a parsed date
    as often as the listing does, and no other record; two dated records
    share a group exactly when their dates have the same year and
    month; and the keys of the groups are strictly increasing, so no
    month is printed twice. *)
Theorem calendar_partition {libc : DateTime.Platform} domains :
  let l := listing domains in
  let groups := Checker.calendar_groups l in
  concat groups.*2 ≡ₚ filter (λ d, Checker.expiry_date_obj d ≠ None) l ∧
  (∀ d1 d2 t1 t2,
     d1 ∈ l → d2 ∈ l →
     Checker.expiry_date_obj d1 = Some t1 →
     Checker.expiry_date_obj d2 = Some t2 →
     (∃ g, g ∈ groups ∧ d1 ∈ g.2 ∧ d2 ∈ g.2) ↔
     DateTime.year t1 = DateTime.year t2 ∧
     DateTime.month t1 = DateTime.month t2) ∧
  StronglySorted (λ g1 g2, Checker.pair_lt (Checker.month_year_key g1.1)
                             (Checker.month_year_key g2.1) = true) groups.
Proof.
  intros l groups. pose proof (calendar_groups_of l) as Hg. fold groups in Hg.
  split; [by apply groups_of_partition|]. split.
  - intros d1 d2 t1 t2 Hd1 Hd2 Ht1 Ht2.
    pose proof (listing_valid domains d1 t1 Hd1 Ht1) as Hv1.
    pose proof (listing_valid domains d2 t2 Hd2 Ht2) as Hv2.
    rewrite <- (strftime_B_Y_inj t1 t2 Hv1 Hv2). split.
    + intros ([k ds] & Hin & H1 & H2).
      apply (groups_of_elem l groups k ds Hg) in Hin as [_ ->]. simpl in *.
      apply list_elem_of_filter in H1 as [H1 _].
      apply list_elem_of_filter in H2 as [H2 _].
      unfold group_label in *. rewrite Ht1 in H1. rewrite Ht2 in H2.
      simpl in *. congruence.
    + intros E. set (k := DateTime.strftime_B_Y t1).
      assert (group_label d1 = Some k) as Hl1
        by (unfold group_label; by rewrite Ht1).
      assert (group_label d2 = Some k) as Hl2
        by (unfold group_label, k; by rewrite Ht2, E).
      exists (k, members k l). split; [|split].
      * apply (groups_of_elem l groups k _ Hg). split; [|done].
        intros Hnil. assert (d1 ∈ members k l) as Hin
          by (by apply list_elem_of_filter).
        rewrite Hnil in Hin. by apply elem_of_nil in Hin.
      * by apply list_elem_of_filter.
      * by apply list_elem_of_filter.
  - apply sorted_groups_strict; [apply Hg| |apply calendar_groups_sorted].
    apply Forall_forall. intros g. apply calendar_group_label.
Qed.

(** ** The listing in elapsed time *)

Ltac month_cases m :=
  let H := fresh in
  assert (m = 1 ∨ m = 2 ∨ m = 3 ∨ m = 4 ∨ m = 5 ∨ m = 6 ∨ m = 7 ∨
          m = 8 ∨ m = 9 ∨ m = 10 ∨ m = 11 ∨ m = 12) as H by lia;
  destruct H as [->|[->|[->|[->|[->|[->|[->|[->|[->|[->|[->| ->]]]]]]]]]]].

Lemma days_before_year_succ y :
  DateTime.days_before_year (y + 1) =
  DateTime.days_before_year y + 365 + (if DateTime.is_leap y then 1 else 0).
Proof.
  unfold DateTime.days_before_year, DateTime.is_leap. cbv zeta.
  replace (y + 1 - 1) with y by lia.
  destruct (Z.eqb_spec (y mod 4) 0), (Z.eqb_spec (y mod 100) 0),
    (Z.eqb_spec (y mod 400) 0); cbn [andb orb negb];
    Z.div_mod_to_equations; lia.
Qed.

Lemma days_before_year_mono y1 y2 :
  y1 < y2 →
  DateTime.days_before_year y1 + 365 +
    (if DateTime.is_leap y1 then 1 else 0) ≤ DateTime.days_before_year y2.
Proof.
  intros H. replace y2 with (y1 + 1 + Z.of_nat (Z.to_nat (y2 - y1 - 1))) by lia.
  generalize (Z.to_nat (y2 - y1 - 1)). intros n. induction n as [|n IH].
  - rewrite Z.add_0_r, days_before_year_succ. lia.
  - replace (y1 + 1 + Z.of_nat (S n)) with (y1 + 1 + Z.of_nat n + 1) by lia.
    rewrite days_before_year_succ. destruct (DateTime.is_leap (_ + _)); lia.
Qed.

Lemma day_of_year_bounds y m d :
  1 ≤ m ≤ 12 → 1 ≤ d ≤ DateTime.days_in_month y m →
  1 ≤ DateTime.days_before_month y m + d ≤
  365 + (if DateTime.is_leap y then 1 else 0).
Proof.
  intros Hm. unfold DateTime.days_before_month, DateTime.days_in_month.
  destruct (DateTime.is_leap y); month_cases m; simpl; lia.
Qed.

Lemma days_before_month_mono y m1 m2 d :
  1 ≤ m1 → m1 < m2 → m2 ≤ 12 → d ≤ DateTime.days_in_month y m1 →
  DateTime.days_before_month y m1 + d ≤ DateTime.days_before_month y m2.
Proof.
  intros H1 H12 H2. unfold DateTime.days_before_month, DateTime.days_in_month.
  destruct (DateTime.is_leap y); month_cases m1; month_cases m2;
    simpl; lia.
Qed.

Lemma valid_day t :
  DateTime.valid t →
  1 ≤ DateTime.day t ≤ DateTime.days_in_month (DateTime.year t) (DateTime.month t).
Proof.
  unfold DateTime.valid, DateTime.check_date_fields.
  rewrite !andb_true_iff, !Z.leb_le. lia.
Qed.

(** The ordinal of a date grows with the date. *)
Lemma toordinal_mono a b :
  DateTime.valid a → DateTime.valid b →
  DateTime.year a < DateTime.year b ∨
  DateTime.year a = DateTime.year b ∧
    (DateTime.month a < DateTime.month b ∨
     DateTime.month a = DateTime.month b ∧ DateTime.day a < DateTime.day b) →
  DateTime.toordinal a < DateTime.toordinal b.
Proof.
  intros Ha Hb.
  pose proof (valid_fields a Ha) as (_ & Hma & _).
  pose proof (valid_fields b Hb) as (_ & Hmb & _).
  pose proof (valid_day a Ha) as Hda. pose proof (valid_day b Hb) as Hdb.
  unfold DateTime.toordinal, DateTime.ymd2ord.
  intros [Hy|[Hy [Hm|[Hm Hd]]]].
  - pose proof (days_before_year_mono _ _ Hy).
    pose proof (day_of_year_bounds _ _ _ Hma Hda).
    pose proof (day_of_year_bounds _ _ _ Hmb Hdb). lia.
  - rewrite Hy in *.
    pose proof (days_before_month_mono (DateTime.year b) (DateTime.month a)
                  (DateTime.month b) (DateTime.day a)
                  ltac:(lia) Hm ltac:(lia) ltac:(lia)). lia.
  - rewrite Hy, Hm. lia.
Qed.

Lemma lt_micros a b :
  DateTime.valid a → DateTime.valid b →
  DateTime.lt a b = true → micros a < micros b.
Proof.
  intros Ha Hb.
  pose proof (toordinal_mono a b Ha Hb) as Hord.
  pose proof (valid_fields a Ha) as Hfa. pose proof (valid_fields b Hb) as Hfb.
  unfold micros. unfold DateTime.lt, DateTime.fields. cbn [DateTime.lex_lt].
  assert (DateTime.year a = DateTime.year b → DateTime.month a = DateTime.month b →
          DateTime.day a = DateTime.day b →
          DateTime.toordinal a = DateTime.toordinal b) as Heq.
  { unfold DateTime.toordinal. by intros -> -> ->. }
  revert Hord Heq.
  generalize (DateTime.toordinal a) (DateTime.toordinal b). intros oa ob Hord Heq.
  rewrite andb_false_r, orb_false_r.
  rewrite !orb_true_iff, !andb_true_iff, !Z.ltb_lt, !Z.eqb_eq.
  lia.
Qed.

Lemma le_micros a b :
  DateTime.valid a → DateTime.valid b →
  DateTime.lt b a = false ↔ micros a ≤ micros b.
Proof.
  intros Ha Hb. split.
  - intros H. destruct (DateTime.lt a b) eqn:E.
    + apply lt_micros in E; [lia|done..].
    + by rewrite (datetime_lt_total a b E H).
  - intros H. destruct (DateTime.lt b a) eqn:E; [|done].
    apply lt_micros in E; [lia|done..].
Qed.

Lemma days_left_mono today a b :
  micros a ≤ micros b → Checker.days_left today a ≤ Checker.days_left today b.
Proof.
  intros H. rewrite !days_left_micros. apply Z.div_le_mono; [done|lia].
Qed.

Lemma StronglySorted_filter {A} (R : A → A → Prop) (P : A → Prop)
    `{∀ x, Decision (P x)} l :
  StronglySorted R l → StronglySorted R (filter P l).
Proof.
  induction l as [|x l IH]; intros Hs; [constructor|].
  apply StronglySorted_cons in Hs as [Hx Hs]. rewrite filter_cons.
  case_decide; [|by apply IH].
  apply StronglySorted_cons. split; [|by apply IH].
  rewrite Forall_forall in Hx |- *.
  intros y [_ Hy]%list_elem_of_filter. by apply Hx.
Qed.

Lemma listing_not_earlier today domains :
  StronglySorted (not_earlier today) (listing domains).
Proof.
  apply (StronglySorted_weaken listing_order (not_earlier today)
           (λ d, ∀ t, Checker.expiry_date_obj d = Some t → DateTime.valid t)).
  - intros a b Ha Hb Hab ta tb Hta Htb. unfold listing_order in Hab.
    rewrite Hta, Htb in Hab.
    apply (le_micros ta tb (Ha ta Hta) (Hb tb Htb)) in Hab.
    split; [done|by apply days_left_mono].
  - apply Forall_forall. intros d Hd t. by apply (listing_valid domains).
  - apply sort_domains_ordered.
Qed.

(** X16. The comparison of datetimes the sort uses agrees with elapsed
    time, so the listing is chronological: down the listing, and so
    down the upcoming renewals and inside every calendar group, the
    dates of the dated records never go back in time and the numbers of
    days left never decrease. *)
Theorem listing_chronological {libc : DateTime.Platform} today domains :
  let l := listing domains in
  (∀ ta tb, DateTime.valid ta → DateTime.valid tb →
     DateTime.lt ta tb = true ↔ micros ta < micros tb) ∧
  StronglySorted (not_earlier today) l ∧
  StronglySorted (not_earlier today) (Checker.upcoming today l) ∧
  ∀ g, g ∈ Checker.calendar_groups l → StronglySorted (not_earlier today) g.2.
Proof.
  intros l. pose proof (listing_not_earlier today domains) as Hl. fold l in Hl.
  split; [|split; [done|split]].
  - intros ta tb Ha Hb. split; [by apply lt_micros|].
    intros H. destruct (DateTime.lt ta tb) eqn:E; [done|].
    apply (le_micros tb ta Hb Ha) in E. lia.
  - by apply StronglySorted_filter.
  - intros [k ds] Hg.
    apply (groups_of_elem l _ k ds (calendar_groups_of l)) in Hg as [_ ->].
    by apply StronglySorted_filter.
Qed.

(** ** The four formats exclude one another *)

Lemma skeleton_app a b : skeleton (a +:+ b) = skeleton a +:+ skeleton b.
Proof.
  induction a as [|c a IH]; [done|].
  rewrite append_cons. cbn [skeleton]. by rewrite IH, append_cons.
Qed.

Lemma skeleton_one v : 0 ≤ v ≤ 9 → skeleton (Str.numeral [v]) = "d".
Proof. intros Hv. cbn [skeleton Str.numeral]. by rewrite digit_val_digit_char. Qed.

Lemma skeleton_two v :
  0 ≤ v ≤ 99 → skeleton (Str.numeral [v / 10; v mod 10]) = "dd".
Proof.
  intros Hv. cbn [skeleton Str.numeral].
  rewrite !digit_val_digit_char by (Z.div_mod_to_equations; lia). done.
Qed.

Lemma skeleton_year4 y : 0 ≤ y ≤ 9999 → skeleton (DateTime.year4 y) = "dddd".
Proof.
  intros Hy. unfold DateTime.year4. cbn [skeleton Str.numeral].
  rewrite !digit_val_digit_char by (Z.div_mod_to_equations; lia). done.
Qed.

Lemma skeleton_digits12 v txt :
  digits12 v txt → skeleton txt = "d" ∨ skeleton txt = "dd".
Proof.
  intros [[Hv ->]|[Hv ->]]; [left; by apply skeleton_one|].
  right. by apply skeleton_two.
Qed.

Lemma skeleton_day_text v txt :
  day_text v txt →
  skeleton txt = "d" ∨ skeleton txt = "dd" ∨ skeleton txt = " d".
Proof.
  intros [H|[Hv ->]].
  - destruct (skeleton_digits12 v txt H); auto.
  - right; right. change (String " " (skeleton (Str.numeral [v])) = " d").
    rewrite skeleton_one by lia. done.
Qed.

(** A text written in a shape has an outline of that shape only. *)
Lemma written_classify sh s t : written sh s t → classify (skeleton s) = sh.
Proof.
  destruct sh; cbn [written].
  - intros (ms & ds & Hm%skeleton_digits12 & Hd%skeleton_day_text & Hy & _ & ->).
    rewrite !skeleton_app, (skeleton_year4 _ Hy).
    destruct Hm as [-> | ->], Hd as [-> |[-> | ->]]; reflexivity.
  - intros (ms & ds & yy & Hm%skeleton_digits12 & Hd%skeleton_day_text &
            Hy & _ & _ & ->).
    rewrite !skeleton_app, (skeleton_two _ Hy).
    destruct Hm as [-> | ->], Hd as [-> |[-> | ->]]; reflexivity.
  - intros (ms & ds & hs & mis & ss & sep & Hm%skeleton_digits12 &
            Hd%skeleton_day_text & Hh%skeleton_digits12 &
            Hmi%skeleton_digits12 & Hs%skeleton_digits12 & Hy & _ & Hsep & ->).
    rewrite !skeleton_app. cbn [skeleton]. rewrite !skeleton_app.
    rewrite (skeleton_year4 _ Hy).
    destruct Hsep as [-> | ->], Hm as [-> | ->], Hd as [-> |[-> | ->]],
      Hh as [-> | ->], Hmi as [-> | ->], Hs as [-> | ->]; reflexivity.
  - intros (ms & ds & Hm%skeleton_digits12 & Hd%skeleton_day_text & Hy & _ & ->).
    rewrite !skeleton_app, (skeleton_year4 _ Hy).
    destruct Hm as [-> | ->], Hd as [-> |[-> | ->]]; reflexivity.
Qed.

Lemma accepted_unique sh sh' s : accepted sh s → accepted sh' s → sh = sh'.
Proof.
  intros (t & Hw & _) (t' & Hw' & _).
  apply written_classify in Hw, Hw'. congruence.
Qed.

Lemma written_unique sh s t t' :
  written sh s t → DateTime.valid t → written sh s t' → DateTime.valid t' →
  t = t'.
Proof.
  intros Hw Hv Hw' Hv'.
  pose proof (proj2 (strptime_written sh s t) (conj Hw Hv)) as E.
  pose proof (proj2 (strptime_written sh s t') (conj Hw' Hv')) as E'.
  congruence.
Qed.

(** Whatever the order of the shapes tried, the date returned is the one
    the text writes in some shape of the list. *)
Lemma try_formats_any s (shs : list shape) :
  ∃ r, Checker.try_formats s (shape_format <$> shs) = Ok r ∧
       ∀ t, r = Some t ↔ ∃ sh, sh ∈ shs ∧ written sh s t ∧ DateTime.valid t.
Proof.
  destruct (try_formats_first s shs) as (r & Hr & Hsome & Hnone).
  exists r. split; [done|]. intros t. split.
  - intros (i & sh & Hi & Hw & Hv & _)%Hsome. exists sh.
    split; [by eapply list_elem_of_lookup_2|done].
  - intros (sh & Hin & Hw & Hv). destruct r as [t0|].
    + destruct (proj1 (Hsome t0) eq_refl) as (i & sh0 & Hi & Hw0 & Hv0 & _).
      assert (sh0 = sh) as ->
        by (apply (accepted_unique _ _ s); [by exists t0|by exists t]).
      f_equal. by eapply written_unique.
    + destruct (proj1 Hnone eq_refl sh Hin). by exists t.
Qed.

(** X17. The four formats exclude one another: a text is a valid date in
    at most one of them, so the date [parse_date] returns for a text is
    the date the text writes in whichever format accepts it, and trying
    the formats in any other order returns the same. *)
Theorem formats_exclusive s :
  (∀ sh sh', accepted sh s → accepted sh' s → sh = sh') ∧
  (∀ t, parsed (Some s) = Some t ↔
        ∃ sh, written sh s t ∧ DateTime.valid t) ∧
  (∀ shs, shs ≡ₚ shapes →
     Checker.try_formats s (shape_format <$> shs) =
     Checker.try_formats s Checker.formats).
Proof.
  split; [intros sh sh'; apply accepted_unique|]. split.
  - intros t. destruct (try_formats_any s shapes) as (r & Hr & Hiff).
    change (shape_format <$> shapes) with Checker.formats in Hr.
    destruct s as [|c s'].
    + split; [done|]. intros (sh & Hw & Hv).
      by destruct (accepted_nonempty sh ""); [exists t|].
    + change (parsed (Some (String c s'))) with
        (match Checker.try_formats (String c s') Checker.formats with
         | Ok v => v
         | Raise _ => None
         end).
      rewrite Hr, Hiff. split.
      * intros (sh & _ & H). by exists sh.
      * intros (sh & H). exists sh. split; [|done].
        destruct (shapes_total sh) as [i Hi]. by eapply list_elem_of_lookup_2.
  - intros shs Hp.
    destruct (try_formats_any s shs) as (r & Hr & Hiff).
    destruct (try_formats_any s shapes) as (r' & Hr' & Hiff').
    change (shape_format <$> shapes) with Checker.formats in Hr'.
    rewrite Hr, Hr'. f_equal.
    assert (∀ t, r = Some t ↔ r' = Some t) as H.
    { intros t. rewrite Hiff, Hiff'. by setoid_rewrite Hp. }
    destruct r as [t|]; [symmetry; by apply H|].
    destruct r' as [t'|]; [by apply H|done].
Qed.

(** ** Writing a date and reading it back *)

Lemma digits12_two_digits v : 0 ≤ v ≤ 99 → digits12 v (DateTime.two_digits v).
Proof. intros Hv. by right. Qed.

Lemma written_render sh t :
  DateTime.valid t → expressible sh t → written sh (render sh t) t.
Proof.
  intros Hv (Hus & Hmid & Hyy).
  destruct (valid_fields t Hv) as (Hy & Hm & Hd & Hh & Hmi & Hs & _).
  destruct sh; cbn [written render].
  - exists (DateTime.two_digits (DateTime.month t)),
      (DateTime.two_digits (DateTime.day t)).
    split; [apply digits12_two_digits; lia|].
    split; [left; apply digits12_two_digits; lia|].
    split; [lia|]. split; [by apply Hmid|done].
  - exists (DateTime.two_digits (DateTime.month t)),
      (DateTime.two_digits (DateTime.day t)), (DateTime.year t `mod` 100).
    split; [apply digits12_two_digits; lia|].
    split; [left; apply digits12_two_digits; lia|].
    specialize (Hyy eq_refl).
    split; [Z.div_mod_to_equations; lia|].
    split; [|split; [by apply Hmid|done]].
    unfold two_digit_year.
    destruct (Z.leb_spec (DateTime.year t `mod` 100) 68);
      Z.div_mod_to_equations; lia.
  - exists (DateTime.two_digits (DateTime.month t)),
      (DateTime.two_digits (DateTime.day t)),
      (DateTime.two_digits (DateTime.hour t)),
      (DateTime.two_digits (DateTime.minute t)),
      (DateTime.two_digits (DateTime.second t)), "T"%char.
    split; [apply digits12_two_digits; lia|].
    split; [left; apply digits12_two_digits; lia|].
    split; [apply digits12_two_digits; lia|].
    split; [apply digits12_two_digits; lia|].
    split; [apply digits12_two_digits; lia|].
    split; [lia|]. split; [done|]. split; [by left|done].
  - exists (DateTime.two_digits (DateTime.month t)),
      (DateTime.two_digits (DateTime.day t)).
    split; [apply digits12_two_digits; lia|].
    split; [left; apply digits12_two_digits; lia|].
    split; [lia|]. split; [by apply Hmid|done].
Qed.

(** X18. Round trip: a valid date written in any of the four formats
    with every field at full width is read back by [parse_date] as the
    same date, provided the format can express it: no microseconds, no
    time of day except in the ISO datetime, and with a two-digit year a
    year from 1969 to 2068. *)
Theorem parse_render_round_trip sh t w :
  DateTime.valid t → expressible sh t →
  Checker.parse_date (Some (render sh t)) w = (w, Ok (Some t)).
Proof.
  intros Hv He. pose proof (written_render sh t Hv He) as Hw.
  destruct (try_formats_any (render sh t) shapes) as (r & Hr & Hiff).
  change (shape_format <$> shapes) with Checker.formats in Hr.
  assert (r = Some t) as ->.
  { apply Hiff. exists sh. split; [|done].
    destruct (shapes_total sh) as [i Hi]. by eapply list_elem_of_lookup_2. }
  unfold Checker.parse_date.
  assert (Str.truthy (Some (render sh t)) = true) as ->.
  { destruct (render sh t) eqn:E; [|done].
    by destruct (accepted_nonempty sh ""); [exists t; rewrite <- E|]. }
  cbn [negb]. change (default "" (Some (render sh t))) with (render sh t).
  rewrite Hr. by destruct w.
Qed.

Lemma parse_render_round_trip_witness :
  Checker.parse_date (Some "05/09/69") Sample.w0 =
  (Sample.w0, Ok (Some (DateTime.Datetime 1969 5 9 0 0 0 0))).
Proof.
  apply (parse_render_round_trip MDY2 (DateTime.Datetime 1969 5 9 0 0 0 0)
           Sample.w0).
  - reflexivity.
  - split; [reflexivity|]. split; [done|]. intros _. simpl. lia.
Defined.

(** ** The whole report *)

Lemma outputs_bind {A B} (m : M A) (k : A → M B) o1 o2 a b :
  outputs m o1 a → outputs (k a) o2 b → outputs (bind m k) (o1 ++ o2) b.
Proof.
  intros Hm Hk w. rewrite (bind_ok _ _ _ _ _ (Hm w)), Hk. cbn [stdout files].
  by rewrite app_assoc.
Qed.

Lemma outputs_print s : outputs (print s) [Text s] tt.
Proof. by intros w. Qed.

Lemma outputs_for_each {A} (body : A → M unit) (f : A → list line) l :
  (∀ x, x ∈ l → outputs (body x) (f x) tt) →
  outputs (for_each body l) (l ≫= f) tt.
Proof.
  induction l as [|x l IH]; intros Hb.
  - intros w. destruct w. unfold ret. simpl. by rewrite app_nil_r.
  - cbn [for_each]. rewrite bind_cons.
    apply (outputs_bind _ _ _ _ tt); [apply Hb; left|].
    apply IH. intros y Hy. apply Hb. by right.
Qed.

Lemma bind_singleton {A B} (f : A → B) (l : list A) : (l ≫= λ x, [f x]) = f <$> l.
Proof. induction l as [|x l IH]; [done|]. by rewrite bind_cons, fmap_cons, IH. Qed.

Lemma print_row_outputs today d :
  printable d → outputs (Checker.print_row today d) [row_line today d] tt.
Proof.
  intros [Hn Hw] w. unfold Checker.print_row, row_line, bind, lift.
  destruct (Checker.name d) as [nm|]; [|done].
  destruct (Checker.whois_guard d) as [wg|]; [|done]. reflexivity.
Qed.

Lemma rows_output today l :
  (∀ d, d ∈ l → printable d) →
  outputs (for_each (Checker.print_row today) l) (row_line today <$> l) tt.
Proof.
  intros H. rewrite <- bind_singleton. apply outputs_for_each.
  intros d Hd. by apply print_row_outputs, H.
Qed.

Lemma upcoming_renewals_outputs today domains :
  (∀ d, d ∈ domains → printable d) →
  outputs (Checker.upcoming_renewals today (listing domains))
          (upcoming_lines today (listing domains)) tt.
Proof.
  intros H. unfold Checker.upcoming_renewals, upcoming_lines.
  apply (outputs_bind _ _ [_] _ tt); [apply outputs_print|].
  destruct (Checker.upcoming today (listing domains)) as [|x l] eqn:E;
    [apply outputs_print|].
  apply (outputs_bind _ _ [_] _ tt); [apply outputs_print|].
  apply (outputs_bind _ _ [_] _ tt); [apply outputs_print|].
  rewrite <- bind_singleton. apply outputs_for_each.
  intros d Hd. rewrite <- E in Hd.
  apply list_elem_of_filter in Hd as [Hup Hd].
  destruct (listing_printable domains H d Hd) as [Hn _].
  pose proof (listing_date d domains Hd) as Hdate.
  unfold Checker.is_upcoming in Hup.
  destruct (Checker.expiry_date_obj d) as [t|] eqn:Ht; [|done].
  symmetry in Hdate. destruct (parsed_Some _ _ Hdate) as (s & Hs & _).
  intros w. unfold Checker.print_upcoming_row, upcoming_line, bind, lift.
  rewrite Ht, Hs. destruct (Checker.name d) as [nm|]; [|done]. reflexivity.
Qed.

Lemma print_group_outputs g :
  outputs (Checker.print_group g)
          (Text (Checker.nl +:+ g.1 +:+ ":") :: (entry_line <$> g.2)) tt.
Proof.
  intros w. unfold Checker.print_group, bind, print at 1. cbn [stdout files].
  rewrite (for_each_print
    (λ d, "  - " +:+ Str.str (Checker.name d) +:+ " (Expires: " +:+
          Str.str (Checker.expires d) +:+ ")")).
  cbn [stdout files]. rewrite <- app_assoc. reflexivity.
Qed.

Lemma calendar_outputs {libc : DateTime.Platform} l : outputs (Checker.calendar l) (calendar_lines l) tt.
Proof.
  unfold Checker.calendar, calendar_lines.
  apply (outputs_bind _ _ [_] _ tt); [apply outputs_print|].
  apply outputs_for_each. intros g _. apply print_group_outputs.
Qed.

Lemma display_domains_header {libc : DateTime.Platform} today domains w :
  domains ≠ [] →
  Checker.display_domains today domains w =
  (for_each (Checker.print_row today) (listing domains) ;;;
   Checker.upcoming_renewals today (listing domains) ;;;
   Checker.statistics domains ;;;
   Checker.calendar (listing domains))
    (World (stdout w ++ table_header domains ++ warnings domains) (files w)).
Proof.
  intros Hne. destruct domains as [|d ds]; [done|].
  unfold Checker.display_domains.
  unfold bind at 1 2 3, print at 1 2 3. cbn [stdout files].
  rewrite (bind_ok _ _ _ _ _ (attach_dates_warnings _ _)).
  cbn [stdout files]. unfold table_header, warnings.
  by rewrite <- !app_assoc.
Qed.

Lemma length_calendar_lines {libc : DateTime.Platform} l groups :
  groups_of l groups →
  length (groups ≫= λ g, Text (Checker.nl +:+ g.1 +:+ ":") ::
                          (entry_line <$> g.2)) =
  (length groups +
   length (filter (λ d, Checker.expiry_date_obj d ≠ None) l))%nat.
Proof.
  intros Hg. rewrite <- (groups_of_partition l groups Hg). clear Hg.
  induction groups as [|g groups IH]; [done|].
  rewrite bind_cons, fmap_cons. cbn [concat].
  rewrite !length_app, IH. cbn [length]. rewrite length_fmap. lia.
Qed.

(** X19. The whole report.  For a non-empty list in which every record
    has a name and a WHOIS guard value, [display_domains] prints, in
    this order and nothing else: the three header lines, the warnings,
    one row for each record of the listing, the upcoming renewals, the
    five lines of the statistics and the calendar; the number of lines
    is fixed by the numbers of records, of warnings, of upcoming
    renewals, of months and of dated records. *)
Theorem display_domains_report {libc : DateTime.Platform} today domains w :
  domains ≠ [] → (∀ d, d ∈ domains → printable d) →
  let l := listing domains in
  let out := table_header domains ++ warnings domains ++
             (row_line today <$> l) ++ upcoming_lines today l ++
             statistics_lines domains ++ calendar_lines l in
  Checker.display_domains today domains w =
  (World (stdout w ++ out) (files w), Ok tt) ∧
  length out =
  (3 + length (warnings domains) + length domains +
   upcoming_height (length (Checker.upcoming today l)) + 5 +
   (1 + length (Checker.calendar_groups l) +
    length (filter (λ d, Checker.expiry_date_obj d ≠ None) l)))%nat.
Proof.
  intros Hne Hp l out. split.
  - rewrite (display_domains_header today domains w Hne). fold l.
    assert (outputs
      (for_each (Checker.print_row today) l ;;;
       Checker.upcoming_renewals today l ;;;
       Checker.statistics domains ;;;
       Checker.calendar l)
      ((row_line today <$> l) ++ upcoming_lines today l ++
       statistics_lines domains ++ calendar_lines l) tt) as Ho.
    { apply (outputs_bind _ _ _ _ tt);
        [by apply rows_output, listing_printable|].
      apply (outputs_bind _ _ _ _ tt); [by apply upcoming_renewals_outputs|].
      apply (outputs_bind _ _ _ _ tt); [|apply calendar_outputs].
      intros w'. by apply statistics_run. }
    rewrite Ho. cbn [stdout files]. unfold out. by rewrite <- !app_assoc.
  - unfold out. rewrite !length_app, length_fmap.
    assert (length l = length domains) as ->.
    { unfold l. rewrite listing_Permutation. unfold with_dates.
      by rewrite length_fmap. }
    assert (length (upcoming_lines today l) =
            upcoming_height (length (Checker.upcoming today l))) as ->.
    { unfold upcoming_lines. destruct (Checker.upcoming today l); [done|].
      cbn [length upcoming_height]. by rewrite length_fmap. }
    unfold calendar_lines. cbn [length].
    rewrite (length_calendar_lines l _ (calendar_groups_of l)).
    change (length (table_header domains)) with 3%nat.
    change (length (statistics_lines domains)) with 5%nat. lia.
Qed.

Section OnGlibc.
#[local] Existing Instance Sample.glibc.

Lemma display_domains_report_witness :
  length (stdout (Checker.display_domains Sample.today Sample.two_domains
                    Sample.w0).1) = 19%nat.
Proof.
  destruct (display_domains_report Sample.today Sample.two_domains Sample.w0)
    as [-> Hlen].
  - discriminate.
  - intros d Hd. repeat (apply elem_of_cons in Hd as [->|Hd]; [by split|]).
    by apply elem_of_nil in Hd.
  - cbn [fst stdout]. rewrite length_app, Hlen. vm_compute. reflexivity.
Defined.
End OnGlibc.


(** X20. A report that fails stops inside the listing: when the first
    record of the listing without a name or without a WHOIS guard value
    is [d], [display_domains] has printed the header, the warnings and
    the rows of the records that stand before [d], and ends with
    [TypeError] there; none of the three later views is printed. *)
Theorem display_domains_stops_in_listing {libc : DateTime.Platform} today domains w l1 d l2 :
  listing domains = l1 ++ d :: l2 →
  (∀ x, x ∈ l1 → printable x) →
  Checker.name d = None ∨ Checker.whois_guard d = None →
  Checker.display_domains today domains w =
  (World (stdout w ++ table_header domains ++ warnings domains ++
          (row_line today <$> l1)) (files w),
   Raise TypeError).
Proof.
  intros Hl H1 Hd.
  assert (domains ≠ []) as Hne.
  { intros ->. by destruct l1. }
  rewrite (display_domains_header today domains w Hne), Hl.
  match goal with |- bind ?m ?k ?w' = _ =>
    assert (m w' = (World (stdout w' ++ (row_line today <$> l1)) (files w'),
                    Raise TypeError)) as E;
      [|rewrite (bind_raise _ _ _ _ _ E); cbn [stdout files];
        by rewrite <- !app_assoc] end.
  generalize (World (stdout w ++ table_header domains ++ warnings domains)
                    (files w)).
  clear Hl. induction l1 as [|x l1 IH]; intros w'.
  - cbn [app for_each fmap list_fmap].
    rewrite (bind_raise _ _ _ _ _ (print_row_not_printable today d w' Hd)).
    destruct w'. cbn [stdout files]. by rewrite app_nil_r.
  - cbn [app for_each]. rewrite fmap_cons.
    rewrite (bind_ok _ _ _ _ _
               (print_row_outputs today x (H1 x ltac:(left)) w')).
    rewrite IH by (intros y Hy; apply H1; by right).
    cbn [stdout files]. by rewrite <- app_assoc.
Qed.

Section OnGlibc.
#[local] Existing Instance Sample.glibc.

Lemma display_domains_stops_in_listing_witness :
  let nameless := Checker.Domain None None None None (Some "11/19/2026")
                    false false false (Some "ENABLED") false false None in
  let domains := [Sample.record "z.example" "01/05/2027"; nameless] in
  Checker.display_domains Sample.today domains Sample.w0 =
  (World (table_header domains) ∅, Raise TypeError).
Proof.
  intros nameless domains.
  apply (display_domains_stops_in_listing Sample.today domains Sample.w0 []
           (Checker.set_expiry_date_obj nameless
              (Some (DateTime.Datetime 2026 11 19 0 0 0 0)))
           [Checker.set_expiry_date_obj (Sample.record "z.example" "01/05/2027")
              (Some (DateTime.Datetime 2027 1 5 0 0 0 0))]).
  - vm_compute. reflexivity.
  - by intros x ?%elem_of_nil.
  - by left.
Defined.
End OnGlibc.


(** ** The calendar keeps the order of the listing *)

Lemma pair_lt_irrefl p : Checker.pair_lt p p = false.
Proof.
  unfold Checker.pair_lt. by rewrite !Z.ltb_irrefl, andb_false_r.
Qed.

(** In a list sorted by group key, the records of a label that comes
    first stand first. *)
Lemma split_first_label {libc : DateTime.Platform} k (l : list Checker.domain) :
  StronglySorted (λ a b, Checker.pair_lt (group_key b) (group_key a) = false) l →
  Forall (λ d, group_label d = Some k ∨
               Checker.pair_lt (Checker.month_year_key k) (group_key d) = true) l →
  l = members k l ++ filter (λ d, group_label d ≠ Some k) l.
Proof.
  induction l as [|x l IH]; intros Hs Hall; [done|].
  apply StronglySorted_cons in Hs as [Hx Hs].
  apply Forall_cons in Hall as [Hk Hall]. unfold members in *.
  rewrite !filter_cons.
  destruct (decide (group_label x = Some k)) as [E|E].
  - rewrite decide_False by (by intros ?). cbn [app]. f_equal. by apply IH.
  - rewrite decide_True by done. destruct Hk as [?|Hk]; [done|].
    assert (Forall (λ d, group_label d ≠ Some k) l) as Hl.
    { rewrite Forall_forall in Hx |- *. intros y Hy Ey.
      specialize (Hx y Hy). unfold group_key in Hx at 1. rewrite Ey in Hx.
      cbn [default from_option id] in Hx. congruence. }
    assert (filter (λ d, group_label d = Some k) l = []) as ->.
    { clear -Hl. induction Hl as [|y l Hy _ IH]; [done|].
      rewrite filter_cons. by rewrite decide_False. }
    cbn [app]. f_equal. clear -Hl. induction Hl as [|y l Hy _ IH]; [done|].
    rewrite filter_cons. rewrite decide_True by done. by f_equal.
Qed.

Lemma concat_sorted_members {libc : DateTime.Platform} ks (l : list Checker.domain) :
  StronglySorted (λ k1 k2, Checker.pair_lt (Checker.month_year_key k1)
                             (Checker.month_year_key k2) = true) ks →
  StronglySorted (λ a b, Checker.pair_lt (group_key b) (group_key a) = false) l →
  Forall (λ d, ∃ k, k ∈ ks ∧ group_label d = Some k) l →
  concat ((λ k, members k l) <$> ks) = l.
Proof.
  revert l. induction ks as [|k ks IH]; intros l Hks Hl Hall.
  - destruct l as [|x l]; [done|].
    apply Forall_cons in Hall as [(k & []%elem_of_nil & _) _].
  - apply StronglySorted_cons in Hks as [Hk Hks].
    rewrite Forall_forall in Hk.
    rewrite fmap_cons. cbn [concat].
    assert (l = members k l ++ filter (λ d, group_label d ≠ Some k) l) as Hsplit.
    { apply split_first_label; [done|].
      rewrite Forall_forall in Hall |- *. intros d Hd.
      destruct (Hall d Hd) as (k' & [->|Hk']%elem_of_cons & E); [by left|].
      right. unfold group_key. rewrite E. by apply Hk. }
    etrans; [|symmetry; exact Hsplit]. f_equal.
    set (rest := filter (λ d, group_label d ≠ Some k) l).
    rewrite <- (IH rest Hks).
    + f_equal. apply list_fmap_ext. intros i k' Hk'%list_elem_of_lookup_2.
      unfold members, rest.
      rewrite list_filter_filter. apply list_filter_iff. intros d.
      split; [|by intros []]. intros E. split; [done|]. rewrite E.
      intros [= ->]. specialize (Hk k Hk').
      by rewrite pair_lt_irrefl in Hk.
    + by apply StronglySorted_filter.
    + rewrite Forall_forall in Hall |- *.
      intros d [Hd Hin]%list_elem_of_filter.
      destruct (Hall d Hin) as (k' & [->|Hk']%elem_of_cons & E); [done|].
      by exists k'.
Qed.

(** The date order of two valid dates is not against the order of
    their (year, month) keys. *)
Lemma date_order_key ta tb :
  DateTime.lt tb ta = false →
  Checker.pair_lt (DateTime.year tb, DateTime.month tb)
                  (DateTime.year ta, DateTime.month ta) = false.
Proof.
  unfold DateTime.lt, DateTime.fields, Checker.pair_lt. cbn [DateTime.lex_lt fst snd].
  destruct (Z.ltb_spec (DateTime.year tb) (DateTime.year ta)); [done|].
  destruct (Z.eqb_spec (DateTime.year tb) (DateTime.year ta)); [|done].
  destruct (Z.ltb_spec (DateTime.month tb) (DateTime.month ta)); [done|].
  by rewrite andb_false_r.
Qed.

(** X21. The calendar keeps the order of the listing: read from top to
    bottom, the records of the calendar groups are the records of the
    listing with a parsed date, in the order the listing has them; the
    order of the months by their keys and the order of the records by
    their dates agree. *)
Theorem calendar_in_listing_order {libc : DateTime.Platform} domains :
  let l := listing domains in
  concat (Checker.calendar_groups l).*2 =
  filter (λ d, Checker.expiry_date_obj d ≠ None) l.
Proof.
  intros l. set (dl := filter (λ d, Checker.expiry_date_obj d ≠ None) l).
  pose proof (calendar_groups_of l) as Hg.
  rewrite (groups_of_members l _ Hg).
  assert (∀ k, members k l = members k dl) as Hm.
  { intros k. unfold members, dl. rewrite list_filter_filter.
    apply list_filter_iff. intros d. split; [|by intros []].
    intros E. split; [done|]. unfold group_label in E.
    by destruct (Checker.expiry_date_obj d). }
  rewrite (list_fmap_ext _ (λ k, members k dl) _ (λ _ k _, Hm k)).
  apply concat_sorted_members.
  - apply (StronglySorted_fmap fst
      (λ g1 g2 : string * list Checker.domain,
         Checker.pair_lt (Checker.month_year_key g1.1)
                         (Checker.month_year_key g2.1) = true)); [done|].
    apply sorted_groups_strict; [apply Hg| |apply calendar_groups_sorted].
    apply Forall_forall. intros g. apply calendar_group_label.
  - apply StronglySorted_filter.
    apply (StronglySorted_weaken listing_order _
             (λ d, ∀ t, Checker.expiry_date_obj d = Some t → DateTime.valid t)).
    + intros a b Ha Hb Hab. unfold listing_order in Hab.
      unfold group_key, group_label.
      destruct (Checker.expiry_date_obj a) as [ta|] eqn:Eta.
      * destruct (Checker.expiry_date_obj b) as [tb|] eqn:Etb.
        -- cbn [fmap option_fmap option_map default from_option id].
           rewrite !month_year_key_strftime by auto.
           by apply date_order_key.
        -- cbn [fmap option_fmap option_map default from_option id].
           rewrite month_year_key_strftime by auto.
           change (Checker.month_year_key "") with (9999, 13).
           pose proof (valid_year_month ta (Ha ta eq_refl)) as [Hy Hmo].
           unfold Checker.pair_lt. cbn [fst snd].
           destruct (Z.ltb_spec 9999 (DateTime.year ta)); [lia|].
           destruct (Z.ltb_spec 13 (DateTime.month ta)); [lia|].
           by rewrite andb_false_r.
      * by destruct (Checker.expiry_date_obj b).
    + apply Forall_forall. intros d Hd t. by apply (listing_valid domains).
    + apply sort_domains_ordered.
  - apply Forall_forall. intros d [Hd Hin]%list_elem_of_filter.
    destruct Hg as (_ & _ & Hkeys). unfold group_label in *.
    destruct (Checker.expiry_date_obj d) as [t|] eqn:Et; [|done].
    exists (DateTime.strftime_B_Y t). split; [|done].
    apply (Hkeys d); [done|]. by rewrite Et.
Qed.

(** ** The fields the report never reads *)

Section SortedMap.
Context {A K : Type} (lt : K → K → bool) (key : A → K) (f : A → A).
Hypothesis key_f : ∀ x, key (f x) = key x.

Lemma insert_fmap x l :
  insert lt key (f x) (f <$> l) = f <$> insert lt key x l.
Proof.
  induction l as [|y l IH]; [done|].
  rewrite fmap_cons. cbn [insert]. rewrite !key_f.
  destruct (lt (key y) (key x)); [|done]. by rewrite IH, fmap_cons.
Qed.

Lemma sorted_fmap l : sorted lt key (f <$> l) = f <$> sorted lt key l.
Proof.
  induction l as [|x l IH]; [done|].
  rewrite fmap_cons. cbn [sorted]. by rewrite IH, insert_fmap.
Qed.
End SortedMap.

Lemma filter_fmap_same {A} (P : A → Prop) `{∀ x, Decision (P x)} (f : A → A)
    (l : list A) :
  (∀ x, P (f x) ↔ P x) → filter P (f <$> l) = f <$> filter P l.
Proof.
  intros HP. induction l as [|x l IH]; [done|].
  rewrite fmap_cons, !filter_cons.
  destruct (decide (P (f x))) as [H1|H1], (decide (P x)) as [H2|H2].
  - by rewrite IH, fmap_cons.
  - destruct H2. by apply HP.
  - destruct H1. by apply HP.
  - done.
Qed.

Lemma bind_ext {A B} (m m' : M A) (k k' : A → M B) w :
  m w = m' w → (∀ a w1, k a w1 = k' a w1) → bind m k w = bind m' k' w.
Proof.
  intros Hm Hk. unfold bind. rewrite Hm.
  destruct (m' w) as [w1 [a|e]]; [apply Hk|done].
Qed.

Lemma for_each_fmap {A} (body : A → M unit) (f : A → A) l w :
  (∀ x w1, body (f x) w1 = body x w1) →
  for_each body (f <$> l) w = for_each body l w.
Proof.
  intros Hb. revert w. induction l as [|x l IH]; intros w; [done|].
  rewrite fmap_cons. cbn [for_each]. apply bind_ext; [apply Hb|].
  intros _ w1. apply IH.
Qed.

Lemma sort_domains_forget l :
  Checker.sort_domains (forget <$> l) = forget <$> Checker.sort_domains l.
Proof.
  unfold Checker.sort_domains.
  rewrite !(filter_fmap_same _ forget) by done.
  by rewrite fmap_app, (sorted_fmap _ _ forget).
Qed.

Lemma upcoming_forget today l :
  Checker.upcoming today (forget <$> l) = forget <$> Checker.upcoming today l.
Proof. unfold Checker.upcoming. by rewrite (filter_fmap_same _ forget). Qed.

Lemma upcoming_renewals_forget today l w :
  Checker.upcoming_renewals today (forget <$> l) w =
  Checker.upcoming_renewals today l w.
Proof.
  unfold Checker.upcoming_renewals. apply bind_ext; [done|]. intros _ w1.
  rewrite upcoming_forget.
  destruct (Checker.upcoming today l) as [|x up] eqn:E; [done|].
  rewrite fmap_cons.
  apply bind_ext; [done|]. intros _ w2. apply bind_ext; [done|]. intros _ w3.
  rewrite <- fmap_cons. by apply for_each_fmap.
Qed.

Lemma count_forget p (f : Checker.domain → Checker.domain) l :
  (∀ d, p (f d) = p d) → Checker.count p (f <$> l) = Checker.count p l.
Proof.
  intros Hp. unfold Checker.count.
  rewrite (filter_fmap_same _ f) by (intros d; by rewrite Hp).
  by rewrite length_fmap.
Qed.

Lemma statistics_forget (f : Checker.domain → Checker.domain) l w :
  (∀ d, shown_fields (f d) = shown_fields d) →
  Checker.statistics (f <$> l) w = Checker.statistics l w.
Proof.
  intros Hf. unfold Checker.statistics.
  assert (∀ d, Checker.is_locked (f d) = Checker.is_locked d ∧
               Checker.auto_renew (f d) = Checker.auto_renew d ∧
               Checker.whois_guard (f d) = Checker.whois_guard d) as Hd.
  { intros d. specialize (Hf d). unfold shown_fields in Hf.
    by injection Hf as _ _ _ -> -> ->. }
  rewrite length_fmap.
  rewrite (count_forget Checker.auto_renew f) by (intros d; apply Hd).
  rewrite (count_forget Checker.is_locked f) by (intros d; apply Hd).
  rewrite (count_forget
             (λ d, bool_decide (Checker.whois_guard d = Some "ENABLED")) f)
    by (intros d; by rewrite (proj2 (proj2 (Hd d)))).
  done.
Qed.

Lemma group_append_forget k d groups :
  Checker.group_append k (forget d) (forget_group <$> groups) =
  forget_group <$> Checker.group_append k d groups.
Proof.
  induction groups as [|[k' ds] groups IH]; [done|].
  rewrite fmap_cons. cbn [Checker.group_append forget_group fst snd].
  destruct (decide (k = k')); [|by rewrite IH, fmap_cons].
  rewrite fmap_cons. unfold forget_group at 2. cbn [fst snd].
  by rewrite fmap_app.
Qed.

Lemma domains_by_month_forget {libc : DateTime.Platform} l :
  Checker.domains_by_month (forget <$> l) =
  forget_group <$> Checker.domains_by_month l.
Proof.
  unfold Checker.domains_by_month.
  change (@nil (string * list Checker.domain)) with
    (forget_group <$> @nil (string * list Checker.domain)) at 1.
  generalize (@nil (string * list Checker.domain)).
  induction l as [|d l IH]; intros acc; [done|].
  rewrite fmap_cons. cbn [foldl]. rewrite <- IH. f_equal.
  unfold Checker.group_step. cbn [forget Checker.expiry_date_obj].
  destruct (Checker.expiry_date_obj d); [|done]. apply group_append_forget.
Qed.

Lemma calendar_forget {libc : DateTime.Platform} l w :
  Checker.calendar (forget <$> l) w = Checker.calendar l w.
Proof.
  unfold Checker.calendar, Checker.calendar_groups.
  apply bind_ext; [done|]. intros _ w1.
  rewrite domains_by_month_forget.
  rewrite (sorted_fmap _ _ forget_group) by done.
  apply for_each_fmap. intros g w2. unfold Checker.print_group.
  apply bind_ext; [done|]. intros _ w3.
  unfold forget_group. cbn [snd]. by apply for_each_fmap.
Qed.

(** X22. The report reads six fields of a record only: the name, the two
    raw dates, the lock and auto-renew flags and the WHOIS guard value.
    Two lists that agree on these fields give the same run of
    [display_domains], whatever their IDs, users, [IsExpired],
    [IsPremium] and [IsOurDNS] flags say; in particular EXPIRED is
    decided by the date and never by the registrar's flag. *)
Theorem display_domains_reads_shown_fields {libc : DateTime.Platform} today domains domains' w :
  shown_fields <$> domains = shown_fields <$> domains' →
  Checker.display_domains today domains w =
  Checker.display_domains today domains' w.
Proof.
  assert (∀ ds, Checker.display_domains today ds w =
                Checker.display_domains today
                  ((λ d, Checker.set_expiry_date_obj (forget d) None) <$> ds) w)
    as Herase.
  { intros ds. set (erase := λ d, Checker.set_expiry_date_obj (forget d) None).
    destruct (decide (ds = [])) as [->|Hne]; [done|].
    assert (erase <$> ds ≠ []) as Hne' by (by destruct ds).
    rewrite (display_domains_header today ds w Hne),
      (display_domains_header today _ w Hne').
    assert (listing (erase <$> ds) = forget <$> listing ds) as ->.
    { unfold listing. rewrite <- sort_domains_forget. f_equal.
      unfold with_dates. rewrite <- !list_fmap_compose. done. }
    assert (warnings (erase <$> ds) = warnings ds) as ->.
    { unfold warnings. clear. induction ds as [|d ds IH]; [done|].
      by rewrite fmap_cons, !bind_cons, IH. }
    assert (table_header (erase <$> ds) = table_header ds) as ->
      by (unfold table_header; by rewrite length_fmap).
    symmetry.
    apply bind_ext; [by apply for_each_fmap|]. intros _ w1.
    apply bind_ext; [apply upcoming_renewals_forget|]. intros _ w2.
    apply bind_ext; [by apply statistics_forget|]. intros _ w3.
    apply calendar_forget. }
  intros H. rewrite (Herase domains), (Herase domains'). f_equal.
  set (mk := λ v : option string * option string * option string * bool *
                   bool * option string,
         Checker.Domain None v.1.1.1.1.1 None v.1.1.1.1.2 v.1.1.1.2 false
           v.1.1.2 v.1.2 v.2 false false None).
  transitivity (mk <$> (shown_fields <$> domains)).
  { rewrite <- list_fmap_compose. by apply list_fmap_ext. }
  rewrite H, <- list_fmap_compose. by apply list_fmap_ext.
Qed.

Section OnGlibc.
#[local] Existing Instance Sample.glibc.

Lemma display_domains_reads_shown_fields_witness :
  let flagged := Checker.Domain (Some "127") (Some "a.example") (Some "alice")
                   None (Some "11/19/2027") true false false (Some "ENABLED")
                   true true None in
  Checker.display_domains Sample.today [flagged] Sample.w0 =
  Checker.display_domains Sample.today [Sample.record "a.example" "11/19/2027"]
    Sample.w0.
Proof.
  intros flagged.
  apply (display_domains_reads_shown_fields Sample.today [flagged]
           [Sample.record "a.example" "11/19/2027"] Sample.w0).
  reflexivity.
Defined.
End OnGlibc.

